(** * Preflight: the report contract, the zone mapper and the remote adapter

    A shallow embedding of the TypeScript sources

    - [types.ts]                      (enumerations and the report shape),
    - [services/geminiService.ts]     (analyzePdf, generateImage, editImage),
    - [components/FileUpload.tsx]     (validateAndUpload),
    - [components/ReportDashboard.tsx] (checksByStatus, getZoneStyles, hovering),
    - [components/ImageGenerator.tsx], [components/ImageEditor.tsx], [App.tsx]
      (the three surfaces that start remote calls),

    followed by the properties of the specification that are stated about
    them.  Strings are byte strings; a JS [number] that holds an integer is
    a [Z]; an optional property is an [option]. *)

From Stdlib Require Import ZArith QArith Lia Bool Ascii String List.
From stdpp Require Import base option list strings gmap.
Import ListNotations.

Local Open Scope string_scope.
Local Open Scope Z_scope.

(* ===================================================================== *)
(** * JavaScript runtime: errors, promises, the console *)
(* ===================================================================== *)

Module JS.

(** A thrown value.  [Error] is [new Error(message)]; [SyntaxError] is what
    [JSON.parse] throws. *)
Inductive JSError : Type :=
| Error (message : string)
| SyntaxError (message : string).

Definition message (e : JSError) : string :=
  match e with Error m | SyntaxError m => m end.

(** The settled state of a promise. *)
Inductive Promise (A : Type) : Type :=
| Fulfilled (value : A)
| Rejected (reason : JSError).
Arguments Fulfilled {A} value.
Arguments Rejected {A} reason.

(** One call of [console.error(label, error)]. *)
Record LogEntry : Type := ConsoleError { label : string; logged : JSError }.

(** The body of an [async] function: what it wrote to the console, and how
    the promise it returns settles. *)
Definition Async (A : Type) : Type := (list LogEntry * Promise A)%type.

Definition console {A} (m : Async A) : list LogEntry := fst m.
Definition settled {A} (m : Async A) : Promise A := snd m.

Definition ret {A} (a : A) : Async A := ([], Fulfilled a).
Definition throw {A} (e : JSError) : Async A := ([], Rejected e).
Definition await {A} (p : Promise A) : Async A := ([], p).
Definition console_error (l : string) (e : JSError) : Async unit :=
  ([ConsoleError l e], Fulfilled tt).

Definition bind {A B} (m : Async A) (k : A → Async B) : Async B :=
  match m with
  | (out, Fulfilled a) => let '(out', r) := k a in ((out ++ out')%list, r)
  | (out, Rejected e) => (out, Rejected e)
  end.

(** [try { body } catch (error) { handler }] *)
Definition try_catch {A} (body : Async A) (handler : JSError → Async A) : Async A :=
  match body with
  | (out, Fulfilled a) => (out, Fulfilled a)
  | (out, Rejected e) => let '(out', r) := handler e in ((out ++ out')%list, r)
  end.

#[global] Instance Async_ret : MRet Async := @ret.
#[global] Instance Async_bind : MBind Async := fun A B k m => bind m k.

(** A synchronous call that may throw, used inside an [async] body. *)
Definition call {A} (r : JSError + A) : Async A :=
  match r with inl e => throw e | inr a => ret a end.

(** [ToString] of a possibly [undefined] string, as a template literal and
    [JSON.parse] apply it to their argument. *)
Definition to_string (x : option string) : string :=
  match x with Some s => s | None => "undefined" end.

(** Truthiness of a possibly [undefined] string: [undefined] and [""] are
    falsy. *)
Definition truthy (x : option string) : bool :=
  match x with
  | None => false
  | Some s => negb (String.eqb s "")
  end.

(** [a || b] on a possibly [undefined] string with a string default. *)
Definition or_else (a : option string) (b : string) : string :=
  match a with
  | Some s => if String.eqb s "" then b else s
  | None => b
  end.

(** [!s.trim()]: the string is empty or made of white space only.  [trim]
    removes the WhiteSpace and LineTerminator code points; the match below
    recognises them in their UTF-8 form: U+0009..U+000D, U+0020, U+00A0,
    U+1680, U+2000..U+200A, U+2028, U+2029, U+202F, U+205F, U+3000, U+FEFF. *)
Fixpoint blank (s : string) : bool :=
  match s with
  | EmptyString => true
  | String c r =>
      let n := N_of_ascii c in
      if ((9 <=? n) && (n <=? 13))%N || (n =? 32)%N then blank r
      else
        match r with
        | String c1 r1 =>
            let n1 := N_of_ascii c1 in
            if ((n =? 194) && (n1 =? 160))%N then blank r1
            else
              match r1 with
              | String c2 r2 =>
                  let n2 := N_of_ascii c2 in
                  if ((n =? 225) && (n1 =? 154) && (n2 =? 128))%N
                     || ((n =? 226) && (n1 =? 128)
                         && (((128 <=? n2) && (n2 <=? 138)) || (n2 =? 168) || (n2 =? 169)
                             || (n2 =? 175)))%N
                     || ((n =? 226) && (n1 =? 129) && (n2 =? 159))%N
                     || ((n =? 227) && (n1 =? 128) && (n2 =? 128))%N
                     || ((n =? 239) && (n1 =? 187) && (n2 =? 191))%N
                  then blank r2
                  else false
              | EmptyString => false
              end
        | EmptyString => false
        end
  end.

End JS.
Import JS.

(* ===================================================================== *)
(** * types.ts *)
(* ===================================================================== *)

Inductive CheckStatus : Type := PASS | WARN | FAIL.

Inductive Category : Type := LAYOUT | TYPOGRAPHY | IMAGERY | CONTENT | COLOR.

Inductive Verdict : Type := READY_FOR_PRINT | NEEDS_REVIEW | DO_NOT_PRINT.

#[global] Instance CheckStatus_eq_dec : EqDecision CheckStatus.
Proof. solve_decision. Defined.
#[global] Instance Category_eq_dec : EqDecision Category.
Proof. solve_decision. Defined.
#[global] Instance Verdict_eq_dec : EqDecision Verdict.
Proof. solve_decision. Defined.

(** The string value of each enum member. *)
Definition CheckStatus_value (s : CheckStatus) : string :=
  match s with PASS => "PASS" | WARN => "WARN" | FAIL => "FAIL" end.

Definition Category_value (c : Category) : string :=
  match c with
  | LAYOUT => "LAYOUT" | TYPOGRAPHY => "TYPOGRAPHY" | IMAGERY => "IMAGERY"
  | CONTENT => "CONTENT" | COLOR => "COLOR"
  end.

Definition Verdict_value (v : Verdict) : string :=
  match v with
  | READY_FOR_PRINT => "READY_FOR_PRINT"
  | NEEDS_REVIEW => "NEEDS_REVIEW"
  | DO_NOT_PRINT => "DO_NOT_PRINT"
  end.

(** [visualZone] is declared as a union of ten string literals; nothing
    checks a reply against it, so the field holds whatever string came. *)
Record CheckItem : Type := {
  category : Category;
  status : CheckStatus;
  title : string;
  description : string;
  location : option string;
  visualZone : option string
}.

Record DocumentSpecs : Type := {
  pageCount : Z;
  detectedDimensions : string;
  colorProfileEstimate : string;
  hasCropMarks : bool
}.

Record PreflightReport : Type := {
  overallScore : Z;
  summary : string;
  finalVerdict : Verdict;
  checks : list CheckItem;
  specs : DocumentSpecs
}.

(* ===================================================================== *)
(** * JSON: values, [JSON.parse], [JSON.stringify] *)
(* ===================================================================== *)

(** [JSON.parse] and [JSON.stringify] are builtins of the platform; this is
    a model of them after ECMA-262.  A JS number is an IEEE 754 double: a
    numeral is read as the double nearest to the number it writes, the even
    one half way between two.  [JNumber z] is the number [z] when it is an
    integer, [JFloat] holds the other doubles.  A JS string is held as the
    bytes of its UTF-8 form; a surrogate that stands alone, which only an
    escape can write, takes the three bytes that the encoding would give
    its code unit.  An object is the list of its properties in the order
    the text has them, with one entry per key; the program reads
    properties by name and never lists them, so the order in which JS
    would list keys that are array indices is not modelled. *)

Module JSON.

(** The doubles that are no integer.  The finite doubles are the whole
    multiples of 2^-1074 with at most 53 significant bits, below 2^1024;
    [units] counts a fraction in multiples of 2^-1074. *)
Inductive Float : Type :=
| NegativeZero
| Infinity (negative : bool)
| Fraction (negative : bool) (units : positive).

#[local] Unset Elimination Schemes.
Inductive JSValue : Type :=
| JNull
| JBool (b : bool)
| JNumber (z : Z)
| JFloat (f : Float)
| JString (s : string)
| JArray (elements : list JSValue)
| JObject (properties : list (string * JSValue)).
#[local] Set Elimination Schemes.

(** [o[k]]: reading a property; [None] is [undefined]. *)
Fixpoint lookup_property (k : string) (ps : list (string * JSValue)) : option JSValue :=
  match ps with
  | [] => None
  | (k', v) :: ps' => if String.eqb k k' then Some v else lookup_property k ps'
  end.

(** Truthiness: [null], [false], [0], [-0] and [""] are falsy. *)
Definition truthy_value (v : JSValue) : bool :=
  match v with
  | JNull => false
  | JBool b => b
  | JNumber z => negb (z =? 0)
  | JFloat NegativeZero => false
  | JFloat _ => true
  | JString s => negb (String.eqb s "")
  | JArray _ | JObject _ => true
  end.

Definition get (k : string) (v : JSValue) : option JSValue :=
  match v with
  | JObject ps => lookup_property k ps
  | _ => None
  end.

(** [o[k] = v] while an object is built: an existing key keeps its place and
    takes the new value, a new key goes last. *)
Fixpoint set_property (k : string) (v : JSValue) (ps : list (string * JSValue))
  : list (string * JSValue) :=
  match ps with
  | [] => [(k, v)]
  | (k', v') :: ps' =>
      if String.eqb k k' then (k', v) :: ps' else (k', v') :: set_property k v ps'
  end.

(** ** Characters *)

Definition dquote : ascii := "034"%char.
Definition backslash : ascii := "092"%char.

Definition code (c : ascii) : Z := Z.of_N (N_of_ascii c).
Definition char_of (z : Z) : ascii := ascii_of_N (Z.to_N z).

Definition is_ws (c : ascii) : bool :=
  Ascii.eqb c " " || Ascii.eqb c "009" || Ascii.eqb c "010" || Ascii.eqb c "013".

Definition is_digit (c : ascii) : bool := (48 <=? code c) && (code c <=? 57).

Definition hex_val (c : ascii) : option Z :=
  let n := code c in
  if (48 <=? n) && (n <=? 57) then Some (n - 48)
  else if (65 <=? n) && (n <=? 70) then Some (n - 55)
  else if (97 <=? n) && (n <=? 102) then Some (n - 87)
  else None.

Definition hex_digit (z : Z) : ascii :=
  if z <? 10 then char_of (48 + z) else char_of (87 + z).

(** The four digits of a [\uXXXX] escape. *)
Definition hex4 (h1 h2 h3 h4 : ascii) : option Z :=
  match hex_val h1, hex_val h2, hex_val h3, hex_val h4 with
  | Some a, Some b, Some c, Some d => Some (((a * 16 + b) * 16 + c) * 16 + d)
  | _, _, _, _ => None
  end.

(** The two halves of a code point above U+FFFF. *)
Definition is_high_surrogate (u : Z) : bool := (55296 <=? u) && (u <=? 56319).
Definition is_low_surrogate (u : Z) : bool := (56320 <=? u) && (u <=? 57343).

Definition code_point (high low : Z) : Z :=
  65536 + (high - 55296) * 1024 + (low - 56320).

(** The UTF-8 bytes of a code point, in front of [tail]. *)
Definition utf8 (cp : Z) (tail : string) : string :=
  if cp <? 128 then String (char_of cp) tail
  else if cp <? 2048 then
    String (char_of (192 + cp / 64)) (String (char_of (128 + cp mod 64)) tail)
  else if cp <? 65536 then
    String (char_of (224 + cp / 4096))
      (String (char_of (128 + (cp / 64) mod 64))
         (String (char_of (128 + cp mod 64)) tail))
  else
    String (char_of (240 + cp / 262144))
      (String (char_of (128 + (cp / 4096) mod 64))
         (String (char_of (128 + (cp / 64) mod 64))
            (String (char_of (128 + cp mod 64)) tail))).

(** ** Numbers: from a decimal to the nearest double *)

(** One is [UNIT] multiples of 2^-1074; 2^1024, where the doubles end, is
    [OVERFLOW] of them. *)
Definition UNIT : Z := 2 ^ 1074.
Definition OVERFLOW : Z := 2 ^ 2098.

(** [n / d] rounded to the nearest integer, to the even one half way. *)
Definition round_half_even (n d : Z) : Z :=
  let q := n / d in
  let r := n mod d in
  if 2 * r <? d then q
  else if d <? 2 * r then q + 1
  else if Z.even q then q
  else q + 1.

(** The doubles around [n / d] multiples of 2^-1074 are [2 ^ spacing n d]
    multiples apart: one below 2^53 multiples, and from there on what
    leaves 53 bits. *)
Definition spacing (n d : Z) : Z :=
  let l := Z.log2 n - Z.log2 d in
  if l <=? 52 then 0
  else if d * 2 ^ l <=? n then l - 52
  else l - 53.

(** The double nearest to [n / d] multiples of 2^-1074, in multiples of
    2^-1074. *)
Definition nearest (n d : Z) : Z :=
  let k := spacing n d in
  round_half_even n (d * 2 ^ k) * 2 ^ k.

(** The double nearest to [m * 10^e], in multiples of 2^-1074. *)
Definition units_of_decimal (m e : Z) : Z :=
  if 0 <=? e then nearest (m * 10 ^ e * UNIT) 1
  else nearest (m * UNIT) (10 ^ (- e)).

(** The number that is [u] multiples of 2^-1074, with its sign. *)
Definition number_of_units (negative : bool) (u : Z) : JSValue :=
  if u =? 0 then
    if negative then JFloat NegativeZero else JNumber 0
  else if OVERFLOW <=? u then JFloat (Infinity negative)
  else if u mod UNIT =? 0 then
    JNumber (if negative then - (u / UNIT) else u / UNIT)
  else JFloat (Fraction negative (Z.to_pos u)).

Definition number_of_decimal (negative : bool) (m e : Z) : JSValue :=
  number_of_units negative (units_of_decimal m e).

(** ** Reading *)

Fixpoint skip_ws (s : string) : string :=
  match s with
  | String c r => if is_ws c then skip_ws r else s
  | EmptyString => s
  end.

Fixpoint read_digits (acc : Z) (s : string) : Z * string :=
  match s with
  | String c r => if is_digit c then read_digits (10 * acc + (code c - 48)) r else (acc, s)
  | EmptyString => (acc, s)
  end.

(** [Number.MAX_SAFE_INTEGER]: up to here every integer is a double. *)
Definition MAX_SAFE_INTEGER : Z := 2 ^ 53 - 1.

(** int = "0" | digit1-9 digit* *)
Definition read_int (s : string) : option (Z * string) :=
  match s with
  | String c r =>
      if Ascii.eqb c "0" then Some (0, r)
      else if is_digit c then Some (read_digits 0 s)
      else None
  | EmptyString => None
  end.

(** One digit at least, read on from [acc]. *)
Definition read_digits1 (acc : Z) (s : string) : option (Z * string) :=
  match s with
  | String d _ => if is_digit d then Some (read_digits acc s) else None
  | EmptyString => None
  end.

(** frac = "." digit+, or nothing.  The digits are read on into the
    mantissa [m]; the result has their number as well. *)
Definition read_frac (m : Z) (s : string) : option (Z * Z * string) :=
  match s with
  | String c r =>
      if Ascii.eqb c "." then
        match read_digits1 m r with
        | Some (m', r') =>
            Some (m', Z.of_nat (String.length r - String.length r'), r')
        | None => None
        end
      else Some (m, 0, s)
  | EmptyString => Some (m, 0, s)
  end.

(** exp = ("e" | "E") ("+" | "-")? digit+, or nothing. *)
Definition read_exp (s : string) : option (Z * string) :=
  match s with
  | String c r =>
      if Ascii.eqb c "e" || Ascii.eqb c "E" then
        match r with
        | String sign r' =>
            if Ascii.eqb sign "+" then read_digits1 0 r'
            else if Ascii.eqb sign "-" then
              match read_digits1 0 r' with
              | Some (e, rest) => Some (- e, rest)
              | None => None
              end
            else read_digits1 0 r
        | EmptyString => None
        end
      else Some (0, s)
  | EmptyString => Some (0, s)
  end.

(** number = "-"? int frac? exp? *)
Definition read_number (s : string) : option (JSValue * string) :=
  let '(negative, s1) :=
    match s with
    | String c r => if Ascii.eqb c "-" then (true, r) else (false, s)
    | EmptyString => (false, s)
    end in
  match read_int s1 with
  | Some (i, s2) =>
      match read_frac i s2 with
      | Some (m, f, s3) =>
          match read_exp s3 with
          | Some (e, s4) => Some (number_of_decimal negative m (e - f), s4)
          | None => None
          end
      | None => None
      end
  | None => None
  end.

(** The low surrogate that a text starts with, written as a [\uXXXX]
    escape. *)
Definition low_escape (s : string) : option Z :=
  match s with
  | String b (String x (String l1 (String l2 (String l3 (String l4 _))))) =>
      if Ascii.eqb b backslash && Ascii.eqb x "u" then
        match hex4 l1 l2 l3 l4 with
        | Some low => if is_low_surrogate low then Some low else None
        | None => None
        end
      else None
  | _ => None
  end.

(** The characters of a string literal after its opening quote, up to and
    including the closing quote.  A [\uXXXX] escape of a high surrogate
    that is followed by one of a low surrogate makes one code point with
    it. *)
Fixpoint read_chars (s : string) : option (string * string) :=
  match s with
  | EmptyString => None
  | String c r =>
      if Ascii.eqb c dquote then Some (EmptyString, r)
      else if Ascii.eqb c backslash then
        match r with
        | String e r1 =>
            let simple (b : ascii) :=
              match read_chars r1 with
              | Some (t, rest) => Some (String b t, rest)
              | None => None
              end in
            if Ascii.eqb e dquote then simple dquote
            else if Ascii.eqb e backslash then simple backslash
            else if Ascii.eqb e "/" then simple "/"%char
            else if Ascii.eqb e "b" then simple "008"%char
            else if Ascii.eqb e "f" then simple "012"%char
            else if Ascii.eqb e "n" then simple "010"%char
            else if Ascii.eqb e "r" then simple "013"%char
            else if Ascii.eqb e "t" then simple "009"%char
            else if Ascii.eqb e "u" then
              match r1 with
              | String h1 (String h2 (String h3 (String h4 r2))) =>
                  match hex4 h1 h2 h3 h4 with
                  | Some u =>
                      let alone :=
                        match read_chars r2 with
                        | Some (t, rest) => Some (utf8 u t, rest)
                        | None => None
                        end in
                      if is_high_surrogate u then
                        match low_escape r2, r2 with
                        | Some low,
                          String _ (String _ (String _ (String _ (String _ (String _ r3))))) =>
                            match read_chars r3 with
                            | Some (t, rest) => Some (utf8 (code_point u low) t, rest)
                            | None => None
                            end
                        | _, _ => alone
                        end
                      else alone
                  | None => None
                  end
              | _ => None
              end
            else None
        | EmptyString => None
        end
      else if code c <? 32 then None
      else
        match read_chars r with
        | Some (t, rest) => Some (String c t, rest)
        | None => None
        end
  end.

Fixpoint strip_prefix (p s : string) : option string :=
  match p with
  | EmptyString => Some s
  | String a p' =>
      match s with
      | String b s' => if Ascii.eqb a b then strip_prefix p' s' else None
      | EmptyString => None
      end
  end.

Fixpoint parse_value (fuel : nat) (s : string) : option (JSValue * string) :=
  match fuel with
  | O => None
  | S n =>
      match skip_ws s with
      | EmptyString => None
      | String c r =>
          if Ascii.eqb c "{" then
            match skip_ws r with
            | String c' r' =>
                if Ascii.eqb c' "}" then Some (JObject [], r')
                else parse_members n [] (String c' r')
            | EmptyString => None
            end
          else if Ascii.eqb c "[" then
            match skip_ws r with
            | String c' r' =>
                if Ascii.eqb c' "]" then Some (JArray [], r')
                else parse_elements n [] (String c' r')
            | EmptyString => None
            end
          else if Ascii.eqb c dquote then
            match read_chars r with
            | Some (t, rest) => Some (JString t, rest)
            | None => None
            end
          else if Ascii.eqb c "t" then
            match strip_prefix "rue" r with
            | Some rest => Some (JBool true, rest)
            | None => None
            end
          else if Ascii.eqb c "f" then
            match strip_prefix "alse" r with
            | Some rest => Some (JBool false, rest)
            | None => None
            end
          else if Ascii.eqb c "n" then
            match strip_prefix "ull" r with
            | Some rest => Some (JNull, rest)
            | None => None
            end
          else read_number (String c r)
      end
  end

with parse_elements (fuel : nat) (acc : list JSValue) (s : string)
  : option (JSValue * string) :=
  match fuel with
  | O => None
  | S n =>
      match parse_value n s with
      | Some (v, r) =>
          match skip_ws r with
          | String c r' =>
              if Ascii.eqb c "," then parse_elements n (acc ++ [v])%list r'
              else if Ascii.eqb c "]" then Some (JArray (acc ++ [v])%list, r')
              else None
          | EmptyString => None
          end
      | None => None
      end
  end

with parse_members (fuel : nat) (acc : list (string * JSValue)) (s : string)
  : option (JSValue * string) :=
  match fuel with
  | O => None
  | S n =>
      match skip_ws s with
      | String q r =>
          if Ascii.eqb q dquote then
            match read_chars r with
            | Some (k, r1) =>
                match skip_ws r1 with
                | String colon r2 =>
                    if Ascii.eqb colon ":" then
                      match parse_value n r2 with
                      | Some (v, r3) =>
                          match skip_ws r3 with
                          | String c r' =>
                              if Ascii.eqb c "," then parse_members n (set_property k v acc) r'
                              else if Ascii.eqb c "}" then Some (JObject (set_property k v acc), r')
                              else None
                          | EmptyString => None
                          end
                      | None => None
                      end
                    else None
                | EmptyString => None
                end
            | None => None
            end
          else None
      | EmptyString => None
      end
  end.

(** [JSON.parse(text)]: one value, optional white space around it, nothing
    else; anything else throws a [SyntaxError].  Every step of the reader
    uses up a character at least every second call, so twice the length of
    the text is fuel enough ([fuel_enough] below). *)
Definition parse (text : string) : JSError + JSValue :=
  match parse_value (2 * String.length text + 2) text with
  | Some (v, rest) =>
      match skip_ws rest with
      | EmptyString => inr v
      | String _ _ => inl (SyntaxError "Unexpected non-whitespace character after JSON")
      end
  | None => inl (SyntaxError "Unexpected token or end of JSON input")
  end.

(** ** Writing: the compact form [JSON.stringify] produces *)

(** Decimal digits of a non-negative integer, most significant first, put in
    front of [acc]. *)
Fixpoint digits (fuel : nat) (n : Z) (acc : string) : string :=
  match fuel with
  | O => acc
  | S f =>
      if n <? 10 then String (char_of (48 + n)) acc
      else digits f (n / 10) (String (char_of (48 + n mod 10)) acc)
  end.

Definition write_nat (n : Z) (acc : string) : string :=
  digits (S (Z.to_nat (Z.log2 n))) n acc.

(** *** Number::toString for a double that is not a safe integer *)

(** [u / UNIT < 10^j] *)
Definition below_power_of_ten (u j : Z) : bool :=
  if 0 <=? j then u <? 10 ^ j * UNIT else u * 10 ^ (- j) <? UNIT.

Fixpoint raise_exponent (fuel : nat) (u n : Z) : Z :=
  match fuel with
  | O => n
  | S f => if below_power_of_ten u n then n else raise_exponent f u (n + 1)
  end.

Fixpoint lower_exponent (fuel : nat) (u n : Z) : Z :=
  match fuel with
  | O => n
  | S f => if below_power_of_ten u (n - 1) then lower_exponent f u (n - 1) else n
  end.

(** The [n] with [10^(n-1) <= u / UNIT < 10^n], found from an estimate by
    the binary logarithm. *)
Definition decimal_exponent (u : Z) : Z :=
  lower_exponent 4 u (raise_exponent 4 u ((Z.log2 u - 1074) * 30103 / 100000)).

(** The fewest digits that are read back as [u]: with [k] digits the
    candidates are the two [k]-digit decimals around the number; of two
    that are read back as [u] the nearer one is taken, the even one half
    way. *)
Fixpoint shortest_digits (fuel : nat) (u n k : Z) : option (Z * Z) :=
  match fuel with
  | O => None
  | S f =>
      let e := n - k in
      let '(a, b) := if 0 <=? e then (u, UNIT * 10 ^ e) else (u * 10 ^ (- e), UNIT) in
      let low := a / b in
      let high := low + 1 in
      let low_reads := units_of_decimal low e =? u in
      let high_reads := units_of_decimal high e =? u in
      if low_reads && high_reads then
        Some (round_half_even a b, k)
      else if low_reads then Some (low, k)
      else if high_reads then Some (high, k)
      else shortest_digits f u n (k + 1)
  end.

Definition zeros (n : Z) : string := Z.iter n (String "0") "".

(** The digits [s], [k] of them, of a number with [10^(n-1) <= number < 10^n]. *)
Definition write_decimal (s k n : Z) : string :=
  let ds := write_nat s "" in
  if (k <=? n) && (n <=? 21) then ds ++ zeros (n - k)
  else if (0 <? n) && (n <=? 21) then
    substring 0 (Z.to_nat n) ds ++ "." ++ substring (Z.to_nat n) (Z.to_nat (k - n)) ds
  else if (-6 <? n) && (n <=? 0) then "0." ++ zeros (- n) ++ ds
  else
    let e := n - 1 in
    let exponent := (if e <? 0 then "-" else "+") ++ write_nat (Z.abs e) "" in
    if k =? 1 then ds ++ "e" ++ exponent
    else substring 0 1 ds ++ "." ++ substring 1 (Z.to_nat (k - 1)) ds ++ "e" ++ exponent.

(** [Number::toString] of the positive double that is [u] multiples of
    2^-1074. *)
Definition write_double (u : Z) : string :=
  let n := decimal_exponent u in
  match shortest_digits 17 u n 1 with
  | Some (s, k) =>
      if s =? 10 ^ k then write_decimal 1 1 (n + 1) else write_decimal s k n
  | None => write_nat (u / UNIT) ""
  end.

Definition write_number (z : Z) (acc : string) : string :=
  if Z.abs z <=? MAX_SAFE_INTEGER then
    if z <? 0 then String "-" (write_nat (- z) acc) else write_nat z acc
  else
    (if z <? 0 then "-" else "") ++ write_double (Z.abs z * UNIT) ++ acc.

(** [JSON.stringify] writes [-0] as [0] and what is not finite as [null]. *)
Definition write_float (f : Float) (acc : string) : string :=
  match f with
  | NegativeZero => String "0" acc
  | Infinity _ => "null" ++ acc
  | Fraction negative u =>
      (if negative then "-" else "") ++ write_double (Z.pos u) ++ acc
  end.

(** One character of a string literal: the quote and the backslash are
    escaped, control characters take their short escape or [\u00XX]. *)
Definition write_char (c : ascii) (acc : string) : string :=
  if Ascii.eqb c dquote then String backslash (String dquote acc)
  else if Ascii.eqb c backslash then String backslash (String backslash acc)
  else if Ascii.eqb c "008" then String backslash (String "b" acc)
  else if Ascii.eqb c "012" then String backslash (String "f" acc)
  else if Ascii.eqb c "010" then String backslash (String "n" acc)
  else if Ascii.eqb c "013" then String backslash (String "r" acc)
  else if Ascii.eqb c "009" then String backslash (String "t" acc)
  else if code c <? 32 then
    String backslash (String "u" (String "0" (String "0"
      (String (hex_digit (code c / 16)) (String (hex_digit (code c mod 16)) acc)))))
  else String c acc.

(** The code unit of a surrogate that stands alone in a string, where it
    is held as the three bytes [ED], [A0]..[BF], [80]..[BF]. *)
Definition lone_surrogate (s : string) : option Z :=
  match s with
  | String c1 (String c2 (String c3 _)) =>
      if (code c1 =? 237) && (160 <=? code c2) && (code c2 <=? 191)
         && (128 <=? code c3) && (code c3 <=? 191)
      then Some (53248 + (code c2 - 128) * 64 + (code c3 - 128))
      else None
  | _ => None
  end.

(** [\uxxxx] with lower-case digits. *)
Definition write_unicode_escape (u : Z) (acc : string) : string :=
  String backslash (String "u"
    (String (hex_digit (u / 4096)) (String (hex_digit ((u / 256) mod 16))
       (String (hex_digit ((u / 16) mod 16)) (String (hex_digit (u mod 16)) acc))))).

(** The characters of a string: a surrogate that stands alone is written
    as an escape, the rest character by character. *)
Fixpoint write_chars (s : string) (acc : string) : string :=
  match s with
  | EmptyString => acc
  | String c r =>
      match lone_surrogate s, r with
      | Some u, String _ (String _ r3) => write_unicode_escape u (write_chars r3 acc)
      | _, _ => write_char c (write_chars r acc)
      end
  end.

Definition write_string (s : string) (acc : string) : string :=
  String dquote (write_chars s (String dquote acc)).

(** The elements after the first, each behind a comma, then the closing
    bracket. *)
Definition write_tail {A : Type} (w : A → string → string) (close : ascii)
  : list A → string → string :=
  fix tail (l : list A) (acc : string) : string :=
    match l with
    | [] => String close acc
    | x :: l' => String "," (w x (tail l' acc))
    end.

(** [write v acc] is the text of [v] followed by [acc]. *)
Fixpoint write (v : JSValue) (acc : string) : string :=
  match v with
  | JNull => "null" ++ acc
  | JBool true => "true" ++ acc
  | JBool false => "false" ++ acc
  | JNumber z => write_number z acc
  | JFloat f => write_float f acc
  | JString s => write_string s acc
  | JArray vs =>
      String "["
        (match vs with
         | [] => String "]" acc
         | v0 :: vs' => write v0 (write_tail write "]" vs' acc)
         end)
  | JObject ps =>
      String "{"
        (match ps with
         | [] => String "}" acc
         | (k0, v0) :: ps' =>
             write_string k0 (String ":" (write v0
               (write_tail
                  (fun '(k, x) a => write_string k (String ":" (write x a)))
                  "}" ps' acc)))
         end)
  end.

Definition stringify (v : JSValue) : string := write v EmptyString.

(** ** For the proofs: what comes next in a text *)

(** The next character, if there is one, is not a [p]. *)
Definition next_is_not (p : ascii → bool) (s : string) : bool :=
  match s with
  | EmptyString => true
  | String c _ => negb (p c)
  end.

Definition is_exponent_mark (c : ascii) : bool := Ascii.eqb c "e" || Ascii.eqb c "E".

(** What may follow a value: nothing, white space, a comma or a closing
    bracket. *)
Definition value_end (s : string) : bool :=
  match s with
  | EmptyString => true
  | String c _ => is_ws c || Ascii.eqb c "," || Ascii.eqb c "]" || Ascii.eqb c "}"
  end.

End JSON.
Import JSON.

(* ===================================================================== *)
(** * services/geminiService.ts *)
(* ===================================================================== *)

(** ** The request and the reply of [ai.models.generateContent] *)

(** [Schema] of the SDK, as far as [reportSchema] uses it. *)
#[local] Unset Elimination Schemes.
Inductive Schema : Type :=
| SInteger (description : option string)
| SString (enum : option (list string)) (description : option string)
| SBoolean (description : option string)
| SArray (items : Schema)
| SObject (properties : list (string * Schema)) (required : list string).
#[local] Set Elimination Schemes.

Record Blob : Type := { data : option string; mimeType : option string }.

Record Part : Type := { text : option string; inlineData : option Blob }.

Record Content : Type := { parts : option (list Part) }.

Record Candidate : Type := { content : option Content }.

(** [response.text] is an accessor of the SDK; its result is a field here. *)
Record GenerateContentResponse : Type := {
  response_text : option string;
  candidates : option (list Candidate)
}.

Inductive ImageSize : Type := Size1K | Size2K | Size4K.

Record ImageConfig : Type := { imageSize : ImageSize; aspectRatio : string }.

Record GenerateContentConfig : Type := {
  responseMimeType : option string;
  responseSchema : option Schema;
  temperature : option Q;
  imageConfig : option ImageConfig
}.

Record GenerateContentParameters : Type := {
  model : string;
  contents : list Part;
  config : GenerateContentConfig
}.

Definition inlineData_part (d mime : string) : Part :=
  {| text := None; inlineData := Some {| data := Some d; mimeType := Some mime |} |}.

Definition text_part (t : string) : Part :=
  {| text := Some t; inlineData := None |}.

Definition no_config : GenerateContentConfig :=
  {| responseMimeType := None; responseSchema := None;
     temperature := None; imageConfig := None |}.

(** ** reportSchema *)

Definition reportSchema : Schema :=
  SObject
    [ ("overallScore",
        SInteger (Some "A score from 0 to 100 indicating print readiness."));
      ("summary",
        SString None (Some "A concise executive summary of the preflight findings."));
      ("finalVerdict",
        SString (Some ["READY_FOR_PRINT"; "NEEDS_REVIEW"; "DO_NOT_PRINT"])
                (Some "The final recommendation."));
      ("specs",
        SObject
          [ ("pageCount", SInteger None);
            ("detectedDimensions",
              SString None (Some "Estimated physical dimensions (e.g., 8.5x11 in, A4, 3.5x2 in)."));
            ("colorProfileEstimate",
              SString None (Some "e.g., CMYK, RGB Detected, Grayscale, Spot Colors."));
            ("hasCropMarks",
              SBoolean (Some "True if crop marks/printer marks are visible.")) ]
          ["pageCount"; "detectedDimensions"; "colorProfileEstimate"; "hasCropMarks"]);
      ("checks",
        SArray
          (SObject
             [ ("category",
                 SString (Some ["LAYOUT"; "TYPOGRAPHY"; "IMAGERY"; "CONTENT"; "COLOR"]) None);
               ("status", SString (Some ["PASS"; "WARN"; "FAIL"]) None);
               ("title", SString None (Some "Short title of the check."));
               ("description", SString None (Some "Detailed explanation of the finding."));
               ("location",
                 SString None (Some "Text description of location (e.g. 'Page 1 Top Right')."));
               ("visualZone",
                 SString
                   (Some ["TOP_LEFT"; "TOP_CENTER"; "TOP_RIGHT"; "MIDDLE_LEFT"; "CENTER";
                          "MIDDLE_RIGHT"; "BOTTOM_LEFT"; "BOTTOM_CENTER"; "BOTTOM_RIGHT";
                          "FULL_PAGE"])
                   (Some "The approximate visual region on the page where this issue is located.")) ]
             ["category"; "status"; "title"; "description"])) ]
    ["overallScore"; "summary"; "finalVerdict"; "specs"; "checks"].

(** The [required] list of an object schema. *)
Definition required_of (sch : Schema) : list string :=
  match sch with
  | SObject _ required => required
  | _ => []
  end.

(** The schema of a property of an object schema, and of the items of an
    array schema. *)
Definition property_schema (k : string) (sch : Schema) : option Schema :=
  match sch with
  | SObject props _ =>
      (fix find (l : list (string * Schema)) : option Schema :=
         match l with
         | [] => None
         | (k', s) :: l' => if String.eqb k k' then Some s else find l'
         end) props
  | _ => None
  end.

Definition items_schema (sch : Schema) : option Schema :=
  match sch with
  | SArray items => Some items
  | _ => None
  end.

(** The schema of one entry of [checks]. *)
Definition check_schema : option Schema :=
  match property_schema "checks" reportSchema with
  | Some sch => items_schema sch
  | None => None
  end.

(** What the remote service is asked to enforce: [v] has the shape [sch]
    describes.  The client never evaluates this. *)
Fixpoint conforms (sch : Schema) (v : JSValue) {struct sch} : bool :=
  match sch, v with
  | SInteger _, JNumber _ => true
  | SString enum _, JString s =>
      match enum with
      | Some allowed => existsb (String.eqb s) allowed
      | None => true
      end
  | SBoolean _, JBool _ => true
  | SArray items, JArray vs => forallb (conforms items) vs
  | SObject props required, JObject ps =>
      forallb (fun k => bool_decide (is_Some (lookup_property k ps))) required
      && (fix each (l : list (string * Schema)) : bool :=
            match l with
            | [] => true
            | (k, sch') :: l' =>
                match lookup_property k ps with
                | Some x => conforms sch' x
                | None => true
                end && each l'
            end) props
  | _, _ => false
  end.

(** A required top-level field of the report is absent from [v]. *)
Definition missing_required_field (v : JSValue) : Prop :=
  ∃ k, In k (required_of reportSchema) ∧ get k v = None.

Section GeminiService.

(** The remote endpoint: how the promise of [generateContent] settles for a
    request. *)
Variable generateContent : GenerateContentParameters → Promise GenerateContentResponse.

(** [JSON.parse], and the type of what it returns. *)
Variable Value : Type.
Variable JSON_parse : string → JSError + Value.

(** The fixed instruction text sent with the document. *)
Variable PREFLIGHT_INSTRUCTIONS : string.

(** The argument of [generateContent] in [analyzePdf]. *)
Definition analyzePdf_request (base64Pdf : string) : GenerateContentParameters :=
  let modelId := "gemini-2.5-flash" in
  {| model := modelId;
     contents := [ inlineData_part base64Pdf "application/pdf";
                   text_part PREFLIGHT_INSTRUCTIONS ];
     config := {| responseMimeType := Some "application/json";
                  responseSchema := Some reportSchema;
                  temperature := Some 0%Q;
                  imageConfig := None |} |}.

Definition analyzePdf (base64Pdf : string) : Async Value :=
  try_catch
    (response ← await (generateContent (analyzePdf_request base64Pdf));
     let text := response_text response in
     if negb (truthy text) then
       throw (Error "No response text received from Gemini.")
     else
       call (JSON_parse (to_string text)))
    (fun error =>
       _ ← console_error "Gemini Analysis Failed:" error;
       throw (Error "Failed to analyze the PDF. Please try again.")).

(** [response.candidates?.[0]?.content?.parts] *)
Definition first_candidate_parts (response : GenerateContentResponse) : option (list Part) :=
  match candidates response with
  | Some (c :: _) =>
      match content c with
      | Some ct => parts ct
      | None => None
      end
  | _ => None
  end.

(** [for (const part of parts) if (part.inlineData) return `data:image/png;base64,${part.inlineData.data}`]:
    [Some] is the value returned from inside the loop, [None] is falling
    out of it. *)
Fixpoint first_inline_image (ps : list Part) : option string :=
  match ps with
  | [] => None
  | part :: rest =>
      match inlineData part with
      | Some blob => Some ("data:image/png;base64," ++ to_string (data blob))
      | None => first_inline_image rest
      end
  end.

Definition generateImage_request (prompt : string) (size : ImageSize)
  : GenerateContentParameters :=
  {| model := "gemini-3-pro-image-preview";
     contents := [ text_part prompt ];
     config := {| responseMimeType := None; responseSchema := None;
                  temperature := None;
                  imageConfig := Some {| imageSize := size; aspectRatio := "1:1" |} |} |}.

Definition generateImage (prompt : string) (size : ImageSize) : Async string :=
  try_catch
    (response ← await (generateContent (generateImage_request prompt size));
     match first_candidate_parts response with
     | Some ps =>
         match first_inline_image ps with
         | Some uri => mret uri
         | None => throw (Error "No image generated in response.")
         end
     | None => throw (Error "No image generated in response.")
     end)
    (fun error =>
       _ ← console_error "Image Generation Failed:" error;
       throw error).

Definition editImage_request (base64Image mimeType prompt : string)
  : GenerateContentParameters :=
  {| model := "gemini-2.5-flash-image";
     contents := [ inlineData_part base64Image mimeType; text_part prompt ];
     config := no_config |}.

Definition editImage (base64Image mimeType prompt : string) : Async string :=
  try_catch
    (response ← await (generateContent (editImage_request base64Image mimeType prompt));
     match first_candidate_parts response with
     | Some ps =>
         match first_inline_image ps with
         | Some uri => mret uri
         | None => throw (Error "No edited image generated in response.")
         end
     | None => throw (Error "No edited image generated in response.")
     end)
    (fun error =>
       _ ← console_error "Image Editing Failed:" error;
       throw error).

End GeminiService.

(* ===================================================================== *)
(** * components/FileUpload.tsx *)
(* ===================================================================== *)

(** A browser [File]: its MIME type and its size in bytes. *)
Record File : Type := { file_name : string; file_type : string; file_size : Z }.

Module FileUpload.

(** [useState] of the component. *)
Record State : Type := { isDragging : bool; error : option string }.

Definition initial : State := {| isDragging := false; error := None |}.

Definition setError (e : option string) (st : State) : State :=
  {| isDragging := isDragging st; error := e |}.

Definition setIsDragging (b : bool) (st : State) : State :=
  {| isDragging := b; error := error st |}.

(** A handler returns the next state and the calls it made of the
    [onFileSelect] prop, in order. *)
Definition Handler : Type := State → State * list File.

Definition validateAndUpload (file : File) : Handler := fun st =>
  if negb (String.eqb (file_type file) "application/pdf") then
    (setError (Some "Please upload a PDF file.") st, [])
  else if 20 * 1024 * 1024 <? file_size file then
    (setError (Some "File size exceeds 20MB limit.") st, [])
  else
    (st, [file]).

Definition handleDragOver : Handler := fun st => (setIsDragging true st, []).

Definition handleDragLeave : Handler := fun st => (setIsDragging false st, []).

(** [e.dataTransfer.files] / [e.target.files] as a list. *)
Definition handleDrop (files : list File) : Handler := fun st =>
  let st := setIsDragging false st in
  let st := setError None st in
  match files with
  | f :: _ => validateAndUpload f st
  | [] => (st, [])
  end.

Definition handleFileInput (files : list File) : Handler := fun st =>
  let st := setError None st in
  match files with
  | f :: _ => validateAndUpload f st
  | [] => (st, [])
  end.

(** [{error && <div>...{error}</div>}]: the message on screen. *)
Definition shown_message (st : State) : option string :=
  if truthy (error st) then error st else None.

End FileUpload.

(* ===================================================================== *)
(** * components/ReportDashboard.tsx *)
(* ===================================================================== *)

Module ReportDashboard.

(** [useState] of the component, without the canvas. [pdfDoc] is whether the
    preview document has loaded. *)
Record State : Type := {
  activeZone : option string;
  activeItemIndex : option string;
  pdfDoc : bool
}.

Definition checksByStatus (report : PreflightReport) (s : CheckStatus) : list CheckItem :=
  match s with
  | FAIL => filter (fun c => status c = FAIL) (checks report)
  | WARN => filter (fun c => status c = WARN) (checks report)
  | PASS => filter (fun c => status c = PASS) (checks report)
  end.

Definition base : string :=
  "absolute border-2 border-red-500 bg-red-500/20 transition-all duration-300 z-20 box-border shadow-[0_0_15px_rgba(239,68,68,0.5)]".

Definition getZoneStyles (zone : string) : string :=
  if String.eqb zone "TOP_LEFT" then base ++ " top-0 left-0 w-1/3 h-1/3 rounded-tl-lg"
  else if String.eqb zone "TOP_CENTER" then base ++ " top-0 left-1/3 w-1/3 h-1/3"
  else if String.eqb zone "TOP_RIGHT" then base ++ " top-0 right-0 w-1/3 h-1/3 rounded-tr-lg"
  else if String.eqb zone "MIDDLE_LEFT" then base ++ " top-1/3 left-0 w-1/3 h-1/3"
  else if String.eqb zone "CENTER" then base ++ " top-1/3 left-1/3 w-1/3 h-1/3"
  else if String.eqb zone "MIDDLE_RIGHT" then base ++ " top-1/3 right-0 w-1/3 h-1/3"
  else if String.eqb zone "BOTTOM_LEFT" then base ++ " bottom-0 left-0 w-1/3 h-1/3 rounded-bl-lg"
  else if String.eqb zone "BOTTOM_CENTER" then base ++ " bottom-0 left-1/3 w-1/3 h-1/3"
  else if String.eqb zone "BOTTOM_RIGHT" then base ++ " bottom-0 right-0 w-1/3 h-1/3 rounded-br-lg"
  else if String.eqb zone "FULL_PAGE" then base ++ " inset-0"
  else "hidden".

(** [onMouseEnter] of a check item; [uniqueId] is [`${sectionKey}-${index}`]. *)
Definition onMouseEnter (item : CheckItem) (uniqueId : string) (st : State) : State :=
  {| activeZone := Some (or_else (visualZone item) "FULL_PAGE");
     activeItemIndex := Some uniqueId;
     pdfDoc := pdfDoc st |}.

Definition onMouseLeave (st : State) : State :=
  {| activeZone := None; activeItemIndex := None; pdfDoc := pdfDoc st |}.

(** The overlay layer: [{pdfDoc && <div> {activeZone && <div className={`${getZoneStyles(activeZone)} animate-pulse`}>} </div>}].
    [Some cls] is the highlight element with its class attribute. *)
Definition overlay (st : State) : option string :=
  if pdfDoc st then
    match activeZone st with
    | Some zone =>
        if String.eqb zone "" then None
        else Some (getZoneStyles zone ++ " animate-pulse")
    | None => None
    end
  else None.

End ReportDashboard.

(** ** The sidebar *)

Module Sidebar.

(** [expandedSections], a JS object keyed by status. *)
Definition initial_sections : gmap string bool :=
  {[ "FAIL" := true; "WARN" := true; "PASS" := false ]}.

(** [expandedSections[status]] as a condition: a missing key is falsy. *)
Definition isExpanded (sections : gmap string bool) (status : string) : bool :=
  match sections !! status with
  | Some b => b
  | None => false
  end.

(** [prev => ({...prev, [status]: !prev[status]})] *)
Definition toggleSection (status : string) (prev : gmap string bool) : gmap string bool :=
  <[ status := negb (isExpanded prev status) ]> prev.

(** [`${n}`] for an array index. *)
Definition index_to_string (n : nat) : string := JSON.write_nat (Z.of_nat n) EmptyString.

(** [`${sectionKey}-${index}`] *)
Definition uniqueId (sectionKey : string) (index : nat) : string :=
  sectionKey ++ "-" ++ index_to_string index.

(** What [renderCheckItem] draws, as far as the highlight goes: the key of
    the row, whether it is drawn as the active one, and the check. *)
Record Row : Type := { key : string; isActive : bool; item : CheckItem }.

Definition renderCheckItem (activeItemIndex : option string)
    (it : CheckItem) (index : nat) (sectionKey : string) : Row :=
  let uniqueId := uniqueId sectionKey index in
  {| key := uniqueId;
     isActive := bool_decide (activeItemIndex = Some uniqueId);
     item := it |}.

(** [renderSection]: [None] is [null]; otherwise the rows under the header,
    none when the section is collapsed. *)
Definition renderSection (report : PreflightReport) (sections : gmap string bool)
    (activeItemIndex : option string) (status : CheckStatus) (count : nat)
  : option (list Row) :=
  if (count =? 0)%nat then None
  else
    Some (if isExpanded sections (CheckStatus_value status) then
            imap (fun idx it =>
                    renderCheckItem activeItemIndex it idx (CheckStatus_value status))
                 (ReportDashboard.checksByStatus report status)
          else []).

(** The three sections of the panel, in the order they are written. *)
Definition panel (report : PreflightReport) (sections : gmap string bool)
    (activeItemIndex : option string) : list (option (list Row)) :=
  [ renderSection report sections activeItemIndex FAIL
      (length (ReportDashboard.checksByStatus report FAIL));
    renderSection report sections activeItemIndex WARN
      (length (ReportDashboard.checksByStatus report WARN));
    renderSection report sections activeItemIndex PASS
      (length (ReportDashboard.checksByStatus report PASS)) ].

(** All rows on screen. *)
Definition rows_on_screen (report : PreflightReport) (sections : gmap string bool)
    (activeItemIndex : option string) : list Row :=
  concat (map (fun s => match s with Some rows => rows | None => [] end)
              (panel report sections activeItemIndex)).

End Sidebar.

(** ** The render function on the reply as it came *)

(** What the render function of the dashboard does with the reply it is
    given.  The reply is whatever [JSON.parse] returned; the type
    [PreflightReport] is erased at run time.  An exception thrown while
    rendering is caught nowhere: [App] has no error boundary, so React takes
    the whole page off the screen. *)
Module Dashboard.

(** What React accepts as a child, as in [{item.title}]: a string or a
    number is text, [null], [undefined] and the booleans draw nothing, an
    array stands for its elements, a plain object is refused with an
    exception. *)
Fixpoint valid_child (v : JSValue) : bool :=
  match v with
  | JObject _ => false
  | JArray vs => forallb valid_child vs
  | _ => true
  end.

(** [{o.k}]; [None] is [undefined]. *)
Definition child (v : option JSValue) : bool :=
  match v with
  | Some v => valid_child v
  | None => true
  end.

(** A value as a condition; [undefined] is falsy. *)
Definition truthy_property (v : option JSValue) : bool :=
  match v with
  | Some v => truthy_value v
  | None => false
  end.

Definition is_null (v : JSValue) : bool :=
  match v with JNull => true | _ => false end.

(** [c.status === status] *)
Definition has_status (status : string) (c : JSValue) : bool :=
  match JSON.get "status" c with
  | Some (JString s) => String.eqb s status
  | _ => false
  end.

(** [report.checks], as far as [report.checks.filter(c => c.status === ...)]
    returns: [checks] has to be an array, the only value of a reply with a
    [filter] method, and none of its elements may be [null], of which
    [c.status] cannot be read. *)
Definition checks (report : JSValue) : option (list JSValue) :=
  match JSON.get "checks" report with
  | Some (JArray cs) => if existsb is_null cs then None else Some cs
  | _ => None
  end.

(** [checksByStatus[status]] *)
Definition checksByStatus (cs : list JSValue) (status : string) : list JSValue :=
  filter (fun c => has_status status c = true) cs.

(** [renderCheckItem] returns an element that React can draw: the children
    [{item.title}], [{item.category}], [{item.description}] and, under
    [(item.location || item.visualZone) && ...], [{item.location || "General Area"}]. *)
Definition renderCheckItem_draws (item : JSValue) : bool :=
  child (JSON.get "title" item)
  && child (JSON.get "category" item)
  && child (JSON.get "description" item)
  && (if truthy_property (JSON.get "location" item)
      then child (JSON.get "location" item)
      else true).

(** [renderSection]: the items are rendered when the section is open. *)
Definition renderSection_draws (sections : gmap string bool) (cs : list JSValue)
    (status : string) : bool :=
  if Sidebar.isExpanded sections status
  then forallb renderCheckItem_draws (checksByStatus cs status)
  else true.

(** The top bar: [report.finalVerdict.replace(/_/g, ' ')] needs a string,
    [report.specs.detectedDimensions] and [report.specs.colorProfileEstimate]
    need [specs] to be neither [undefined] nor [null]. *)
Definition top_bar_draws (report : JSValue) : bool :=
  match JSON.get "finalVerdict" report with
  | Some (JString _) =>
      match JSON.get "specs" report with
      | None | Some JNull => false
      | Some specs =>
          child (JSON.get "detectedDimensions" specs)
          && child (JSON.get "colorProfileEstimate" specs)
      end
      && child (JSON.get "overallScore" report)
  | _ => false
  end.

(** The render function returns and React draws what it returned. *)
Definition draws (sections : gmap string bool) (report : JSValue) : bool :=
  match checks report with
  | Some cs =>
      top_bar_draws report
      && renderSection_draws sections cs "FAIL"
      && renderSection_draws sections cs "WARN"
      && renderSection_draws sections cs "PASS"
      && child (JSON.get "summary" report)
  | None => false
  end.

End Dashboard.

(* ===================================================================== *)
(** * Layout: what the utility classes of the overlay mean *)
(* ===================================================================== *)

(** The highlight element sits in a layer that covers the page canvas.  Its
    position is given by utility classes; lengths are fractions of the
    page, the origin is the top left corner. *)

Module Layout.

Record Rect : Type := { x : Q; y : Q; w : Q; h : Q }.

Record Style : Type := {
  absolute : bool;
  hidden : bool;
  top : option Q;
  left : option Q;
  right : option Q;
  bottom : option Q;
  width : option Q;
  height : option Q
}.

Definition unstyled : Style :=
  {| absolute := false; hidden := false; top := None; left := None;
     right := None; bottom := None; width := None; height := None |}.

(** One utility class; classes without an effect on the box are skipped. *)
Definition utility (cls : string) (s : Style) : Style :=
  let third := (1 # 3)%Q in
  if String.eqb cls "absolute" then
    {| absolute := true; hidden := hidden s; top := top s; left := left s;
       right := right s; bottom := bottom s; width := width s; height := height s |}
  else if String.eqb cls "hidden" then
    {| absolute := absolute s; hidden := true; top := top s; left := left s;
       right := right s; bottom := bottom s; width := width s; height := height s |}
  else if String.eqb cls "inset-0" then
    {| absolute := absolute s; hidden := hidden s; top := Some 0%Q; left := Some 0%Q;
       right := Some 0%Q; bottom := Some 0%Q; width := width s; height := height s |}
  else if String.eqb cls "top-0" then
    {| absolute := absolute s; hidden := hidden s; top := Some 0%Q; left := left s;
       right := right s; bottom := bottom s; width := width s; height := height s |}
  else if String.eqb cls "top-1/3" then
    {| absolute := absolute s; hidden := hidden s; top := Some third; left := left s;
       right := right s; bottom := bottom s; width := width s; height := height s |}
  else if String.eqb cls "bottom-0" then
    {| absolute := absolute s; hidden := hidden s; top := top s; left := left s;
       right := right s; bottom := Some 0%Q; width := width s; height := height s |}
  else if String.eqb cls "left-0" then
    {| absolute := absolute s; hidden := hidden s; top := top s; left := Some 0%Q;
       right := right s; bottom := bottom s; width := width s; height := height s |}
  else if String.eqb cls "left-1/3" then
    {| absolute := absolute s; hidden := hidden s; top := top s; left := Some third;
       right := right s; bottom := bottom s; width := width s; height := height s |}
  else if String.eqb cls "right-0" then
    {| absolute := absolute s; hidden := hidden s; top := top s; left := left s;
       right := Some 0%Q; bottom := bottom s; width := width s; height := height s |}
  else if String.eqb cls "w-1/3" then
    {| absolute := absolute s; hidden := hidden s; top := top s; left := left s;
       right := right s; bottom := bottom s; width := Some third; height := height s |}
  else if String.eqb cls "h-1/3" then
    {| absolute := absolute s; hidden := hidden s; top := top s; left := left s;
       right := right s; bottom := bottom s; width := width s; height := Some third |}
  else s.

(** The class attribute split at spaces. *)
Fixpoint class_list (attr : string) (word : string) : list string :=
  match attr with
  | EmptyString => if String.eqb word "" then [] else [word]
  | String c r =>
      if Ascii.eqb c " " then
        if String.eqb word "" then class_list r "" else word :: class_list r ""
      else class_list r (word ++ String c "")
  end.

Definition style_of (attr : string) : Style :=
  fold_left (fun s cls => utility cls s) (class_list attr "") unstyled.

(** Extent along one axis of an absolutely positioned box in a containing
    block of length 1: [(offset, length)] from the start offset, the end
    offset and the size, when they determine it. *)
Definition extent (start stop size : option Q) : option (Q * Q) :=
  match start, size, stop with
  | Some a, Some l, _ => Some (Qred a, Qred l)
  | Some a, None, Some b => Some (Qred a, Qred (1 - a - b))
  | None, Some l, Some b => Some (Qred (1 - b - l), Qred l)
  | _, _, _ => None
  end.

(** The rectangle an element with this class attribute covers; [None] when
    it is not displayed. *)
Definition rect_of (attr : string) : option Rect :=
  let s := style_of attr in
  if hidden s then None
  else if negb (absolute s) then None
  else
    match extent (left s) (right s) (width s), extent (top s) (bottom s) (height s) with
    | Some (x0, w0), Some (y0, h0) => Some {| x := x0; y := y0; w := w0; h := h0 |}
    | _, _ => None
    end.

(** Cell [(row, col)] of the 3x3 grid, rows and columns counted from 0 at
    the top left. *)
Definition cell (row col : Z) : Rect :=
  {| x := Qred (col # 3); y := Qred (row # 3); w := 1 # 3; h := 1 # 3 |}.

Definition full_page : Rect := {| x := 0; y := 0; w := 1; h := 1 |}.

Definition inside_page (r : Rect) : Prop :=
  (0 <= x r ∧ 0 <= y r ∧ 0 <= w r ∧ 0 <= h r ∧ x r + w r <= 1 ∧ y r + h r <= 1)%Q.

(** Two rectangles share no interior point: they meet at most along an
    edge or a corner. *)
Definition interiors_disjoint (a b : Rect) : Prop :=
  (x a + w a <= x b ∨ x b + w b <= x a ∨ y a + h a <= y b ∨ y b + h b <= y a)%Q.

(** The same two tests, computed. *)
Definition inside_pageb (r : Rect) : bool :=
  Qle_bool 0 (x r) && Qle_bool 0 (y r) && Qle_bool 0 (w r) && Qle_bool 0 (h r)
  && Qle_bool (x r + w r) 1 && Qle_bool (y r + h r) 1.

Definition interiors_disjointb (a b : Rect) : bool :=
  Qle_bool (x a + w a) (x b) || Qle_bool (x b + w b) (x a)
  || Qle_bool (y a + h a) (y b) || Qle_bool (y b + h b) (y a).

End Layout.

(** The rectangle shown on the page, if any. *)
Definition shown_rect (st : ReportDashboard.State) : option Layout.Rect :=
  match ReportDashboard.overlay st with
  | Some attr => Layout.rect_of attr
  | None => None
  end.

(** The Zone Mapper: zone name to rectangle. *)
Definition zone_rect (zone : string) : option Layout.Rect :=
  Layout.rect_of (ReportDashboard.getZoneStyles zone).


(* ===================================================================== *)
(** * components/ImageGenerator.tsx *)
(* ===================================================================== *)

Module ImageGenerator.

Record State : Type := {
  prompt : string;
  size : ImageSize;
  isGenerating : bool;
  generatedImage : option string;
  error : option string
}.

Definition initial : State :=
  {| prompt := ""; size := Size1K; isGenerating := false;
     generatedImage := None; error := None |}.

Definition setPrompt (p : string) (st : State) : State :=
  {| prompt := p; size := size st; isGenerating := isGenerating st;
     generatedImage := generatedImage st; error := error st |}.

Definition setSize (z : ImageSize) (st : State) : State :=
  {| prompt := prompt st; size := z; isGenerating := isGenerating st;
     generatedImage := generatedImage st; error := error st |}.

(** [disabled={isGenerating || !prompt.trim()}] *)
Definition button_disabled (st : State) : bool :=
  isGenerating st || blank (prompt st).

(** [handleGenerate] up to its [await]: the next state, and the arguments
    of the call of [generateImage] it starts, if it starts one. *)
Definition handleGenerate (st : State) : State * option (string * ImageSize) :=
  if blank (prompt st) then (st, None)
  else
    ({| prompt := prompt st; size := size st; isGenerating := true;
        generatedImage := None; error := None |},
     Some (prompt st, size st)).

(** [handleGenerate] after its [await]: [try] continues or [catch] runs,
    then [finally]. *)
Definition handleGenerate_resume (outcome : Promise string) (st : State) : State :=
  match outcome with
  | Fulfilled result =>
      {| prompt := prompt st; size := size st; isGenerating := false;
         generatedImage := Some result; error := error st |}
  | Rejected err =>
      {| prompt := prompt st; size := size st; isGenerating := false;
         generatedImage := generatedImage st;
         error := Some (or_else (Some (message err)) "Failed to generate image") |}
  end.

End ImageGenerator.

(* ===================================================================== *)
(** * components/ImageEditor.tsx *)
(* ===================================================================== *)

Module ImageEditor.

(** [previewUrl] is the object URL of a file; the file stands for it. *)
Record State : Type := {
  originalFile : option File;
  previewUrl : option File;
  editedImage : option string;
  prompt : string;
  isProcessing : bool;
  error : option string
}.

Definition initial : State :=
  {| originalFile := None; previewUrl := None; editedImage := None;
     prompt := ""; isProcessing := false; error := None |}.

Definition setPrompt (p : string) (st : State) : State :=
  {| originalFile := originalFile st; previewUrl := previewUrl st;
     editedImage := editedImage st; prompt := p;
     isProcessing := isProcessing st; error := error st |}.

Definition handleFileSelect (files : list File) (st : State) : State :=
  match files with
  | file :: _ =>
      if negb (String.prefix "image/" (file_type file)) then
        {| originalFile := originalFile st; previewUrl := previewUrl st;
           editedImage := editedImage st; prompt := prompt st;
           isProcessing := isProcessing st;
           error := Some "Please upload an image file (PNG, JPG)." |}
      else
        {| originalFile := Some file; previewUrl := Some file;
           editedImage := None; prompt := prompt st;
           isProcessing := isProcessing st; error := None |}
  | [] => st
  end.

(** [disabled={isProcessing || !prompt.trim()}] *)
Definition button_disabled (st : State) : bool :=
  isProcessing st || blank (prompt st).

(** [handleEdit] up to its first [await]: the next state, and the file, its
    type and the instruction of the call of [editImage] it leads to. *)
Definition handleEdit (st : State) : State * option (File * string * string) :=
  match originalFile st with
  | Some file =>
      if blank (prompt st) then (st, None)
      else
        ({| originalFile := originalFile st; previewUrl := previewUrl st;
            editedImage := editedImage st; prompt := prompt st;
            isProcessing := true; error := None |},
         Some (file, file_type file, prompt st))
  | None => (st, None)
  end.

Definition handleEdit_resume (outcome : Promise string) (st : State) : State :=
  match outcome with
  | Fulfilled result =>
      {| originalFile := originalFile st; previewUrl := previewUrl st;
         editedImage := Some result; prompt := prompt st;
         isProcessing := false; error := error st |}
  | Rejected err =>
      {| originalFile := originalFile st; previewUrl := previewUrl st;
         editedImage := editedImage st; prompt := prompt st;
         isProcessing := false;
         error := Some (or_else (Some (message err)) "Failed to edit image") |}
  end.

Definition reset (st : State) : State :=
  {| originalFile := None; previewUrl := None; editedImage := None;
     prompt := ""; isProcessing := isProcessing st; error := None |}.

End ImageEditor.

(* ===================================================================== *)
(** * App.tsx: the component tree and the calls in flight *)
(* ===================================================================== *)

Module App.

Inductive Tab : Type := PREFLIGHT | GENERATOR | EDITOR.

#[global] Instance Tab_eq_dec : EqDecision Tab.
Proof. solve_decision. Defined.

(** [useState] of [App].  [fileBase64] is written and never read; it is
    left out. *)
Record State : Type := {
  activeTab : Tab;
  hasApiKey : bool;
  isCheckingKey : bool;
  file : option File;
  isAnalyzing : bool;
  report : option JSValue;
  error : option string
}.

Definition initial : State :=
  {| activeTab := PREFLIGHT; hasApiKey := false; isCheckingKey := true;
     file := None; isAnalyzing := false; report := None; error := None |}.

(** [report] as a condition: [null] and a falsy reply are both falsy. *)
Definition has_report (st : State) : bool :=
  match report st with
  | Some v => truthy_value v
  | None => false
  end.

Definition has_file (st : State) : bool :=
  match file st with Some _ => true | None => false end.

(** Which of the four [return]s of the render function is taken. *)
Inductive Screen : Type := Initializing | KeyGate | Dashboard | Main.

Definition screen (st : State) : Screen :=
  if isCheckingKey st then Initializing
  else if negb (hasApiKey st) then KeyGate
  else if has_report st && has_file st && negb (isAnalyzing st)
          && bool_decide (activeTab st = PREFLIGHT) then Dashboard
  else Main.

Definition on_main (st : State) : bool :=
  match screen st with Main => true | _ => false end.

(** [{!file && !report && <FileUpload ... isLoading={false} />}] *)
Definition renders_FileUpload (st : State) : bool :=
  on_main st && bool_decide (activeTab st = PREFLIGHT)
  && negb (has_file st) && negb (has_report st).

Definition renders_ImageGenerator (st : State) : bool :=
  on_main st && bool_decide (activeTab st = GENERATOR).

Definition renders_ImageEditor (st : State) : bool :=
  on_main st && bool_decide (activeTab st = EDITOR).

(** The dashboard that [App] returns is drawn when it mounts, with the
    sections as [useState] sets them. *)
Definition dashboard_draws (st : State) : bool :=
  match report st with
  | Some r => Dashboard.draws Sidebar.initial_sections r
  | None => false
  end.

(** The Try Again button of the error box, or Back on the dashboard, which
    is there when the dashboard is drawn. *)
Definition renders_reset (st : State) : bool :=
  match screen st with
  | Dashboard => dashboard_draws st
  | Main =>
      bool_decide (activeTab st = PREFLIGHT)
      && truthy (error st) && negb (isAnalyzing st) && negb (has_report st)
  | _ => false
  end.

Definition setActiveTab (t : Tab) (st : State) : State :=
  {| activeTab := t; hasApiKey := hasApiKey st; isCheckingKey := isCheckingKey st;
     file := file st; isAnalyzing := isAnalyzing st; report := report st;
     error := error st |}.

(** [checkApiKey] once its promise has settled: [Some hasKey] is the answer
    (or the fallback [true]), [None] is the [catch] branch. *)
Definition checkApiKey_resume (answer : option bool) (st : State) : State :=
  {| activeTab := activeTab st;
     hasApiKey := match answer with Some b => b | None => hasApiKey st end;
     isCheckingKey := false;
     file := file st; isAnalyzing := isAnalyzing st; report := report st;
     error := error st |}.

Definition handleSelectKey_resume (st : State) : State :=
  {| activeTab := activeTab st; hasApiKey := true; isCheckingKey := isCheckingKey st;
     file := file st; isAnalyzing := isAnalyzing st; report := report st;
     error := error st |}.

(** [handleFileSelect] up to its first [await]. *)
Definition handleFileSelect (selectedFile : File) (st : State) : State :=
  {| activeTab := activeTab st; hasApiKey := hasApiKey st;
     isCheckingKey := isCheckingKey st;
     file := Some selectedFile; isAnalyzing := true; report := None; error := None |}.

(** [handleFileSelect] once [fileToBase64] and [analyzePdf] have settled:
    the rest of [try], or [catch], then [finally]. *)
Definition handleFileSelect_resume (outcome : Promise JSValue) (st : State) : State :=
  match outcome with
  | Fulfilled result =>
      {| activeTab := activeTab st; hasApiKey := hasApiKey st;
         isCheckingKey := isCheckingKey st;
         file := file st; isAnalyzing := false; report := Some result;
         error := error st |}
  | Rejected err =>
      {| activeTab := activeTab st; hasApiKey := hasApiKey st;
         isCheckingKey := isCheckingKey st;
         file := None; isAnalyzing := false; report := report st;
         error := Some (or_else (Some (message err)) "An unexpected error occurred.") |}
  end.

Definition handleReset (st : State) : State :=
  {| activeTab := activeTab st; hasApiKey := hasApiKey st;
     isCheckingKey := isCheckingKey st;
     file := None; isAnalyzing := isAnalyzing st; report := None; error := None |}.

End App.

(* ===================================================================== *)
(** * The page at run time: mounted components, events, calls in flight *)
(* ===================================================================== *)

(** [App] stays mounted.  [FileUpload], [ImageGenerator] and [ImageEditor]
    are mounted while the render function of [App] returns them; a
    component that is rendered again after having been removed starts from
    its initial state.  A call in flight is an [async] handler suspended at
    its [await]; when the promise settles the handler resumes, and its state
    updates reach the component instance that started it if that instance
    is still mounted. *)

Module Page.

Inductive Surface : Type := Preflight | Generation | Editing.

#[global] Instance Surface_eq_dec : EqDecision Surface.
Proof. solve_decision. Defined.

(** A suspended handler: the surface it belongs to and the component
    instance that runs it ([App] is instance 0). *)
Record Call : Type := { surface : Surface; instance : nat }.

#[global] Instance Call_eq_dec : EqDecision Call.
Proof. solve_decision. Defined.

Record State : Type := {
  app : App.State;
  upload : option FileUpload.State;
  generator : option (nat * ImageGenerator.State);
  editor : option (nat * ImageEditor.State);
  mounts : nat;
  in_flight : list Call
}.

Definition initial : State :=
  {| app := App.initial; upload := None; generator := None; editor := None;
     mounts := 1; in_flight := [] |}.

(** Mounting and unmounting after [App] has rendered with state [a]. *)
Definition render (a : App.State) (st : State) : State :=
  let gen_new := App.renders_ImageGenerator a && bool_decide (generator st = None) in
  let ed_new := App.renders_ImageEditor a && bool_decide (editor st = None) in
  let gen_id := mounts st in
  let ed_id := if gen_new then S (mounts st) else mounts st in
  {| app := a;
     upload :=
       if App.renders_FileUpload a then
         match upload st with
         | Some u => Some u
         | None => Some FileUpload.initial
         end
       else None;
     generator :=
       if App.renders_ImageGenerator a then
         match generator st with
         | Some g => Some g
         | None => Some (gen_id, ImageGenerator.initial)
         end
       else None;
     editor :=
       if App.renders_ImageEditor a then
         match editor st with
         | Some e => Some e
         | None => Some (ed_id, ImageEditor.initial)
         end
       else None;
     mounts := if ed_new then S ed_id else ed_id;
     in_flight := in_flight st |}.

Definition with_upload (u : FileUpload.State) (st : State) : State :=
  {| app := app st; upload := Some u; generator := generator st;
     editor := editor st; mounts := mounts st; in_flight := in_flight st |}.

Definition with_generator (g : nat * ImageGenerator.State) (st : State) : State :=
  {| app := app st; upload := upload st; generator := Some g;
     editor := editor st; mounts := mounts st; in_flight := in_flight st |}.

Definition with_editor (e : nat * ImageEditor.State) (st : State) : State :=
  {| app := app st; upload := upload st; generator := generator st;
     editor := Some e; mounts := mounts st; in_flight := in_flight st |}.

Definition start (c : Call) (st : State) : State :=
  {| app := app st; upload := upload st; generator := generator st;
     editor := editor st; mounts := mounts st;
     in_flight := (in_flight st ++ [c])%list |}.

Definition finish (i : nat) (st : State) : State :=
  {| app := app st; upload := upload st; generator := generator st;
     editor := editor st; mounts := mounts st;
     in_flight := delete i (in_flight st) |}.

(** What can happen: the user acts on a control that is on screen and
    enabled, or a promise settles. *)
Inductive Event : Type :=
| KeyChecked (answer : option bool)
| KeySelected
| ClickTab (t : App.Tab)
| DragOver
| DragLeave
| DropFiles (files : list File)
| InputFiles (files : list File)
| ClickReset
| TypePrompt (s : string)
| PickSize (z : ImageSize)
| ClickGenerate
| PickImage (files : list File)
| TypeInstruction (s : string)
| ClickApplyEdit
| ClickEditorReset
| AnalysisSettled (i : nat) (outcome : Promise JSValue)
| ImageSettled (i : nat) (outcome : Promise string).

(** The files [FileUpload] hands to [onFileSelect] each start
    [App.handleFileSelect]. *)
Definition select_files (calls : list File) (st : State) : State :=
  fold_left
    (fun s f =>
       start {| surface := Preflight; instance := 0 |}
             (render (App.handleFileSelect f (app s)) s))
    calls st.

(** One event; [None] when the page offers no such event in this state. *)
Definition step (st : State) (ev : Event) : option State :=
  match ev with
  | KeyChecked answer =>
      if App.isCheckingKey (app st)
      then Some (render (App.checkApiKey_resume answer (app st)) st)
      else None
  | KeySelected =>
      match App.screen (app st) with
      | App.KeyGate => Some (render (App.handleSelectKey_resume (app st)) st)
      | _ => None
      end
  | ClickTab t =>
      if App.on_main (app st)
      then Some (render (App.setActiveTab t (app st)) st)
      else None
  | DragOver =>
      match upload st with
      | Some u =>
          let '(u', calls) := FileUpload.handleDragOver u in
          Some (select_files calls (with_upload u' st))
      | None => None
      end
  | DragLeave =>
      match upload st with
      | Some u =>
          let '(u', calls) := FileUpload.handleDragLeave u in
          Some (select_files calls (with_upload u' st))
      | None => None
      end
  | DropFiles files =>
      match upload st with
      | Some u =>
          let '(u', calls) := FileUpload.handleDrop files u in
          Some (select_files calls (with_upload u' st))
      | None => None
      end
  | InputFiles files =>
      match upload st with
      | Some u =>
          let '(u', calls) := FileUpload.handleFileInput files u in
          Some (select_files calls (with_upload u' st))
      | None => None
      end
  | ClickReset =>
      if App.renders_reset (app st)
      then Some (render (App.handleReset (app st)) st)
      else None
  | TypePrompt s =>
      match generator st with
      | Some (id, g) => Some (with_generator (id, ImageGenerator.setPrompt s g) st)
      | None => None
      end
  | PickSize z =>
      match generator st with
      | Some (id, g) => Some (with_generator (id, ImageGenerator.setSize z g) st)
      | None => None
      end
  | ClickGenerate =>
      match generator st with
      | Some (id, g) =>
          if ImageGenerator.button_disabled g then None
          else
            match ImageGenerator.handleGenerate g with
            | (g', Some _) =>
                Some (start {| surface := Generation; instance := id |}
                            (with_generator (id, g') st))
            | (g', None) => Some (with_generator (id, g') st)
            end
      | None => None
      end
  | PickImage files =>
      match editor st with
      | Some (id, e) =>
          match ImageEditor.originalFile e with
          | None => Some (with_editor (id, ImageEditor.handleFileSelect files e) st)
          | Some _ => None
          end
      | None => None
      end
  | TypeInstruction s =>
      match editor st with
      | Some (id, e) =>
          match ImageEditor.originalFile e with
          | Some _ => Some (with_editor (id, ImageEditor.setPrompt s e) st)
          | None => None
          end
      | None => None
      end
  | ClickApplyEdit =>
      match editor st with
      | Some (id, e) =>
          match ImageEditor.originalFile e with
          | Some _ =>
              if ImageEditor.button_disabled e then None
              else
                match ImageEditor.handleEdit e with
                | (e', Some _) =>
                    Some (start {| surface := Editing; instance := id |}
                                (with_editor (id, e') st))
                | (e', None) => Some (with_editor (id, e') st)
                end
          | None => None
          end
      | None => None
      end
  | ClickEditorReset =>
      match editor st with
      | Some (id, e) =>
          match ImageEditor.originalFile e with
          | Some _ => Some (with_editor (id, ImageEditor.reset e) st)
          | None => None
          end
      | None => None
      end
  | AnalysisSettled i outcome =>
      match in_flight st !! i with
      | Some {| surface := Preflight |} =>
          Some (finish i (render (App.handleFileSelect_resume outcome (app st)) st))
      | _ => None
      end
  | ImageSettled i outcome =>
      match in_flight st !! i with
      | Some {| surface := Generation; instance := id |} =>
          Some (finish i
            match generator st with
            | Some (id', g) =>
                if bool_decide (id' = id)
                then with_generator (id', ImageGenerator.handleGenerate_resume outcome g) st
                else st
            | None => st
            end)
      | Some {| surface := Editing; instance := id |} =>
          Some (finish i
            match editor st with
            | Some (id', e) =>
                if bool_decide (id' = id)
                then with_editor (id', ImageEditor.handleEdit_resume outcome e) st
                else st
            | None => st
            end)
      | _ => None
      end
  end.

Fixpoint run (st : State) (evs : list Event) : option State :=
  match evs with
  | [] => Some st
  | ev :: evs' =>
      match step st ev with
      | Some st' => run st' evs'
      | None => None
      end
  end.

(** The calls of a surface that have not settled yet. *)
Definition outstanding (s : Surface) (st : State) : nat :=
  length (filter (fun c => surface c = s) (in_flight st)).

(** The control that starts a call of the surface is on screen and
    enabled. *)
Definition trigger_enabled (s : Surface) (st : State) : bool :=
  match s with
  | Preflight => bool_decide (is_Some (upload st))
  | Generation =>
      match generator st with
      | Some (_, g) => negb (ImageGenerator.button_disabled g)
      | None => false
      end
  | Editing =>
      match editor st with
      | Some (_, e) =>
          bool_decide (is_Some (ImageEditor.originalFile e))
          && negb (ImageEditor.button_disabled e)
      | None => false
      end
  end.

(** An event by which the user asks for a call. *)
Definition is_trigger (ev : Event) : bool :=
  match ev with
  | DropFiles _ | InputFiles _ | ClickGenerate | ClickApplyEdit => true
  | _ => false
  end.

(** The calls in flight that instance [id] of surface [s] started. *)
Definition calls_of (s : Surface) (id : nat) (st : State) : nat :=
  length (filter (fun c => c = {| surface := s; instance := id |}) (in_flight st)).

(** What holds of every state the page can reach. *)
Record consistent (st : State) : Prop := {
  mounts_positive : (0 < mounts st)%nat;
  upload_rendered :
    is_Some (upload st) → App.renders_FileUpload (app st) = true;
  calls_known :
    Forall (fun c => instance c < mounts st)%nat (in_flight st);
  generator_known :
    ∀ id g, generator st = Some (id, g) → (id < mounts st)%nat;
  editor_known :
    ∀ id e, editor st = Some (id, e) → (id < mounts st)%nat;
  analysis_single :
    (outstanding Preflight st ≤ 1)%nat;
  analysis_busy :
    (1 ≤ outstanding Preflight st)%nat →
    App.isAnalyzing (app st) = true ∧ App.has_file (app st) = true;
  generation_single :
    ∀ id g, generator st = Some (id, g) →
      (calls_of Generation id st ≤ 1)%nat
      ∧ ((1 ≤ calls_of Generation id st)%nat → ImageGenerator.isGenerating g = true);
  editing_single :
    ∀ id e, editor st = Some (id, e) →
      (calls_of Editing id st ≤ 1)%nat
      ∧ ((1 ≤ calls_of Editing id st)%nat → ImageEditor.isProcessing e = true)
}.

(** The tab is left while a generation is running, and opened again. *)
Definition leave_and_return : list Event :=
  [ KeyChecked (Some true); ClickTab App.GENERATOR;
    TypePrompt "a poster"; ClickGenerate;
    ClickTab App.PREFLIGHT; ClickTab App.GENERATOR;
    TypePrompt "a flyer" ].

End Page.


(* ===================================================================== *)
(** * Vocabulary of the specification *)
(* ===================================================================== *)

(** ** Replies *)

(** The parts of one candidate; none when it has no content, or its content
    no parts. *)
Definition candidate_parts (c : Candidate) : list Part :=
  match content c with
  | Some ct =>
      match parts ct with
      | Some ps => ps
      | None => []
      end
  | None => []
  end.

(** The parts of the reply: those of all its candidates, in order. *)
Definition reply_parts (response : GenerateContentResponse) : list Part :=
  match candidates response with
  | Some cs => concat (map candidate_parts cs)
  | None => []
  end.

(** The reply has no candidate, or its first candidate has no part with
    inline data. *)
Definition first_candidate_without_image (response : GenerateContentResponse) : Prop :=
  match candidates response with
  | Some (c :: _) => Forall (fun p => inlineData p = None) (candidate_parts c)
  | _ => True
  end.

Definition has_inlineData (p : Part) : Prop := inlineData p ≠ None.

(** The data URI made from an inline-data part. *)
Definition png_data_uri (p : Part) : option string :=
  match inlineData p with
  | Some blob => Some ("data:image/png;base64," ++ to_string (data blob))
  | None => None
  end.

(** A remote that settles every request the same way. *)
Definition remote_replying (response : GenerateContentResponse)
  : GenerateContentParameters → Promise GenerateContentResponse :=
  fun _ => Fulfilled response.

Definition remote_failing (e : JSError)
  : GenerateContentParameters → Promise GenerateContentResponse :=
  fun _ => Rejected e.

Definition text_reply (t : string) : GenerateContentResponse :=
  {| response_text := Some t; candidates := None |}.

Definition parts_reply (ps : list Part) : GenerateContentResponse :=
  {| response_text := None;
     candidates := Some [ {| content := Some {| parts := Some ps |} |} ] |}.

(** ** Error kinds *)

(** The specification names four kinds of error; the adapter throws plain
    [Error]s, told apart by their message. *)
Definition NoResultProduced (e : JSError) : Prop :=
  e = Error "No image generated in response."
  ∨ e = Error "No edited image generated in response.".

Definition analysis_failed : JSError :=
  Error "Failed to analyze the PDF. Please try again.".

(** An adapter turns every failure into one fixed message. *)
Definition one_fixed_message {A : Type}
  (adapter : (GenerateContentParameters → Promise GenerateContentResponse) → Async A) : Prop :=
  ∃ m : string, ∀ remote e, settled (adapter remote) = Rejected e → e = Error m.

(** ** Reports as JS values *)

Definition optional (k : string) (o : option string) : list (string * JSValue) :=
  match o with
  | Some s => [(k, JString s)]
  | None => []
  end.

Definition CheckItem_to_js (c : CheckItem) : JSValue :=
  JObject
    ([ ("category", JString (Category_value (category c)));
       ("status", JString (CheckStatus_value (status c)));
       ("title", JString (title c));
       ("description", JString (description c)) ]
     ++ optional "location" (location c)
     ++ optional "visualZone" (visualZone c))%list.

Definition DocumentSpecs_to_js (d : DocumentSpecs) : JSValue :=
  JObject
    [ ("pageCount", JNumber (pageCount d));
      ("detectedDimensions", JString (detectedDimensions d));
      ("colorProfileEstimate", JString (colorProfileEstimate d));
      ("hasCropMarks", JBool (hasCropMarks d)) ].

Definition PreflightReport_to_js (r : PreflightReport) : JSValue :=
  JObject
    [ ("overallScore", JNumber (overallScore r));
      ("summary", JString (summary r));
      ("finalVerdict", JString (Verdict_value (finalVerdict r)));
      ("specs", DocumentSpecs_to_js (specs r));
      ("checks", JArray (map CheckItem_to_js (checks r))) ].

(** No key twice. *)
Fixpoint distinct (ks : list string) : bool :=
  match ks with
  | [] => true
  | k :: ks' => negb (existsb (String.eqb k) ks') && distinct ks'
  end.

(** The limits of the data model that [reportSchema] does not express: a
    score from 0 to 100, a positive page count, a title and a description
    that are not empty. *)
Definition number_in (lo hi : Z) (o : option JSValue) : bool :=
  match o with
  | Some (JNumber z) => (lo <=? z) && (z <=? hi)
  | _ => false
  end.

Definition number_from (lo : Z) (o : option JSValue) : bool :=
  match o with
  | Some (JNumber z) => lo <=? z
  | _ => false
  end.

Definition nonempty_string (o : option JSValue) : bool :=
  match o with
  | Some (JString s) => negb (String.eqb s "")
  | _ => false
  end.

Definition within_limits (v : JSValue) : bool :=
  number_in 0 100 (get "overallScore" v)
  && match get "specs" v with
     | Some sp => number_from 1 (get "pageCount" sp)
     | None => false
     end
  && match get "checks" v with
     | Some (JArray cs) =>
         forallb (fun c => nonempty_string (get "title" c)
                           && nonempty_string (get "description" c)) cs
     | _ => false
     end.

(** A payload that satisfies the report schema. *)
Definition satisfies_schema (v : JSValue) : Prop :=
  conforms reportSchema v = true ∧ within_limits v = true.

(** ** JSON texts *)

(** The grammar of ECMA-404, and the value a text stands for: [Spells v t]
    says that [t] is a JSON text for [v].  A number stands for itself,
    whatever its size: [JNumber z] for the integer [z], a fraction as
    multiples of 2^-1074 when it is a whole number of them.  The strings of
    the text are taken as JS takes them, escapes resolved.  A text in which
    an object has a key twice is not given a value. *)

Module Grammar.

(** White space: space, tab, line feed, carriage return. *)
Inductive Space : string → Prop :=
| space_none : Space ""
| space_more (c : ascii) (w : string) :
    In c [" "; "009"; "010"; "013"]%char → Space w → Space (String c w).

Definition decimal_digits : list (ascii * Z) :=
  [ ("0"%char, 0); ("1"%char, 1); ("2"%char, 2); ("3"%char, 3); ("4"%char, 4);
    ("5"%char, 5); ("6"%char, 6); ("7"%char, 7); ("8"%char, 8); ("9"%char, 9) ].

Definition hexadecimal_digits : list (ascii * Z) :=
  (decimal_digits
   ++ [ ("a"%char, 10); ("b"%char, 11); ("c"%char, 12); ("d"%char, 13);
        ("e"%char, 14); ("f"%char, 15);
        ("A"%char, 10); ("B"%char, 11); ("C"%char, 12); ("D"%char, 13);
        ("E"%char, 14); ("F"%char, 15) ])%list.

Definition Digit (c : ascii) (d : Z) : Prop := In (c, d) decimal_digits.
Definition Hex (c : ascii) (d : Z) : Prop := In (c, d) hexadecimal_digits.

(** [Digits a t n]: the digits [t], one at least, written behind a number
    [a], make the number [n]. *)
Inductive Digits : Z → string → Z → Prop :=
| digits_last (a : Z) (c : ascii) (d : Z) :
    Digit c d → Digits a (String c "") (10 * a + d)
| digits_more (a : Z) (c : ascii) (d : Z) (t : string) (n : Z) :
    Digit c d → Digits (10 * a + d) t n → Digits a (String c t) n.

(** int: one digit, or more of them without a leading zero. *)
Inductive Int_part : string → Z → Prop :=
| int_digit (c : ascii) (d : Z) : Digit c d → Int_part (String c "") d
| int_digits (c : ascii) (d : Z) (t : string) (n : Z) :
    Digit c d → d ≠ 0 → Digits d t n → Int_part (String c t) n.

(** frac: nothing, or a point and digits.  The digits go on from the
    integer part [i]; the last index is their number. *)
Inductive Frac_part (i : Z) : string → Z → Z → Prop :=
| frac_none : Frac_part i "" i 0
| frac_digits (t : string) (m : Z) :
    Digits i t m → Frac_part i (String "." t) m (Z.of_nat (String.length t)).

(** exp: nothing, or [e] or [E], a sign or none, and digits. *)
Inductive Exp_part : string → Z → Prop :=
| exp_none : Exp_part "" 0
| exp_digits (c : ascii) (t : string) (e : Z) :
    c = "e"%char ∨ c = "E"%char → Digits 0 t e → Exp_part (String c t) e
| exp_plus (c : ascii) (t : string) (e : Z) :
    c = "e"%char ∨ c = "E"%char → Digits 0 t e → Exp_part (String c (String "+" t)) e
| exp_minus (c : ascii) (t : string) (e : Z) :
    c = "e"%char ∨ c = "E"%char → Digits 0 t e → Exp_part (String c (String "-" t)) (- e).

(** [Numeral t negative m e]: the numeral [t] writes [m * 10^e], with a
    minus sign in front when [negative]. *)
Inductive Numeral : string → bool → Z → Z → Prop :=
| numeral (negative : bool) (int frac exp : string) (i m f e : Z) :
    Int_part int i → Frac_part i frac m f → Exp_part exp e →
    Numeral ((if negative then "-" else "") ++ int ++ frac ++ exp) negative m (e - f).

(** [m * 10^e = a / b] *)
Definition decimal_is (m e a b : Z) : Prop :=
  if 0 <=? e then m * 10 ^ e * b = a else m * b = a * 10 ^ (- e).

(** The number [m * 10^e], with its sign, is the value [v]. *)
Definition Denotes (negative : bool) (m e : Z) (v : JSValue) : Prop :=
  match v with
  | JNumber z => (if negative then z < 0 else 0 <= z) ∧ decimal_is m e (Z.abs z) 1
  | JFloat NegativeZero => negative = true ∧ m = 0
  | JFloat (Fraction s u) =>
      s = negative ∧ Z.pos u mod UNIT ≠ 0 ∧ decimal_is m e (Z.pos u) UNIT
  | _ => False
  end.

(** The escapes of one letter and the character each stands for. *)
Definition short_escapes : list (ascii * ascii) :=
  [ (dquote, dquote); (backslash, backslash); ("/"%char, "/"%char);
    ("b"%char, "008"%char); ("f"%char, "012"%char); ("n"%char, "010"%char);
    ("r"%char, "013"%char); ("t"%char, "009"%char) ].

(** [\uXXXX] and the code unit it writes. *)
Inductive Escape : string → Z → Prop :=
| escape (c1 c2 c3 c4 : ascii) (a b c d : Z) :
    Hex c1 a → Hex c2 b → Hex c3 c → Hex c4 d →
    Escape (String backslash (String "u" (String c1 (String c2 (String c3 (String c4 ""))))))
           (((a * 16 + b) * 16 + c) * 16 + d).

Definition high_surrogate (u : Z) : Prop := 55296 <= u <= 56319.
Definition low_surrogate (u : Z) : Prop := 56320 <= u <= 57343.

(** [Chars s t]: between the quotes, [t] writes the string [s]. *)
Inductive Chars : string → string → Prop :=
| chars_none : Chars "" ""
| chars_plain (c : ascii) (s t : string) :
    32 <= code c → c ≠ dquote → c ≠ backslash →
    Chars s t → Chars (String c s) (String c t)
| chars_short (e c : ascii) (s t : string) :
    In (e, c) short_escapes →
    Chars s t → Chars (String c s) (String backslash (String e t))
| chars_unit (x : string) (u : Z) (s t : string) :
    Escape x u → ¬ high_surrogate u →
    Chars s t → Chars (utf8 u s) (x ++ t)
| chars_pair (x1 x2 : string) (high low : Z) (s t : string) :
    Escape x1 high → Escape x2 low → high_surrogate high → low_surrogate low →
    Chars s t →
    Chars (utf8 (65536 + (high - 55296) * 1024 + (low - 56320)) s) (x1 ++ x2 ++ t)
| chars_high (x : string) (u : Z) (s t : string) :
    Escape x u → high_surrogate u →
    (∀ x' low t', t = x' ++ t' → Escape x' low → ¬ low_surrogate low) →
    Chars s t → Chars (utf8 u s) (x ++ t).

Inductive Spells : JSValue → string → Prop :=
| spells_null : Spells JNull "null"
| spells_true : Spells (JBool true) "true"
| spells_false : Spells (JBool false) "false"
| spells_number (t : string) (negative : bool) (m e : Z) (v : JSValue) :
    Numeral t negative m e → Denotes negative m e v → Spells v t
| spells_string (s t : string) :
    Chars s t → Spells (JString s) (String dquote (t ++ String dquote ""))
| spells_empty_array (w : string) :
    Space w → Spells (JArray []) (String "[" (w ++ "]"))
| spells_array (vs : list JSValue) (t : string) :
    Elements vs t → Spells (JArray vs) (String "[" (t ++ "]"))
| spells_empty_object (w : string) :
    Space w → Spells (JObject []) (String "{" (w ++ "}"))
| spells_object (ps : list (string * JSValue)) (t : string) :
    Members ps t → distinct (map fst ps) = true →
    Spells (JObject ps) (String "{" (t ++ "}"))

with Elements : list JSValue → string → Prop :=
| elements_last (w1 : string) (v : JSValue) (t w2 : string) :
    Space w1 → Spells v t → Space w2 →
    Elements [v] (w1 ++ t ++ w2)
| elements_more (w1 : string) (v : JSValue) (t w2 : string)
    (vs : list JSValue) (ts : string) :
    Space w1 → Spells v t → Space w2 → Elements vs ts →
    Elements (v :: vs) (w1 ++ t ++ w2 ++ String "," ts)

with Members : list (string * JSValue) → string → Prop :=
| members_last (w1 k kt w2 w3 : string) (v : JSValue) (t w4 : string) :
    Space w1 → Chars k kt → Space w2 → Space w3 → Spells v t → Space w4 →
    Members [(k, v)]
      (w1 ++ String dquote (kt ++ String dquote (w2 ++ String ":" (w3 ++ t ++ w4))))
| members_more (w1 k kt w2 w3 : string) (v : JSValue) (t w4 : string)
    (ps : list (string * JSValue)) (ts : string) :
    Space w1 → Chars k kt → Space w2 → Space w3 → Spells v t → Space w4 →
    Members ps ts →
    Members ((k, v) :: ps)
      (w1 ++ String dquote (kt ++ String dquote
         (w2 ++ String ":" (w3 ++ t ++ w4 ++ String "," ts)))).

Scheme Spells_mut := Minimality for Spells Sort Prop
  with Elements_mut := Minimality for Elements Sort Prop
  with Members_mut := Minimality for Members Sort Prop.
Combined Scheme Spells_Elements_Members from Spells_mut, Elements_mut, Members_mut.

(** A JSON text: a value with white space around it. *)
Definition Text (v : JSValue) (text : string) : Prop :=
  ∃ w1 t w2, Space w1 ∧ Spells v t ∧ Space w2 ∧ text = w1 ++ t ++ w2.

End Grammar.

(** ** Numbers that are doubles *)

(** [u] multiples of 2^-1074 are a double when [u] has at most 53
    significant bits and is below [OVERFLOW]. *)
Definition significant_53 (u : Z) : bool :=
  u mod 2 ^ Z.max 0 (Z.log2 u - 52) =? 0.

Definition double_units (u : Z) : bool := significant_53 u && (u <? OVERFLOW).

Definition is_double (v : JSValue) : bool :=
  match v with
  | JNumber z => double_units (Z.abs z * UNIT)
  | JFloat (Fraction _ u) => double_units (Z.pos u)
  | _ => true
  end.

(** Every number in [v] is a double. *)
Fixpoint numbers_are_doubles (v : JSValue) : bool :=
  match v with
  | JArray vs => forallb numbers_are_doubles vs
  | JObject ps =>
      (fix each (l : list (string * JSValue)) : bool :=
         match l with
         | [] => true
         | (_, x) :: l' => numbers_are_doubles x && each l'
         end) ps
  | _ => is_double v
  end.

(** ** Zones *)

Definition grid_zones : list string :=
  [ "TOP_LEFT"; "TOP_CENTER"; "TOP_RIGHT";
    "MIDDLE_LEFT"; "CENTER"; "MIDDLE_RIGHT";
    "BOTTOM_LEFT"; "BOTTOM_CENTER"; "BOTTOM_RIGHT" ].

Definition visual_zones : list string := (grid_zones ++ ["FULL_PAGE"])%list.

(** Row and column a zone name stands for: top, middle, bottom are rows 0,
    1, 2 and left, center, right are columns 0, 1, 2. *)
Definition grid_position (zone : string) : option (Z * Z) :=
  if String.eqb zone "TOP_LEFT" then Some (0, 0)
  else if String.eqb zone "TOP_CENTER" then Some (0, 1)
  else if String.eqb zone "TOP_RIGHT" then Some (0, 2)
  else if String.eqb zone "MIDDLE_LEFT" then Some (1, 0)
  else if String.eqb zone "CENTER" then Some (1, 1)
  else if String.eqb zone "MIDDLE_RIGHT" then Some (1, 2)
  else if String.eqb zone "BOTTOM_LEFT" then Some (2, 0)
  else if String.eqb zone "BOTTOM_CENTER" then Some (2, 1)
  else if String.eqb zone "BOTTOM_RIGHT" then Some (2, 2)
  else None.

(** The invariant of the data model on a typed check and on a typed
    report. *)
Definition check_in_model (c : CheckItem) : Prop :=
  title c ≠ "" ∧ description c ≠ ""
  ∧ match visualZone c with
    | Some zone => In zone visual_zones
    | None => True
    end.

Definition report_in_model (r : PreflightReport) : Prop :=
  0 <= overallScore r <= 100
  ∧ 1 <= pageCount (specs r) <= MAX_SAFE_INTEGER
  ∧ Forall check_in_model (checks r).

(** The dashboard with the preview loaded and the pointer over [item], the
    first entry of its section. *)
Definition hovering (item : CheckItem) : ReportDashboard.State :=
  ReportDashboard.onMouseEnter item (CheckStatus_value (status item) ++ "-0")
    {| ReportDashboard.activeZone := None;
       ReportDashboard.activeItemIndex := None;
       ReportDashboard.pdfDoc := true |}.

(** ** Sample data *)

Definition sample_check : CheckItem :=
  {| category := COLOR; status := FAIL; title := "RGB images detected";
     description := "Images on page 1 use RGB.";
     location := Some "Page 1 center"; visualZone := Some "CENTER" |}.

Definition sample_check_without_zone : CheckItem :=
  {| category := CONTENT; status := WARN; title := "Possible typo";
     description := "The word 'recieve' looks misspelled.";
     location := None; visualZone := None |}.

Definition sample_report : PreflightReport :=
  {| overallScore := 82;
     summary := "Mostly ready; convert images to CMYK.";
     finalVerdict := NEEDS_REVIEW;
     checks := [ sample_check; sample_check_without_zone;
                 {| category := LAYOUT; status := PASS; title := "Bleed present";
                    description := "Artwork extends past the trim line.";
                    location := None; visualZone := Some "FULL_PAGE" |} ];
     specs := {| pageCount := 2; detectedDimensions := "8.5x11 in";
                 colorProfileEstimate := "RGB Detected"; hasCropMarks := false |} |}.

(** Sample texts are written with an apostrophe where the JSON text has a
    double quote. *)
Fixpoint double_quotes (s : string) : string :=
  match s with
  | EmptyString => EmptyString
  | String c r => String (if Ascii.eqb c "'" then dquote else c) (double_quotes r)
  end.

(** A report with one check, and a text for it: white space around the
    values, the score written with a fraction, the page count with an
    exponent, a line feed and a letter of the summary as escapes. *)
Definition sample_payload : PreflightReport :=
  {| overallScore := 82;
     summary := "Mostly ready;" ++ String "010" "convert images to CMYK.";
     finalVerdict := NEEDS_REVIEW;
     checks := [sample_check];
     specs := {| pageCount := 2; detectedDimensions := "8.5x11 in";
                 colorProfileEstimate := "RGB Detected"; hasCropMarks := false |} |}.

Definition sample_payload_text : string :=
  double_quotes
    (" { 'overallScore': 82.0, 'summary': 'Mostly ready;\nconvert images to \u0043MYK.', 'finalVerdict' : 'NEEDS_REVIEW',"
     ++ String "010"
     "  'specs': {'pageCount': 2e0, 'detectedDimensions': '8.5x11 in', 'colorProfileEstimate': 'RGB Detected', 'hasCropMarks': false},"
     ++ String "010"
     "  'checks': [ {'category': 'COLOR', 'status': 'FAIL', 'title': 'RGB images detected', 'description': 'Images on page 1 use RGB.', 'location': 'Page 1 center', 'visualZone': 'CENTER'} ] }"
     ++ String "010" "").

(** A document of 2^53 + 1 pages, the text of its report, and the report
    with the page count that a JS number gives it. *)
Definition long_document : PreflightReport :=
  {| overallScore := 82;
     summary := "Ready.";
     finalVerdict := READY_FOR_PRINT;
     checks := [];
     specs := {| pageCount := 9007199254740993; detectedDimensions := "A4";
                 colorProfileEstimate := "CMYK"; hasCropMarks := true |} |}.

Definition long_document_text : string :=
  double_quotes
    "{'overallScore': 82, 'summary': 'Ready.', 'finalVerdict': 'READY_FOR_PRINT', 'specs': {'pageCount': 9007199254740993, 'detectedDimensions': 'A4', 'colorProfileEstimate': 'CMYK', 'hasCropMarks': true}, 'checks': []}".

Definition long_document_rounded : PreflightReport :=
  {| overallScore := 82;
     summary := "Ready.";
     finalVerdict := READY_FOR_PRINT;
     checks := [];
     specs := {| pageCount := 9007199254740992; detectedDimensions := "A4";
                 colorProfileEstimate := "CMYK"; hasCropMarks := true |} |}.

(** The sample report without its [specs]. *)
Definition sample_without_specs : JSValue :=
  JObject
    [ ("overallScore", JNumber 82);
      ("summary", JString "Mostly ready; convert images to CMYK.");
      ("finalVerdict", JString "NEEDS_REVIEW");
      ("checks", JArray [CheckItem_to_js sample_check]) ].

(** A reply with two candidates: the first one apologises, the second one
    holds the image. *)
Definition image_in_second_candidate : GenerateContentResponse :=
  {| response_text := None;
     candidates :=
       Some [ {| content := Some {| parts := Some [text_part "Here is another try."] |} |};
              {| content :=
                   Some {| parts := Some [inlineData_part "iVBORw0KGgo=" "image/png"] |} |} ] |}.

(** A reply whose first candidate has no content and whose second one holds
    a JPEG. *)
Definition image_behind_empty_candidate : GenerateContentResponse :=
  {| response_text := None;
     candidates :=
       Some [ {| content := None |};
              {| content :=
                   Some {| parts := Some [inlineData_part "/9j/4AAQ" "image/jpeg"] |} |} ] |}.

(** A reply with a text part, a JPEG part and a PNG part. *)
Definition jpeg_then_png_reply : GenerateContentResponse :=
  parts_reply [ text_part "Edited."; inlineData_part "/9j/4AAQ" "image/jpeg";
                inlineData_part "iVBORw0KGgo=" "image/png" ].

Definition sample_pdf : File :=
  {| file_name := "flyer.pdf"; file_type := "application/pdf";
     file_size := 5 * 1024 * 1024 |}.

Definition oversized_pdf : File :=
  {| file_name := "catalogue.pdf"; file_type := "application/pdf";
     file_size := 25 * 1024 * 1024 |}.

Definition sample_png : File :=
  {| file_name := "logo.png"; file_type := "image/png"; file_size := 4096 |}.


(* ===================================================================== *)
(** * components/AnalysisStatus.tsx *)
(* ===================================================================== *)

Module AnalysisStatus.

Definition steps : list string :=
  [ "Uploading document...";
    "Extracting layout geometry...";
    "Analyzing color profiles...";
    "Checking typography...";
    "Verifying bleed & margins...";
    "Generating report..." ].

(** The updater the interval hands to [setCurrentStep]. *)
Definition tick (prev : nat) : nat :=
  if (prev <? length steps - 1)%nat then (prev + 1)%nat else prev.

(** [currentStep] after the interval has fired [n] times. *)
Definition currentStep_after (n : nat) : nat := Nat.iter n tick 0%nat.

(** How the row of a step is drawn: a check mark, the spinner, or an empty
    circle. *)
Inductive Mark : Type := Done | Current | Pending.

Definition mark (currentStep index : nat) : Mark :=
  if (index <? currentStep)%nat then Done
  else if (index =? currentStep)%nat then Current
  else Pending.

(** [steps.map((step, index) => ...)] *)
Definition rows (currentStep : nat) : list (Mark * string) :=
  imap (fun index step => (mark currentStep index, step)) steps.

End AnalysisStatus.

(* ===================================================================== *)
(** * fileToBase64 (App.tsx), and the data URL in handleEdit (ImageEditor.tsx) *)
(* ===================================================================== *)

Module DataURL.

(** [s.split(sep)] for a separator of one character. *)
Fixpoint split_from (sep : ascii) (s : string) (cur : string) : list string :=
  match s with
  | EmptyString => [cur]
  | String c r =>
      if Ascii.eqb c sep then cur :: split_from sep r EmptyString
      else split_from sep r (cur ++ String c EmptyString)
  end.

Definition split (sep : ascii) (s : string) : list string :=
  split_from sep s EmptyString.

(** [result.split(',')[1]]: what [fileToBase64] of [App] resolves with, and
    what [handleEdit] passes on as [dataOnly]; [None] is [undefined].
    [result] is the data URL the [FileReader] has produced. *)
Definition base64_of (result : string) : option string :=
  split "," result !! 1%nat.

(** The characters base64 text is made of. *)
Definition is_base64_char (c : ascii) : bool :=
  let n := N_of_ascii c in
  (((65 <=? n) && (n <=? 90)) || ((97 <=? n) && (n <=? 122))
   || ((48 <=? n) && (n <=? 57)) || (n =? 43) || (n =? 47) || (n =? 61))%N.

Fixpoint is_base64 (s : string) : bool :=
  match s with
  | EmptyString => true
  | String c r => is_base64_char c && is_base64 r
  end.

Fixpoint has_comma (s : string) : bool :=
  match s with
  | EmptyString => false
  | String c r => Ascii.eqb c "," || has_comma r
  end.

End DataURL.

(* ===================================================================== *)
(** * components/ReportDashboard.tsx: the page controls *)
(* ===================================================================== *)

Module Paging.

(** [pageNum], [numPages] and whether [pdfDoc] is set. *)
Record State : Type := { pageNum : Z; numPages : Z; pdfDoc : bool }.

Definition initial : State := {| pageNum := 1; numPages := 0; pdfDoc := false |}.

(** [loadPdf] once the document has loaded: [setPdfDoc(doc)],
    [setNumPages(doc.numPages)]. *)
Definition loadPdf_resume (doc_numPages : Z) (st : State) : State :=
  {| pageNum := pageNum st; numPages := doc_numPages; pdfDoc := true |}.

(** [disabled={pageNum <= 1}] and [disabled={pageNum >= numPages}] *)
Definition prev_disabled (st : State) : bool := pageNum st <=? 1.
Definition next_disabled (st : State) : bool := numPages st <=? pageNum st.

(** [setPageNum(prev => Math.max(1, prev - 1))] *)
Definition clickPrev (st : State) : State :=
  {| pageNum := Z.max 1 (pageNum st - 1); numPages := numPages st; pdfDoc := pdfDoc st |}.

(** [setPageNum(prev => Math.min(numPages, prev + 1))] *)
Definition clickNext (st : State) : State :=
  {| pageNum := Z.min (numPages st) (pageNum st + 1); numPages := numPages st;
     pdfDoc := pdfDoc st |}.

(** The page the render effect asks the document for: [pdfDoc.getPage(pageNum)],
    once there is a document. *)
Definition requested_page (st : State) : option Z :=
  if pdfDoc st then Some (pageNum st) else None.

Inductive Event : Type :=
| DocumentLoaded (doc_numPages : Z)
| ClickPrev
| ClickNext.

(** The effect that loads the document runs once for the file the
    dashboard was given; a button that is disabled takes no click. *)
Definition step (st : State) (ev : Event) : option State :=
  match ev with
  | DocumentLoaded n => if pdfDoc st then None else Some (loadPdf_resume n st)
  | ClickPrev => if prev_disabled st then None else Some (clickPrev st)
  | ClickNext => if next_disabled st then None else Some (clickNext st)
  end.

Fixpoint run (st : State) (evs : list Event) : option State :=
  match evs with
  | [] => Some st
  | ev :: evs' =>
      match step st ev with
      | Some st' => run st' evs'
      | None => None
      end
  end.

(** A document has at least one page. *)
Definition documents_have_pages (evs : list Event) : Prop :=
  Forall (fun ev => match ev with DocumentLoaded n => 1 <= n | _ => True end) evs.

End Paging.

(* ===================================================================== *)
(** * App.tsx: what the Preflight tab shows *)
(* ===================================================================== *)

Module PreflightTab.

(** [{isAnalyzing && <AnalysisStatus />}] *)
Definition renders_AnalysisStatus (a : App.State) : bool :=
  App.on_main a && bool_decide (App.activeTab a = App.PREFLIGHT) && App.isAnalyzing a.

(** [{error && !isAnalyzing && !report && <div>...{error}... Try Again</div>}] *)
Definition renders_error_box (a : App.State) : bool :=
  App.on_main a && bool_decide (App.activeTab a = App.PREFLIGHT)
  && truthy (App.error a) && negb (App.isAnalyzing a) && negb (App.has_report a).

(** The full-screen [ReportDashboard] is on the page: [App] returns it and
    it is drawn. *)
Definition renders_Dashboard (a : App.State) : bool :=
  match App.screen a with App.Dashboard => App.dashboard_draws a | _ => false end.


(** The tab is open and the key gate has been passed. *)
Definition open (a : App.State) : Prop :=
  App.isCheckingKey a = false ∧ App.hasApiKey a = true
  ∧ App.activeTab a = App.PREFLIGHT.

(** The state of [App] holds together: an analysis that is running has its
    file and neither a reply nor a message; a message stands without file
    and reply and is not empty; a reply stands with its file; a file is
    kept for a running analysis or for a reply. *)
Record coherent (a : App.State) : Prop := {
  analyzing_clean :
    App.isAnalyzing a = true →
    App.has_file a = true ∧ App.report a = None ∧ App.error a = None;
  failure_clean :
    App.error a ≠ None →
    truthy (App.error a) = true ∧ App.file a = None ∧ App.report a = None;
  report_with_file :
    App.report a ≠ None → App.has_file a = true ∧ App.isAnalyzing a = false;
  file_in_use :
    App.has_file a = true → App.isAnalyzing a = true ∨ App.report a ≠ None
}.

End PreflightTab.

(** The key gate has been passed. *)
Definition key_present (a : App.State) : bool :=
  negb (App.isCheckingKey a) && App.hasApiKey a.

(** A busy flag that is set has a call in flight behind it. *)
Record flags_backed (st : Page.State) : Prop := {
  analysis_backed :
    App.isAnalyzing (Page.app st) = true →
    (1 ≤ Page.outstanding Page.Preflight st)%nat;
  generation_backed :
    ∀ id g, Page.generator st = Some (id, g) →
      ImageGenerator.isGenerating g = true →
      (1 ≤ Page.calls_of Page.Generation id st)%nat;
  editing_backed :
    ∀ id e, Page.editor st = Some (id, e) →
      ImageEditor.isProcessing e = true →
      (1 ≤ Page.calls_of Page.Editing id st)%nat
}.

(** [{error && <div>{error}</div>}] of [ImageEditor]: the box is part of
    the branch drawn when there is an [originalFile]. *)
Definition editor_shown_error (e : ImageEditor.State) : option string :=
  match ImageEditor.originalFile e with
  | Some _ => if truthy (ImageEditor.error e) then ImageEditor.error e else None
  | None => None
  end.

(** [{error && <div>...{error}</div>}] of [ImageGenerator]. *)
Definition generator_shown_error (g : ImageGenerator.State) : option string :=
  if truthy (ImageGenerator.error g) then ImageGenerator.error g else None.

(** The message of [ImageEditor] for a file that is not an image. *)
Definition not_an_image : string := "Please upload an image file (PNG, JPG).".

(** No failure that reaches the editor carries the text of [not_an_image]. *)
Definition failures_worded_otherwise (evs : list Page.Event) : Prop :=
  Forall (fun ev =>
            match ev with
            | Page.ImageSettled _ (Rejected err) => message err ≠ not_an_image
            | _ => True
            end) evs.

(** The editor holds the message of [not_an_image] only while it has no
    [originalFile]. *)
Definition editor_quiet (st : Page.State) : Prop :=
  ∀ id e, Page.editor st = Some (id, e) →
    ImageEditor.error e = Some not_an_image → ImageEditor.originalFile e = None.

(** Instance [id] has been mounted at some time and is not mounted now. *)
Definition unmounted (id : nat) (st : Page.State) : Prop :=
  (id < Page.mounts st)%nat
  ∧ (∀ g, Page.generator st ≠ Some (id, g))
  ∧ (∀ e, Page.editor st ≠ Some (id, e)).

(** A generator or an editor that is mounted is one that [App] renders. *)
Definition children_rendered (st : Page.State) : Prop :=
  (Page.generator st ≠ None → App.renders_ImageGenerator (Page.app st) = true)
  ∧ (Page.editor st ≠ None → App.renders_ImageEditor (Page.app st) = true).

(** A reply that is dropped: it leaves the page as it is but for the call
    that has settled. *)
Definition dropped (i : nat) (before after : Page.State) : Prop :=
  Page.app after = Page.app before
  ∧ Page.upload after = Page.upload before
  ∧ Page.generator after = Page.generator before
  ∧ Page.editor after = Page.editor before
  ∧ Page.in_flight after = delete i (Page.in_flight before).

(** Nothing is mounted and nothing is in flight. *)
Definition nothing_running (st : Page.State) : Prop :=
  Page.in_flight st = [] ∧ Page.upload st = None
  ∧ Page.generator st = None ∧ Page.editor st = None.

(** [ImageGenerator] shows a picture or a message, not both, and neither
    while it is busy. *)
Record generator_tidy (g : ImageGenerator.State) : Prop := {
  busy_blank :
    ImageGenerator.isGenerating g = true →
    ImageGenerator.generatedImage g = None ∧ ImageGenerator.error g = None;
  picture_or_message :
    ImageGenerator.generatedImage g = None ∨ ImageGenerator.error g = None
}.

(** A point of the page lies in a rectangle, its border included. *)
Definition rect_contains (r : Layout.Rect) (px py : Q) : Prop :=
  (Layout.x r <= px ∧ px <= Layout.x r + Layout.w r
   ∧ Layout.y r <= py ∧ py <= Layout.y r + Layout.h r)%Q.

(** The page shown is in range: page 1 of no pages before the document is
    there, a page of the document after. *)
Definition page_in_range (st : Paging.State) : Prop :=
  if Paging.pdfDoc st then 1 <= Paging.pageNum st <= Paging.numPages st
  else Paging.pageNum st = 1 ∧ Paging.numPages st = 0.

(* ===================================================================== *)
(** * Properties of the remote adapter *)
(* ===================================================================== *)

Section AdapterFacts.

Variable remote : GenerateContentParameters → Promise GenerateContentResponse.

(** How [generateImage] settles, read off its body. *)
Lemma generateImage_settled (prompt : string) (size : ImageSize) :
  settled (generateImage remote prompt size) =
  match remote (generateImage_request prompt size) with
  | Rejected e => Rejected e
  | Fulfilled response =>
      match first_candidate_parts response with
      | Some ps =>
          match first_inline_image ps with
          | Some uri => Fulfilled uri
          | None => Rejected (Error "No image generated in response.")
          end
      | None => Rejected (Error "No image generated in response.")
      end
  end.
Proof.
  unfold generateImage.
  destruct (remote _) as [response|e]; cbn; [|reflexivity].
  destruct (first_candidate_parts response) as [ps|]; cbn; [|reflexivity].
  destruct (first_inline_image ps); reflexivity.
Qed.

Lemma editImage_settled (base64Image mimeType prompt : string) :
  settled (editImage remote base64Image mimeType prompt) =
  match remote (editImage_request base64Image mimeType prompt) with
  | Rejected e => Rejected e
  | Fulfilled response =>
      match first_candidate_parts response with
      | Some ps =>
          match first_inline_image ps with
          | Some uri => Fulfilled uri
          | None => Rejected (Error "No edited image generated in response.")
          end
      | None => Rejected (Error "No edited image generated in response.")
      end
  end.
Proof.
  unfold editImage.
  destruct (remote _) as [response|e]; cbn; [|reflexivity].
  destruct (first_candidate_parts response) as [ps|]; cbn; [|reflexivity].
  destruct (first_inline_image ps); reflexivity.
Qed.

(** How [analyzePdf] settles, for any parser. *)
Lemma analyzePdf_settled (Value : Type) (parse : string → JSError + Value)
    (instructions base64Pdf : string) :
  settled (analyzePdf remote Value parse instructions base64Pdf) =
  match remote (analyzePdf_request instructions base64Pdf) with
  | Rejected _ => Rejected analysis_failed
  | Fulfilled response =>
      if truthy (response_text response) then
        match parse (to_string (response_text response)) with
        | inr v => Fulfilled v
        | inl _ => Rejected analysis_failed
        end
      else Rejected analysis_failed
  end.
Proof.
  unfold analyzePdf.
  destruct (remote _) as [response|e]; cbn; [|reflexivity].
  destruct (truthy (response_text response)); cbn; [|reflexivity].
  destruct (parse _); reflexivity.
Qed.

End AdapterFacts.

(** The loop over the parts falls through exactly when no part carries
    inline data. *)
Lemma first_inline_image_None (ps : list Part) :
  first_inline_image ps = None ↔ Forall (fun p => inlineData p = None) ps.
Proof.
  induction ps as [|p ps IH]; cbn.
  - split; [constructor | reflexivity].
  - destruct (inlineData p) as [blob|] eqn:E.
    + split; [discriminate|]. intros H. inversion H; congruence.
    + rewrite IH. split.
      * intros H. constructor; assumption.
      * intros H. inversion H; assumption.
Qed.

(** When the loop returns, it returns the URI of the first part that
    carries inline data. *)
Lemma first_inline_image_Some (ps : list Part) (uri : string) :
  first_inline_image ps = Some uri ↔
  ∃ before p after,
    ps = (before ++ p :: after)%list
    ∧ Forall (fun q => inlineData q = None) before
    ∧ png_data_uri p = Some uri.
Proof.
  unfold png_data_uri. induction ps as [|p ps IH]; cbn.
  - split; [discriminate|]. intros (before & q & after & H & _).
    destruct before; discriminate.
  - destruct (inlineData p) as [blob|] eqn:E.
    + split.
      * intros H. exists [], p, ps. rewrite E. repeat split; [constructor | assumption].
      * intros (before & q & after & H & Hb & Hq).
        destruct before as [|b before]; cbn in H; injection H as -> ->.
        -- rewrite E in Hq. assumption.
        -- inversion Hb; congruence.
    + rewrite IH. split.
      * intros (before & q & after & -> & Hb & Hq).
        exists (p :: before), q, after. repeat split; [constructor|]; assumption.
      * intros (before & q & after & H & Hb & Hq).
        destruct before as [|b before]; cbn in H; injection H as -> ->.
        -- rewrite E in Hq. discriminate.
        -- exists before, q, after. inversion Hb. repeat split; assumption.
Qed.

(** What the adapters make of a reply, in terms of its first candidate. *)
Lemma first_candidate_image (response : GenerateContentResponse)
    (c : Candidate) (others : list Candidate) :
  candidates response = Some (c :: others) →
  match first_candidate_parts response with
  | Some ps => first_inline_image ps
  | None => None
  end = first_inline_image (candidate_parts c).
Proof.
  intros Hc. unfold first_candidate_parts, candidate_parts. rewrite Hc.
  destruct (content c) as [ct|]; [|reflexivity].
  destruct (parts ct); reflexivity.
Qed.

Lemma no_first_candidate (response : GenerateContentResponse) :
  candidates response = None ∨ candidates response = Some [] →
  first_candidate_parts response = None.
Proof. unfold first_candidate_parts. intros [-> | ->]; reflexivity. Qed.

(** The image the adapters find in a reply whose first candidate has no
    part with inline data: none. *)
Lemma without_image_nothing_found (response : GenerateContentResponse) :
  first_candidate_without_image response →
  match first_candidate_parts response with
  | Some ps => first_inline_image ps
  | None => None
  end = None.
Proof.
  unfold first_candidate_without_image.
  destruct (candidates response) as [[|c others]|] eqn:Hc.
  - intros _. rewrite no_first_candidate by auto. reflexivity.
  - intros Hnone. rewrite (first_candidate_image response c others Hc).
    apply first_inline_image_None, Hnone.
  - intros _. rewrite no_first_candidate by auto. reflexivity.
Qed.

Lemma whole_reply_without_image (response : GenerateContentResponse) :
  Forall (fun p => inlineData p = None) (reply_parts response) →
  first_candidate_without_image response.
Proof.
  unfold reply_parts, first_candidate_without_image.
  destruct (candidates response) as [[|c others]|]; [exact (fun _ => I)| |exact (fun _ => I)].
  cbn [map concat]. intros H. apply Forall_app in H. apply H.
Qed.

(** Against C5: the image of this reply is in its second candidate, and
    both adapters fail with their no-result error. *)
Lemma image_in_later_candidate_is_not_returned :
  Exists has_inlineData (reply_parts image_in_second_candidate)
  ∧ settled (generateImage (remote_replying image_in_second_candidate)
               "a poster" Size1K)
    = Rejected (Error "No image generated in response.")
  ∧ settled (editImage (remote_replying image_in_second_candidate)
               "aGVsbG8=" "image/jpeg" "remove the background")
    = Rejected (Error "No edited image generated in response.").
Proof.
  split; [|split; reflexivity].
  apply Exists_cons_tl, Exists_cons_hd. discriminate.
Qed.

(** C5, amended. For every reply to a generation or an edit call: when no
    part of the reply carries inline image data, and more generally when
    the reply has no candidate or its first candidate has no such part, the
    adapter fails with the no-result error; when some part of the first
    candidate carries inline image data, the adapter returns the bytes of
    such a part as a data URI string.  The candidates after the first are
    not looked at. *)
Theorem image_reply_gives_data_uri_or_no_result
    (remote : GenerateContentParameters → Promise GenerateContentResponse)
    (response : GenerateContentResponse) :
  (∀ prompt size,
     remote (generateImage_request prompt size) = Fulfilled response →
     (Forall (fun p => inlineData p = None) (reply_parts response) →
      ∃ e, settled (generateImage remote prompt size) = Rejected e ∧ NoResultProduced e)
     ∧ (first_candidate_without_image response →
        ∃ e, settled (generateImage remote prompt size) = Rejected e
             ∧ NoResultProduced e)
     ∧ (∀ c others,
          candidates response = Some (c :: others) →
          Exists has_inlineData (candidate_parts c) →
          ∃ p uri, In p (candidate_parts c) ∧ png_data_uri p = Some uri
                   ∧ settled (generateImage remote prompt size) = Fulfilled uri))
  ∧ (∀ base64Image mimeType prompt,
     remote (editImage_request base64Image mimeType prompt) = Fulfilled response →
     (Forall (fun p => inlineData p = None) (reply_parts response) →
      ∃ e, settled (editImage remote base64Image mimeType prompt) = Rejected e
           ∧ NoResultProduced e)
     ∧ (first_candidate_without_image response →
        ∃ e, settled (editImage remote base64Image mimeType prompt) = Rejected e
             ∧ NoResultProduced e)
     ∧ (∀ c others,
          candidates response = Some (c :: others) →
          Exists has_inlineData (candidate_parts c) →
          ∃ p uri, In p (candidate_parts c) ∧ png_data_uri p = Some uri
                   ∧ settled (editImage remote base64Image mimeType prompt)
                     = Fulfilled uri)).
Proof.
  assert (Hsome : ∀ c others,
    candidates response = Some (c :: others) →
    Exists has_inlineData (candidate_parts c) →
    ∃ p uri, In p (candidate_parts c) ∧ png_data_uri p = Some uri
             ∧ match first_candidate_parts response with
               | Some ps => first_inline_image ps
               | None => None
               end = Some uri).
  { intros c others Hc Hex. rewrite (first_candidate_image response c others Hc).
    destruct (first_inline_image (candidate_parts c)) as [uri|] eqn:E.
    - pose proof E as E'. apply first_inline_image_Some in E'.
      destruct E' as (before & p & after & Hps & _ & Hp).
      exists p, uri. repeat split; [|assumption].
      rewrite Hps. apply in_or_app. right. left. reflexivity.
    - apply first_inline_image_None in E. exfalso.
      apply Exists_exists in Hex. destruct Hex as (p & Hin & Hp).
      rewrite Forall_forall in E. apply Hp, E, Hin. }
  split.
  - intros prompt size Hreply. rewrite generateImage_settled, Hreply.
    assert (Hnone : first_candidate_without_image response →
              ∃ e, match first_candidate_parts response with
                   | Some ps =>
                       match first_inline_image ps with
                       | Some uri => Fulfilled uri
                       | None => Rejected (Error "No image generated in response.")
                       end
                   | None => Rejected (Error "No image generated in response.")
                   end = Rejected e ∧ NoResultProduced e).
    { intros H. apply without_image_nothing_found in H.
      destruct (first_candidate_parts response) as [ps|]; [rewrite H|];
        (eexists; split; [reflexivity | left; reflexivity]). }
    split; [|split].
    + intros H. apply Hnone, whole_reply_without_image, H.
    + exact Hnone.
    + intros c others Hc Hex. destruct (Hsome c others Hc Hex) as (p & uri & Hin & Hp & E).
      exists p, uri. repeat split; [assumption..|].
      destruct (first_candidate_parts response) as [ps|]; [|discriminate].
      rewrite E. reflexivity.
  - intros base64Image mimeType prompt Hreply. rewrite editImage_settled, Hreply.
    assert (Hnone : first_candidate_without_image response →
              ∃ e, match first_candidate_parts response with
                   | Some ps =>
                       match first_inline_image ps with
                       | Some uri => Fulfilled uri
                       | None => Rejected (Error "No edited image generated in response.")
                       end
                   | None => Rejected (Error "No edited image generated in response.")
                   end = Rejected e ∧ NoResultProduced e).
    { intros H. apply without_image_nothing_found in H.
      destruct (first_candidate_parts response) as [ps|]; [rewrite H|];
        (eexists; split; [reflexivity | right; reflexivity]). }
    split; [|split].
    + intros H. apply Hnone, whole_reply_without_image, H.
    + exact Hnone.
    + intros c others Hc Hex. destruct (Hsome c others Hc Hex) as (p & uri & Hin & Hp & E).
      exists p, uri. repeat split; [assumption..|].
      destruct (first_candidate_parts response) as [ps|]; [|discriminate].
      rewrite E. reflexivity.
Qed.

(** C5, amended, at three replies: one with a text part only, one whose
    image is in the second candidate, one with an image after a text
    part. *)
Lemma image_reply_gives_data_uri_or_no_result_witness :
  (∃ e, settled (generateImage (remote_replying (parts_reply [text_part "Sorry."]))
                   "a poster" Size2K) = Rejected e ∧ NoResultProduced e)
  ∧ (∃ e, settled (generateImage (remote_replying image_in_second_candidate)
                     "a poster" Size2K) = Rejected e ∧ NoResultProduced e)
  ∧ (∃ p uri,
       In p [text_part "Here it is."; inlineData_part "iVBORw0KGgo=" "image/png"]
       ∧ png_data_uri p = Some uri
       ∧ settled (editImage
                    (remote_replying
                       (parts_reply [text_part "Here it is.";
                                     inlineData_part "iVBORw0KGgo=" "image/png"]))
                    "aGVsbG8=" "image/jpeg" "remove the background") = Fulfilled uri).
Proof.
  split; [|split].
  - apply (proj1 (proj1 (image_reply_gives_data_uri_or_no_result
                    (remote_replying (parts_reply [text_part "Sorry."]))
                    (parts_reply [text_part "Sorry."])) "a poster" Size2K eq_refl)).
    repeat constructor.
  - apply (proj1 (proj2 (proj1 (image_reply_gives_data_uri_or_no_result
                    (remote_replying image_in_second_candidate)
                    image_in_second_candidate) "a poster" Size2K eq_refl))).
    repeat constructor.
  - apply (proj2 (proj2 (proj2 (image_reply_gives_data_uri_or_no_result
                    (remote_replying
                       (parts_reply [text_part "Here it is.";
                                     inlineData_part "iVBORw0KGgo=" "image/png"]))
                    (parts_reply [text_part "Here it is.";
                                  inlineData_part "iVBORw0KGgo=" "image/png"]))
                    "aGVsbG8=" "image/jpeg" "remove the background" eq_refl))
             {| content :=
                  Some {| parts := Some [text_part "Here it is.";
                                         inlineData_part "iVBORw0KGgo=" "image/png"] |} |}
             [] eq_refl).
    apply Exists_cons_tl, Exists_cons_hd. discriminate.
Defined.

(** Against C10: this reply contains an inline-data part, behind a first
    candidate without content, and neither adapter returns it. *)
Lemma inline_part_behind_empty_candidate_is_not_returned :
  Exists has_inlineData (reply_parts image_behind_empty_candidate)
  ∧ (∀ uri,
       settled (generateImage (remote_replying image_behind_empty_candidate)
                  "a poster" Size1K) ≠ Fulfilled uri)
  ∧ (∀ uri,
       settled (editImage (remote_replying image_behind_empty_candidate)
                  "UklGRg==" "image/webp" "make it blue") ≠ Fulfilled uri).
Proof.
  split; [|split; intros uri; discriminate].
  apply Exists_cons_hd. discriminate.
Qed.

(** C10, amended. When the first candidate of the reply has parts with
    inline data, the adapters return the first of them in part order,
    always behind the prefix "data:image/png;base64,"; for [editImage] this
    holds whatever the MIME type of the source image and whatever the MIME
    type of the returned data.  Parts of later candidates are not looked
    at. *)
Theorem first_inline_part_is_returned_as_png
    (remote : GenerateContentParameters → Promise GenerateContentResponse)
    (response : GenerateContentResponse)
    (c : Candidate) (others : list Candidate)
    (before after : list Part) (returned : Part) (blob : Blob) :
  candidates response = Some (c :: others) →
  candidate_parts c = (before ++ returned :: after)%list →
  Forall (fun p => inlineData p = None) before →
  inlineData returned = Some blob →
  (∀ prompt size,
     remote (generateImage_request prompt size) = Fulfilled response →
     settled (generateImage remote prompt size)
     = Fulfilled ("data:image/png;base64," ++ to_string (data blob)))
  ∧ (∀ base64Image source_mime prompt,
     remote (editImage_request base64Image source_mime prompt) = Fulfilled response →
     settled (editImage remote base64Image source_mime prompt)
     = Fulfilled ("data:image/png;base64," ++ to_string (data blob))).
Proof.
  intros Hc Hparts Hbefore Hblob.
  assert (E : match first_candidate_parts response with
              | Some ps => first_inline_image ps
              | None => None
              end = Some ("data:image/png;base64," ++ to_string (data blob))).
  { rewrite (first_candidate_image response c others Hc).
    apply first_inline_image_Some. exists before, returned, after.
    split; [exact Hparts|]. split; [assumption|].
    unfold png_data_uri. rewrite Hblob. reflexivity. }
  split.
  - intros prompt size Hreply. rewrite generateImage_settled, Hreply.
    destruct (first_candidate_parts response) as [ps|]; [|discriminate].
    rewrite E. reflexivity.
  - intros base64Image source_mime prompt Hreply.
    rewrite editImage_settled, Hreply.
    destruct (first_candidate_parts response) as [ps|]; [|discriminate].
    rewrite E. reflexivity.
Qed.

(** C10, amended, at a reply with a text part, a JPEG part and a PNG part,
    for a WebP source image: the JPEG bytes come back, labelled PNG. *)
Lemma first_inline_part_is_returned_as_png_witness :
  settled (generateImage (remote_replying jpeg_then_png_reply) "a poster" Size1K)
  = Fulfilled "data:image/png;base64,/9j/4AAQ"
  ∧ settled (editImage (remote_replying jpeg_then_png_reply)
               "UklGRg==" "image/webp" "make it blue")
    = Fulfilled "data:image/png;base64,/9j/4AAQ".
Proof.
  pose proof (first_inline_part_is_returned_as_png
                (remote_replying jpeg_then_png_reply) jpeg_then_png_reply
                {| content :=
                     Some {| parts :=
                               Some [ text_part "Edited.";
                                      inlineData_part "/9j/4AAQ" "image/jpeg";
                                      inlineData_part "iVBORw0KGgo=" "image/png" ] |} |}
                []
                [text_part "Edited."] [inlineData_part "iVBORw0KGgo=" "image/png"]
                (inlineData_part "/9j/4AAQ" "image/jpeg")
                {| data := Some "/9j/4AAQ"; mimeType := Some "image/jpeg" |}
                eq_refl eq_refl ltac:(repeat constructor) eq_refl) as [Hgen Hedit].
  split.
  - apply Hgen. reflexivity.
  - apply Hedit. reflexivity.
Defined.

(** Against C6: [generateImage] does not turn its failures into one fixed
    message; two remotes that fail differently make it fail differently. *)
Lemma generateImage_has_no_fixed_message :
  ¬ one_fixed_message (fun remote => generateImage remote "a poster" Size1K).
Proof.
  intros [m Hm].
  pose proof (Hm (remote_failing (Error "503 Service Unavailable")) _ eq_refl) as H1.
  pose proof (Hm (remote_failing (Error "429 Too Many Requests")) _ eq_refl) as H2.
  congruence.
Qed.

(** C6, amended. Every failure inside [analyzePdf] is caught and replaced
    by the one message of [analysis_failed], and a call that fails returns
    no report; [generateImage] and [editImage] catch, log and throw the
    underlying error again, unchanged. *)
Theorem failures_at_the_adapter_boundary
    (Value : Type) (parse : string → JSError + Value) (instructions base64Pdf : string) :
  one_fixed_message
    (fun remote => analyzePdf remote Value parse instructions base64Pdf)
  ∧ (∀ remote,
       (∃ v, settled (analyzePdf remote Value parse instructions base64Pdf) = Fulfilled v)
       ∨ settled (analyzePdf remote Value parse instructions base64Pdf)
         = Rejected analysis_failed)
  ∧ (∀ remote prompt size e,
       remote (generateImage_request prompt size) = Rejected e →
       generateImage remote prompt size
       = ([ConsoleError "Image Generation Failed:" e], Rejected e))
  ∧ (∀ remote base64Image mimeType prompt e,
       remote (editImage_request base64Image mimeType prompt) = Rejected e →
       editImage remote base64Image mimeType prompt
       = ([ConsoleError "Image Editing Failed:" e], Rejected e)).
Proof.
  assert (Hcases : ∀ remote,
    (∃ v, settled (analyzePdf remote Value parse instructions base64Pdf) = Fulfilled v)
    ∨ settled (analyzePdf remote Value parse instructions base64Pdf)
      = Rejected analysis_failed).
  { intros remote. rewrite analyzePdf_settled.
    destruct (remote _) as [response|e]; [|right; reflexivity].
    destruct (truthy _); [|right; reflexivity].
    destruct (parse _) as [e|v]; [right; reflexivity | left; eexists; reflexivity]. }
  split; [|split; [exact Hcases|split]].
  - exists "Failed to analyze the PDF. Please try again.".
    intros remote e He. unfold analysis_failed in Hcases.
    destruct (Hcases remote) as [[v Hv]|Hr]; congruence.
  - intros remote prompt size e He. unfold generateImage. rewrite He. reflexivity.
  - intros remote base64Image mimeType prompt e He. unfold editImage. rewrite He.
    reflexivity.
Qed.

(** C6 at a remote that is down: the image adapters pass its error on. *)
Lemma failures_at_the_adapter_boundary_witness :
  generateImage (remote_failing (Error "503 Service Unavailable")) "a poster" Size4K
  = ([ConsoleError "Image Generation Failed:" (Error "503 Service Unavailable")],
     Rejected (Error "503 Service Unavailable"))
  ∧ editImage (remote_failing (Error "503 Service Unavailable"))
      "aGVsbG8=" "image/png" "add a retro filter"
    = ([ConsoleError "Image Editing Failed:" (Error "503 Service Unavailable")],
       Rejected (Error "503 Service Unavailable")).
Proof.
  pose proof (failures_at_the_adapter_boundary JSValue JSON.parse "" "JVBERi0=")
    as (_ & _ & Hgen & Hedit).
  split.
  - apply Hgen. reflexivity.
  - apply Hedit. reflexivity.
Defined.

(** Against C1: a reply whose text is the empty object lacks every required
    field, and [analyzePdf] hands it to the caller as the report; so does a
    reply that lacks [specs] only. *)
Lemma report_without_required_fields_is_returned :
  missing_required_field (JObject [])
  ∧ settled (analyzePdf (remote_replying (text_reply "{}")) JSValue JSON.parse
               "Analyze the attached PDF." "JVBERi0xLjQ=")
    = Fulfilled (JObject [])
  ∧ missing_required_field sample_without_specs
  ∧ settled (analyzePdf (remote_replying (text_reply (JSON.stringify sample_without_specs)))
               JSValue JSON.parse "Analyze the attached PDF." "JVBERi0xLjQ=")
    = Fulfilled sample_without_specs.
Proof.
  split; [|split; [|split]].
  - exists "specs". split; [cbn; tauto | reflexivity].
  - vm_compute. reflexivity.
  - exists "specs". split; [cbn; tauto | reflexivity].
  - vm_compute. reflexivity.
Qed.

(** C1, amended. [analyzePdf] looks at no field of the reply: whenever the
    reply text is not empty and [JSON.parse] accepts it, the parsed value
    is what the caller gets, whether or not a required field is missing;
    the call fails, with the message of [analysis_failed] and without a
    value, when the remote call fails, when the text is absent or empty,
    and when [JSON.parse] throws. *)
Theorem analyzePdf_returns_whatever_parses
    (remote : GenerateContentParameters → Promise GenerateContentResponse)
    (Value : Type) (parse : string → JSError + Value) (instructions base64Pdf : string) :
  (∀ response text v,
     remote (analyzePdf_request instructions base64Pdf) = Fulfilled response →
     response_text response = Some text →
     text ≠ "" →
     parse text = inr v →
     settled (analyzePdf remote Value parse instructions base64Pdf) = Fulfilled v)
  ∧ (∀ e,
     remote (analyzePdf_request instructions base64Pdf) = Rejected e →
     settled (analyzePdf remote Value parse instructions base64Pdf)
     = Rejected analysis_failed)
  ∧ (∀ response,
     remote (analyzePdf_request instructions base64Pdf) = Fulfilled response →
     response_text response = None ∨ response_text response = Some "" →
     settled (analyzePdf remote Value parse instructions base64Pdf)
     = Rejected analysis_failed)
  ∧ (∀ response text e,
     remote (analyzePdf_request instructions base64Pdf) = Fulfilled response →
     response_text response = Some text →
     parse text = inl e →
     settled (analyzePdf remote Value parse instructions base64Pdf)
     = Rejected analysis_failed).
Proof.
  repeat split.
  - intros response text v Hr Ht Hne Hp. rewrite analyzePdf_settled, Hr, Ht. cbn.
    destruct (String.eqb_spec text ""); [contradiction|]. cbn. rewrite Hp. reflexivity.
  - intros e Hr. rewrite analyzePdf_settled, Hr. reflexivity.
  - intros response Hr [Ht|Ht]; rewrite analyzePdf_settled, Hr, Ht; reflexivity.
  - intros response text e Hr Ht Hp. rewrite analyzePdf_settled, Hr, Ht. cbn.
    destruct (String.eqb text ""); cbn; [reflexivity|]. rewrite Hp. reflexivity.
Qed.

(** C1, amended, at four replies: a report without [specs], a remote that
    is down, an empty text, and a text that is not JSON. *)
Lemma analyzePdf_returns_whatever_parses_witness :
  settled (analyzePdf (remote_replying (text_reply (JSON.stringify sample_without_specs)))
             JSValue JSON.parse "Analyze the attached PDF." "JVBERi0xLjQ=")
  = Fulfilled sample_without_specs
  ∧ settled (analyzePdf (remote_failing (Error "503 Service Unavailable"))
               JSValue JSON.parse "Analyze the attached PDF." "JVBERi0xLjQ=")
    = Rejected analysis_failed
  ∧ settled (analyzePdf (remote_replying (text_reply ""))
               JSValue JSON.parse "Analyze the attached PDF." "JVBERi0xLjQ=")
    = Rejected analysis_failed
  ∧ settled (analyzePdf (remote_replying (text_reply "I cannot read this file."))
               JSValue JSON.parse "Analyze the attached PDF." "JVBERi0xLjQ=")
    = Rejected analysis_failed.
Proof.
  split; [|split; [|split]].
  - apply (proj1 (analyzePdf_returns_whatever_parses
                    (remote_replying (text_reply (JSON.stringify sample_without_specs)))
                    JSValue JSON.parse "Analyze the attached PDF." "JVBERi0xLjQ="))
      with (response := text_reply (JSON.stringify sample_without_specs))
           (text := JSON.stringify sample_without_specs).
    + reflexivity.
    + reflexivity.
    + vm_compute. discriminate.
    + vm_compute. reflexivity.
  - apply (proj1 (proj2 (analyzePdf_returns_whatever_parses
                    (remote_failing (Error "503 Service Unavailable"))
                    JSValue JSON.parse "Analyze the attached PDF." "JVBERi0xLjQ=")))
      with (e := Error "503 Service Unavailable").
    reflexivity.
  - apply (proj1 (proj2 (proj2 (analyzePdf_returns_whatever_parses
                    (remote_replying (text_reply ""))
                    JSValue JSON.parse "Analyze the attached PDF." "JVBERi0xLjQ="))))
      with (response := text_reply "").
    + reflexivity.
    + right. reflexivity.
  - apply (proj2 (proj2 (proj2 (analyzePdf_returns_whatever_parses
                    (remote_replying (text_reply "I cannot read this file."))
                    JSValue JSON.parse "Analyze the attached PDF." "JVBERi0xLjQ="))))
      with (response := text_reply "I cannot read this file.")
           (text := "I cannot read this file.")
           (e := SyntaxError "Unexpected token or end of JSON input").
    + reflexivity.
    + reflexivity.
    + vm_compute. reflexivity.
Defined.

(* ===================================================================== *)
(** * Properties of the upload control *)
(* ===================================================================== *)

Lemma validateAndUpload_rejects (file : File) (st : FileUpload.State) :
  file_type file ≠ "application/pdf" ∨ 20 * 1024 * 1024 < file_size file →
  ∃ msg, FileUpload.validateAndUpload file st = (FileUpload.setError (Some msg) st, [])
         ∧ msg ≠ "".
Proof.
  intros Hbad. unfold FileUpload.validateAndUpload.
  destruct (String.eqb_spec (file_type file) "application/pdf") as [Heq|Hne]; cbn.
  - destruct Hbad as [Hbad|Hbig]; [contradiction|].
    apply Z.ltb_lt in Hbig. rewrite Hbig. eexists. split; [reflexivity | discriminate].
  - eexists. split; [reflexivity | discriminate].
Qed.

Lemma validateAndUpload_accepts (file : File) (st : FileUpload.State) :
  file_type file = "application/pdf" → file_size file <= 20 * 1024 * 1024 →
  FileUpload.validateAndUpload file st = (st, [file]).
Proof.
  intros Heq Hsize. unfold FileUpload.validateAndUpload.
  rewrite Heq. cbn. apply Z.ltb_ge in Hsize. rewrite Hsize. reflexivity.
Qed.

(** C4. A file that is not a PDF, or that is larger than 20 MB, is turned
    away with a message on screen and [onFileSelect] is not called, so the
    page starts no call; a PDF within the limit is handed to [onFileSelect]
    and the page starts the analysis call. *)
Theorem upload_is_checked_before_any_call (file : File) :
  (file_type file ≠ "application/pdf" ∨ 20 * 1024 * 1024 < file_size file →
   (∀ st, ∃ msg,
      msg ≠ ""
      ∧ FileUpload.shown_message (fst (FileUpload.validateAndUpload file st)) = Some msg
      ∧ snd (FileUpload.validateAndUpload file st) = [])
   ∧ (∀ page u, Page.upload page = Some u →
      ∃ page', Page.step page (Page.DropFiles [file]) = Some page'
               ∧ Page.in_flight page' = Page.in_flight page)
   ∧ (∀ page u, Page.upload page = Some u →
      ∃ page', Page.step page (Page.InputFiles [file]) = Some page'
               ∧ Page.in_flight page' = Page.in_flight page))
  ∧ (file_type file = "application/pdf" ∧ file_size file <= 20 * 1024 * 1024 →
     (∀ st, FileUpload.validateAndUpload file st = (st, [file]))
     ∧ (∀ page u, Page.upload page = Some u →
        ∃ page', Page.step page (Page.DropFiles [file]) = Some page'
                 ∧ Page.in_flight page'
                   = (Page.in_flight page
                      ++ [{| Page.surface := Page.Preflight; Page.instance := 0 |}])%list)
     ∧ (∀ page u, Page.upload page = Some u →
        ∃ page', Page.step page (Page.InputFiles [file]) = Some page'
                 ∧ Page.in_flight page'
                   = (Page.in_flight page
                      ++ [{| Page.surface := Page.Preflight; Page.instance := 0 |}])%list)).
Proof.
  split.
  - intros Hbad. repeat split.
    + intros st. destruct (validateAndUpload_rejects file st Hbad) as (msg & -> & Hmsg).
      exists msg. repeat split; [assumption|].
      unfold FileUpload.shown_message. cbn.
      destruct (String.eqb_spec msg ""); [contradiction | reflexivity].
    + intros page u Hu. cbn. rewrite Hu. unfold FileUpload.handleDrop.
      destruct (validateAndUpload_rejects file
                  (FileUpload.setError None (FileUpload.setIsDragging false u)) Hbad)
        as (msg & -> & _).
      eexists. split; reflexivity.
    + intros page u Hu. cbn. rewrite Hu. unfold FileUpload.handleFileInput.
      destruct (validateAndUpload_rejects file (FileUpload.setError None u) Hbad)
        as (msg & -> & _).
      eexists. split; reflexivity.
  - intros [Hpdf Hsize]. repeat split.
    + intros st. apply validateAndUpload_accepts; assumption.
    + intros page u Hu. cbn. rewrite Hu. unfold FileUpload.handleDrop.
      rewrite validateAndUpload_accepts by assumption.
      eexists. split; reflexivity.
    + intros page u Hu. cbn. rewrite Hu. unfold FileUpload.handleFileInput.
      rewrite validateAndUpload_accepts by assumption.
      eexists. split; reflexivity.
Qed.

(** C4 at a 25 MB PDF, at a PNG, and at a 5 MB PDF. *)
Lemma upload_is_checked_before_any_call_witness :
  (∃ msg, msg ≠ ""
     ∧ FileUpload.shown_message
         (fst (FileUpload.validateAndUpload oversized_pdf FileUpload.initial)) = Some msg
     ∧ snd (FileUpload.validateAndUpload oversized_pdf FileUpload.initial) = [])
  ∧ (∃ msg, msg ≠ ""
     ∧ FileUpload.shown_message
         (fst (FileUpload.validateAndUpload sample_png FileUpload.initial)) = Some msg
     ∧ snd (FileUpload.validateAndUpload sample_png FileUpload.initial) = [])
  ∧ FileUpload.validateAndUpload sample_pdf FileUpload.initial
    = (FileUpload.initial, [sample_pdf]).
Proof.
  split; [|split].
  - apply (proj1 (upload_is_checked_before_any_call oversized_pdf)).
    right. vm_compute. reflexivity.
  - apply (proj1 (upload_is_checked_before_any_call sample_png)).
    left. discriminate.
  - apply (proj2 (upload_is_checked_before_any_call sample_pdf)).
    split; [reflexivity | vm_compute; discriminate].
Defined.

(* ===================================================================== *)
(** * Properties of the zone mapper and of the dashboard *)
(* ===================================================================== *)

Lemma inside_pageb_sound (r : Layout.Rect) :
  Layout.inside_pageb r = true → Layout.inside_page r.
Proof.
  unfold Layout.inside_pageb, Layout.inside_page. intros H.
  repeat (apply andb_prop in H; destruct H as [H ?]).
  repeat split; apply Qle_bool_iff; assumption.
Qed.

Lemma interiors_disjointb_sound (a b : Layout.Rect) :
  Layout.interiors_disjointb a b = true → Layout.interiors_disjoint a b.
Proof.
  unfold Layout.interiors_disjointb, Layout.interiors_disjoint. intros H.
  repeat (apply orb_prop in H; destruct H as [H|H]);
    apply Qle_bool_iff in H; auto.
Qed.

(** A name outside the ten zones falls to the [default] of the switch. *)
Lemma getZoneStyles_default (zone : string) :
  ¬ In zone visual_zones → ReportDashboard.getZoneStyles zone = "hidden".
Proof.
  intros Hout. unfold ReportDashboard.getZoneStyles.
  repeat match goal with
         | |- context [String.eqb zone ?z] =>
             destruct (String.eqb_spec zone z) as [->|_];
             [exfalso; apply Hout; cbn; tauto|]
         end.
  reflexivity.
Qed.

(** Against C2: with the preview loaded, pointing at a check that has no
    [visualZone] highlights the whole page. *)
Lemma check_without_zone_highlights_full_page :
  visualZone sample_check_without_zone = None
  ∧ shown_rect (hovering sample_check_without_zone) = Some Layout.full_page.
Proof. split; [reflexivity | vm_compute; reflexivity]. Qed.

(** C2, amended. A zone name outside the ten values maps to no overlay,
    and pointing at a check whose [visualZone] is such a name (and not the
    empty string) shows no rectangle; pointing at a check whose
    [visualZone] is absent or empty shows the full-page rectangle once the
    preview has loaded. *)
Theorem unknown_zone_hidden_absent_zone_full_page :
  (∀ zone, ¬ In zone visual_zones →
     ReportDashboard.getZoneStyles zone = "hidden" ∧ zone_rect zone = None)
  ∧ (∀ item zone uniqueId st,
       visualZone item = Some zone → zone ≠ "" → ¬ In zone visual_zones →
       shown_rect (ReportDashboard.onMouseEnter item uniqueId st) = None)
  ∧ (∀ item uniqueId st,
       visualZone item = None ∨ visualZone item = Some "" →
       ReportDashboard.pdfDoc st = true →
       shown_rect (ReportDashboard.onMouseEnter item uniqueId st)
       = Some Layout.full_page).
Proof.
  split; [|split].
  - intros zone Hout. unfold zone_rect.
    rewrite (getZoneStyles_default zone Hout). split; reflexivity.
  - intros item zone uniqueId st Hz Hne Hout.
    unfold shown_rect, ReportDashboard.overlay, ReportDashboard.onMouseEnter. cbn.
    rewrite Hz. cbn.
    destruct (String.eqb_spec zone "") as [|_]; [contradiction|].
    destruct (ReportDashboard.pdfDoc st); [|reflexivity].
    destruct (String.eqb_spec zone "") as [|_]; [contradiction|].
    rewrite (getZoneStyles_default zone Hout). reflexivity.
  - intros item uniqueId st Hz Hdoc.
    unfold shown_rect, ReportDashboard.overlay, ReportDashboard.onMouseEnter. cbn.
    rewrite Hdoc. destruct Hz as [-> | ->]; vm_compute; reflexivity.
Qed.

(** C2, amended, at three checks: a zone name that is not one of the ten,
    no zone, and the empty zone. *)
Lemma unknown_zone_hidden_absent_zone_full_page_witness :
  (ReportDashboard.getZoneStyles "UPPER_THIRD" = "hidden" ∧ zone_rect "UPPER_THIRD" = None)
  ∧ shown_rect
      (ReportDashboard.onMouseEnter
         {| category := LAYOUT; status := WARN; title := "Logo near the edge";
            description := "The logo is 2 mm from the trim line.";
            location := None; visualZone := Some "UPPER_THIRD" |}
         "WARN-0" (hovering sample_check)) = None
  ∧ shown_rect (ReportDashboard.onMouseEnter sample_check_without_zone "WARN-1"
                  (hovering sample_check))
    = Some Layout.full_page.
Proof.
  assert (Hout : ¬ In "UPPER_THIRD" visual_zones).
  { cbn. intros H. repeat (destruct H as [H|H]; [discriminate|]). exact H. }
  split; [|split].
  - apply (proj1 unknown_zone_hidden_absent_zone_full_page). exact Hout.
  - apply (proj1 (proj2 unknown_zone_hidden_absent_zone_full_page))
      with (zone := "UPPER_THIRD"); [reflexivity | discriminate | exact Hout].
  - apply (proj2 (proj2 unknown_zone_hidden_absent_zone_full_page));
      [left; reflexivity | reflexivity].
Defined.

(** C3. Each of the nine grid zones maps to exactly the cell of the 3x3
    grid its name stands for, a third of the page wide and high and inside
    the page; FULL_PAGE maps to the whole page; the rectangles of two
    different grid zones meet at most along grid lines. *)
Theorem grid_zones_map_to_grid_cells :
  (∀ zone, In zone grid_zones →
     ∃ row col,
       grid_position zone = Some (row, col)
       ∧ 0 <= row < 3 ∧ 0 <= col < 3
       ∧ zone_rect zone = Some (Layout.cell row col)
       ∧ Layout.inside_page (Layout.cell row col))
  ∧ zone_rect "FULL_PAGE" = Some Layout.full_page
  ∧ (∀ zone1 zone2 r1 r2,
       In zone1 grid_zones → In zone2 grid_zones → zone1 ≠ zone2 →
       zone_rect zone1 = Some r1 → zone_rect zone2 = Some r2 →
       Layout.interiors_disjoint r1 r2).
Proof.
  split; [|split].
  - intros zone Hin. cbn in Hin.
    repeat (destruct Hin as [<-|Hin];
            [eexists _, _; split; [reflexivity|];
             split; [lia|]; split; [lia|]; split; [vm_compute; reflexivity|];
             apply inside_pageb_sound; vm_compute; reflexivity|]).
    contradiction.
  - vm_compute. reflexivity.
  - intros zone1 zone2 r1 r2 H1 H2 Hne Hr1 Hr2. cbn in H1, H2.
    repeat (destruct H1 as [<-|H1]; [|]); try contradiction;
      repeat (destruct H2 as [<-|H2]; [|]); try contradiction;
      try congruence;
      vm_compute in Hr1, Hr2; injection Hr1 as <-; injection Hr2 as <-;
      apply interiors_disjointb_sound; vm_compute; reflexivity.
Qed.

(** C3 at the centre zone and at two neighbours. *)
Lemma grid_zones_map_to_grid_cells_witness :
  (∃ row col,
     grid_position "CENTER" = Some (row, col)
     ∧ 0 <= row < 3 ∧ 0 <= col < 3
     ∧ zone_rect "CENTER" = Some (Layout.cell row col)
     ∧ Layout.inside_page (Layout.cell row col))
  ∧ Layout.interiors_disjoint (Layout.cell 0 1) (Layout.cell 0 2).
Proof.
  split.
  - apply (proj1 grid_zones_map_to_grid_cells). cbn. tauto.
  - apply (proj2 (proj2 grid_zones_map_to_grid_cells)) with "TOP_CENTER" "TOP_RIGHT".
    + cbn. tauto.
    + cbn. tauto.
    + discriminate.
    + vm_compute. reflexivity.
    + vm_compute. reflexivity.
Defined.

(** The three groups, put side by side, hold the checks of the report. *)
Lemma groups_cover (cs : list CheckItem) :
  cs ≡ₚ filter (fun c => status c = FAIL) cs
        ++ filter (fun c => status c = WARN) cs
        ++ filter (fun c => status c = PASS) cs.
Proof.
  induction cs as [|c cs IH]; [reflexivity|].
  rewrite !filter_cons. destruct (status c) eqn:E.
  - repeat case_decide; try congruence. cbn.
    rewrite <- !Permutation_middle. constructor. exact IH.
  - repeat case_decide; try congruence. cbn.
    rewrite <- !Permutation_middle. constructor. exact IH.
  - repeat case_decide; try congruence. cbn. constructor. exact IH.
Qed.

(** C7. The FAIL, WARN and PASS groups of the dashboard partition the
    checks of the report by status, and each group lists its checks in the
    order they have in the report. *)
Theorem checksByStatus_partitions_in_order (report : PreflightReport) :
  (∀ s, ReportDashboard.checksByStatus report s
        = filter (fun c => status c = s) (checks report))
  ∧ (∀ s, sublist (ReportDashboard.checksByStatus report s) (checks report))
  ∧ (∀ s c, c ∈ ReportDashboard.checksByStatus report s
            ↔ c ∈ checks report ∧ status c = s)
  ∧ checks report
    ≡ₚ ReportDashboard.checksByStatus report FAIL
       ++ ReportDashboard.checksByStatus report WARN
       ++ ReportDashboard.checksByStatus report PASS.
Proof.
  assert (Hdef : ∀ s, ReportDashboard.checksByStatus report s
                      = filter (fun c => status c = s) (checks report)).
  { intros []; reflexivity. }
  split; [exact Hdef|]. split; [|split].
  - intros s. rewrite Hdef. apply sublist_filter.
  - intros s c. rewrite Hdef, list_elem_of_filter. tauto.
  - rewrite !Hdef. apply groups_cover.
Qed.

(** C7 at the sample report: one check in each group. *)
Lemma checksByStatus_partitions_in_order_witness :
  sublist (ReportDashboard.checksByStatus sample_report FAIL) (checks sample_report)
  ∧ checks sample_report
    ≡ₚ ReportDashboard.checksByStatus sample_report FAIL
       ++ ReportDashboard.checksByStatus sample_report WARN
       ++ ReportDashboard.checksByStatus sample_report PASS.
Proof.
  split.
  - apply (proj1 (proj2 (checksByStatus_partitions_in_order sample_report))).
  - apply (proj2 (proj2 (proj2 (checksByStatus_partitions_in_order sample_report)))).
Defined.

(* ===================================================================== *)
(** * Properties of the page: calls in flight *)
(* ===================================================================== *)

Section Counting.

Context {A : Type} (P : A → Prop) `{!∀ x, Decision (P x)}.

Lemma count_snoc (l : list A) (c : A) :
  length (filter P (l ++ [c])%list) = (length (filter P l) + (if decide (P c) then 1 else 0))%nat.
Proof.
  rewrite filter_app, length_app. f_equal.
  rewrite filter_cons, filter_nil. destruct (decide (P c)); reflexivity.
Qed.

Lemma count_delete (l : list A) (i : nat) (c : A) :
  l !! i = Some c →
  length (filter P l)
  = (length (filter P (delete i l)) + (if decide (P c) then 1 else 0))%nat.
Proof.
  revert i. induction l as [|a l IH]; intros i Hi; [discriminate|].
  destruct i as [|i]; cbn in Hi.
  - injection Hi as ->. cbn [delete list_delete]. rewrite filter_cons.
    destruct (decide (P c)); cbn [length].
    + rewrite Nat.add_1_r. reflexivity.
    + rewrite Nat.add_0_r. reflexivity.
  - cbn [delete list_delete]. rewrite !filter_cons.
    destruct (decide (P a)); cbn [length]; rewrite (IH i Hi); reflexivity.
Qed.

End Counting.

Lemma Forall_delete_call (Q : Page.Call → Prop) (l : list Page.Call) (i : nat) :
  Forall Q l → Forall Q (delete i l).
Proof.
  intros H. rewrite delete_take_drop. apply Forall_app. split.
  - apply Forall_take, H.
  - apply Forall_drop, H.
Qed.

(** An instance that has not been mounted yet has no call in flight. *)
Lemma no_call_of_unmounted (s : Page.Surface) (id : nat) (st : Page.State) :
  Forall (fun c => Page.instance c < Page.mounts st)%nat (Page.in_flight st) →
  (Page.mounts st ≤ id)%nat →
  Page.calls_of s id st = 0%nat.
Proof.
  unfold Page.calls_of. intros Hknown Hid.
  induction Hknown as [|c l Hc _ IH]; [reflexivity|].
  rewrite filter_cons. destruct (decide _) as [->|_]; [cbn in Hc; lia | exact IH].
Qed.

Lemma outstanding_start (s : Page.Surface) (c : Page.Call) (st : Page.State) :
  Page.outstanding s (Page.start c st)
  = (Page.outstanding s st + (if decide (Page.surface c = s) then 1 else 0))%nat.
Proof.
  unfold Page.outstanding. cbn.
  exact (count_snoc (fun c0 => Page.surface c0 = s) (Page.in_flight st) c).
Qed.

Lemma calls_of_start (s : Page.Surface) (id : nat) (c : Page.Call) (st : Page.State) :
  Page.calls_of s id (Page.start c st)
  = (Page.calls_of s id st
     + (if decide (c = {| Page.surface := s; Page.instance := id |}) then 1 else 0))%nat.
Proof.
  unfold Page.calls_of. cbn.
  exact (count_snoc (fun c0 => c0 = {| Page.surface := s; Page.instance := id |})
           (Page.in_flight st) c).
Qed.

Lemma outstanding_finish (s : Page.Surface) (i : nat) (c : Page.Call) (st : Page.State) :
  Page.in_flight st !! i = Some c →
  Page.outstanding s st
  = (Page.outstanding s (Page.finish i st)
     + (if decide (Page.surface c = s) then 1 else 0))%nat.
Proof.
  intros Hi. unfold Page.outstanding. cbn.
  exact (count_delete (fun c0 => Page.surface c0 = s) (Page.in_flight st) i c Hi).
Qed.

Lemma calls_of_finish (s : Page.Surface) (id i : nat) (c : Page.Call) (st : Page.State) :
  Page.in_flight st !! i = Some c →
  Page.calls_of s id st
  = (Page.calls_of s id (Page.finish i st)
     + (if decide (c = {| Page.surface := s; Page.instance := id |}) then 1 else 0))%nat.
Proof.
  intros Hi. unfold Page.calls_of. cbn.
  exact (count_delete (fun c0 => c0 = {| Page.surface := s; Page.instance := id |})
           (Page.in_flight st) i c Hi).
Qed.

(** Settling a call keeps the page consistent. *)
Lemma consistent_finish (st : Page.State) (i : nat) (c : Page.Call) :
  Page.consistent st → Page.in_flight st !! i = Some c →
  Page.consistent (Page.finish i st).
Proof.
  intros [Hm Hu Hk Hg He Ha Hb Hgs Hes] Hi.
  pose proof (outstanding_finish Page.Preflight i c st Hi) as Hout.
  constructor.
  - exact Hm.
  - exact Hu.
  - cbn. apply Forall_delete_call, Hk.
  - exact Hg.
  - exact He.
  - lia.
  - intros H. apply Hb. lia.
  - intros id g Hgen. destruct (Hgs id g Hgen) as [H1 H2].
    pose proof (calls_of_finish Page.Generation id i c st Hi). split; [lia|].
    intros H'. apply H2. lia.
  - intros id e Hed. destruct (Hes id e Hed) as [H1 H2].
    pose proof (calls_of_finish Page.Editing id i c st Hi). split; [lia|].
    intros H'. apply H2. lia.
Qed.

Lemma consistent_with_upload (st : Page.State) (u' : FileUpload.State) :
  Page.consistent st → is_Some (Page.upload st) →
  Page.consistent (Page.with_upload u' st).
Proof.
  intros [Hm Hu Hk Hg He Ha Hb Hgs Hes] Hsome.
  constructor; try assumption. intros _. apply Hu, Hsome.
Qed.

Lemma consistent_with_generator (st : Page.State) (id : nat) (g g' : ImageGenerator.State) :
  Page.consistent st → Page.generator st = Some (id, g) →
  ((1 ≤ Page.calls_of Page.Generation id st)%nat → ImageGenerator.isGenerating g' = true) →
  Page.consistent (Page.with_generator (id, g') st).
Proof.
  intros [Hm Hu Hk Hg He Ha Hb Hgs Hes] Hgen Hbusy.
  constructor; try assumption.
  - intros id0 g0 H0. cbn in H0. injection H0 as <- <-. apply (Hg id g Hgen).
  - intros id0 g0 H0. cbn in H0. injection H0 as <- <-.
    split; [apply (Hgs id g Hgen) | exact Hbusy].
Qed.

Lemma consistent_with_editor (st : Page.State) (id : nat) (e e' : ImageEditor.State) :
  Page.consistent st → Page.editor st = Some (id, e) →
  ((1 ≤ Page.calls_of Page.Editing id st)%nat → ImageEditor.isProcessing e' = true) →
  Page.consistent (Page.with_editor (id, e') st).
Proof.
  intros [Hm Hu Hk Hg He Ha Hb Hgs Hes] Hed Hbusy.
  constructor; try assumption.
  - intros id0 e0 H0. cbn in H0. injection H0 as <- <-. apply (He id e Hed).
  - intros id0 e0 H0. cbn in H0. injection H0 as <- <-.
    split; [apply (Hes id e Hed) | exact Hbusy].
Qed.

(** Starting a call from an idle instance keeps the page consistent. *)
Lemma consistent_start_generation (st : Page.State) (id : nat) (g : ImageGenerator.State) :
  Page.consistent st → Page.generator st = Some (id, g) →
  ImageGenerator.isGenerating g = true →
  Page.calls_of Page.Generation id st = 0%nat →
  Page.consistent
    (Page.start {| Page.surface := Page.Generation; Page.instance := id |} st).
Proof.
  intros [Hm Hu Hk Hg He Ha Hb Hgs Hes] Hgen Hbusy Hidle.
  constructor; try assumption.
  - cbn. apply Forall_app. split; [exact Hk|].
    constructor; [|constructor]. cbn. apply (Hg id g Hgen).
  - rewrite outstanding_start. cbn. destruct (decide _); [discriminate | lia].
  - rewrite outstanding_start. cbn. destruct (decide _); [discriminate|].
    intros H. apply Hb. lia.
  - intros id0 g0 H0. cbn in H0. rewrite Hgen in H0. injection H0 as <- <-.
    rewrite calls_of_start. destruct (decide _); [|congruence].
    split; [lia | intros _; exact Hbusy].
  - intros id0 e0 H0. rewrite calls_of_start. destruct (decide _); [discriminate|].
    destruct (Hes id0 e0 H0) as [H1 H2]. split; [lia|]. intros H. apply H2. lia.
Qed.

Lemma consistent_start_editing (st : Page.State) (id : nat) (e : ImageEditor.State) :
  Page.consistent st → Page.editor st = Some (id, e) →
  ImageEditor.isProcessing e = true →
  Page.calls_of Page.Editing id st = 0%nat →
  Page.consistent
    (Page.start {| Page.surface := Page.Editing; Page.instance := id |} st).
Proof.
  intros [Hm Hu Hk Hg He Ha Hb Hgs Hes] Hed Hbusy Hidle.
  constructor; try assumption.
  - cbn. apply Forall_app. split; [exact Hk|].
    constructor; [|constructor]. cbn. apply (He id e Hed).
  - rewrite outstanding_start. cbn. destruct (decide _); [discriminate | lia].
  - rewrite outstanding_start. cbn. destruct (decide _); [discriminate|].
    intros H. apply Hb. lia.
  - intros id0 g0 H0. rewrite calls_of_start. destruct (decide _); [discriminate|].
    destruct (Hgs id0 g0 H0) as [H1 H2]. split; [lia|]. intros H. apply H2. lia.
  - intros id0 e0 H0. cbn in H0. rewrite Hed in H0. injection H0 as <- <-.
    rewrite calls_of_start. destruct (decide _); [|congruence].
    split; [lia | intros _; exact Hbusy].
Qed.

Lemma consistent_start_analysis (st : Page.State) :
  Page.consistent st →
  Page.outstanding Page.Preflight st = 0%nat →
  App.isAnalyzing (Page.app st) = true → App.has_file (Page.app st) = true →
  Page.consistent
    (Page.start {| Page.surface := Page.Preflight; Page.instance := 0 |} st).
Proof.
  intros [Hm Hu Hk Hg He Ha Hb Hgs Hes] Hidle Hbusy Hfile.
  constructor; try assumption.
  - cbn. apply Forall_app. split; [exact Hk|].
    constructor; [|constructor]. cbn. exact Hm.
  - rewrite outstanding_start. cbn. destruct (decide _); [lia|congruence].
  - intros _. split; assumption.
  - intros id0 g0 H0. rewrite calls_of_start. destruct (decide _); [discriminate|].
    destruct (Hgs id0 g0 H0) as [H1 H2]. split; [lia|]. intros H. apply H2. lia.
  - intros id0 e0 H0. rewrite calls_of_start. destruct (decide _); [discriminate|].
    destruct (Hes id0 e0 H0) as [H1 H2]. split; [lia|]. intros H. apply H2. lia.
Qed.

(** Rendering [App] with a new state keeps the page consistent, as long as
    an analysis in flight still shows in that state. *)
Lemma consistent_render (st : Page.State) (a : App.State) :
  Page.consistent st →
  ((1 ≤ Page.outstanding Page.Preflight st)%nat →
   App.isAnalyzing a = true ∧ App.has_file a = true) →
  Page.consistent (Page.render a st).
Proof.
  intros [Hm Hu Hk Hg He Ha Hb Hgs Hes] Hbusy.
  assert (Hgrow : (Page.mounts st ≤ Page.mounts (Page.render a st))%nat).
  { cbn. repeat (destruct (_ && _)); lia. }
  constructor.
  - lia.
  - cbn. destruct (App.renders_FileUpload a); [reflexivity|].
    intros [u Hcontra]. discriminate.
  - eapply Forall_impl; [exact Hk|]. cbn beta. intros c Hc. lia.
  - intros id g. cbn.
    destruct (App.renders_ImageGenerator a); [|discriminate].
    destruct (Page.generator st) as [[id0 g0]|] eqn:Hgen.
    + intros H. injection H as <- <-. cbn. pose proof (Hg id0 g0 eq_refl).
      repeat (destruct (_ && _)); lia.
    + intros H. injection H as <- <-. cbn. repeat (destruct (_ && _)); lia.
  - intros id e. cbn.
    destruct (App.renders_ImageEditor a); [|discriminate].
    destruct (Page.editor st) as [[id0 e0]|] eqn:Hed.
    + intros H. injection H as <- <-. cbn. pose proof (He id0 e0 eq_refl).
      repeat (destruct (_ && _)); lia.
    + intros H. injection H as <- <-. cbn. repeat (destruct (_ && _)); lia.
  - exact Ha.
  - exact Hbusy.
  - intros id g Hgen'.
    change (Page.calls_of Page.Generation id (Page.render a st))
      with (Page.calls_of Page.Generation id st).
    revert Hgen'. cbn [Page.render Page.generator].
    destruct (App.renders_ImageGenerator a); [|discriminate].
    destruct (Page.generator st) as [[id0 g0]|] eqn:Hgen.
    + intros H. injection H as <- <-. apply (Hgs id0 g0 eq_refl).
    + intros H. injection H as <- <-.
      rewrite (no_call_of_unmounted _ _ st Hk) by lia. split; lia.
  - intros id e Hed'.
    change (Page.calls_of Page.Editing id (Page.render a st))
      with (Page.calls_of Page.Editing id st).
    revert Hed'. cbn [Page.render Page.editor].
    destruct (App.renders_ImageEditor a); [|discriminate].
    destruct (Page.editor st) as [[id0 e0]|] eqn:Hed.
    + intros H. injection H as <- <-. apply (Hes id0 e0 eq_refl).
    + intros H. injection H as <- <-.
      rewrite (no_call_of_unmounted _ _ st Hk) by (destruct (_ && _); lia).
      split; lia.
Qed.

Lemma validateAndUpload_calls (file : File) (u u' : FileUpload.State) (calls : list File) :
  FileUpload.validateAndUpload file u = (u', calls) → calls = [] ∨ calls = [file].
Proof.
  unfold FileUpload.validateAndUpload.
  destruct (negb _); [intros H; injection H as <- <-; left; reflexivity|].
  destruct (_ <? _); intros H; injection H as <- <-; [left | right]; reflexivity.
Qed.

Lemma handleDrop_calls (files : list File) (u u' : FileUpload.State) (calls : list File) :
  FileUpload.handleDrop files u = (u', calls) → calls = [] ∨ ∃ f, calls = [f].
Proof.
  unfold FileUpload.handleDrop. destruct files as [|f fs].
  - intros H. injection H as <- <-. left. reflexivity.
  - intros H. apply validateAndUpload_calls in H. destruct H; eauto.
Qed.

Lemma handleFileInput_calls (files : list File) (u u' : FileUpload.State) (calls : list File) :
  FileUpload.handleFileInput files u = (u', calls) → calls = [] ∨ ∃ f, calls = [f].
Proof.
  unfold FileUpload.handleFileInput. destruct files as [|f fs].
  - intros H. injection H as <- <-. left. reflexivity.
  - intros H. apply validateAndUpload_calls in H. destruct H; eauto.
Qed.

Lemma renders_reset_idle (a : App.State) :
  App.renders_reset a = true → App.isAnalyzing a = false.
Proof.
  unfold App.renders_reset, App.screen.
  destruct (App.isAnalyzing a); [|reflexivity].
  destruct (App.isCheckingKey a), (App.hasApiKey a), (App.has_report a),
    (App.has_file a), (bool_decide (App.activeTab a = App.PREFLIGHT)),
    (truthy (App.error a)), (App.dashboard_draws a); cbn; discriminate.
Qed.

Lemma renders_FileUpload_no_file (a : App.State) :
  App.renders_FileUpload a = true → App.has_file a = false.
Proof.
  unfold App.renders_FileUpload. destruct (App.has_file a); [|reflexivity].
  destruct (App.on_main a), (bool_decide (App.activeTab a = App.PREFLIGHT));
    cbn; discriminate.
Qed.

(** While the upload control is on screen no analysis is in flight. *)
Lemma upload_on_screen_idle (st : Page.State) :
  Page.consistent st → is_Some (Page.upload st) →
  Page.outstanding Page.Preflight st = 0%nat.
Proof.
  intros Hc Hsome.
  pose proof (renders_FileUpload_no_file _ (Page.upload_rendered st Hc Hsome)) as Hno.
  destruct (Page.outstanding Page.Preflight st) as [|n] eqn:E; [reflexivity|].
  destruct (Page.analysis_busy st Hc) as [_ Hfile]; [lia | congruence].
Qed.

Lemma consistent_select_files (st : Page.State) (u' : FileUpload.State) (calls : list File) :
  Page.consistent st → is_Some (Page.upload st) →
  calls = [] ∨ (∃ f, calls = [f]) →
  Page.consistent (Page.select_files calls (Page.with_upload u' st)).
Proof.
  intros Hc Hsome Hcalls.
  pose proof (upload_on_screen_idle st Hc Hsome) as Hidle.
  pose proof (consistent_with_upload st u' Hc Hsome) as Hc'.
  destruct Hcalls as [-> | [f ->]]; [exact Hc'|].
  cbn [Page.select_files fold_left].
  apply consistent_start_analysis.
  - apply consistent_render; [exact Hc'|]. intros _. split; reflexivity.
  - exact Hidle.
  - reflexivity.
  - reflexivity.
Qed.

(** Every event keeps the page consistent. *)
Lemma step_consistent (st st' : Page.State) (ev : Page.Event) :
  Page.consistent st → Page.step st ev = Some st' → Page.consistent st'.
Proof.
  intros Hc Hstep. destruct ev; cbn [Page.step] in Hstep.
  - (* KeyChecked *)
    destruct (App.isCheckingKey (Page.app st)); [|discriminate].
    injection Hstep as <-. apply consistent_render; [exact Hc|].
    apply (Page.analysis_busy st Hc).
  - (* KeySelected *)
    destruct (App.screen (Page.app st)); try discriminate.
    injection Hstep as <-. apply consistent_render; [exact Hc|].
    apply (Page.analysis_busy st Hc).
  - (* ClickTab *)
    destruct (App.on_main (Page.app st)); [|discriminate].
    injection Hstep as <-. apply consistent_render; [exact Hc|].
    apply (Page.analysis_busy st Hc).
  - (* DragOver *)
    destruct (Page.upload st) as [u|] eqn:Hu; [|discriminate].
    injection Hstep as <-. apply consistent_with_upload; [exact Hc|].
    rewrite Hu. eauto.
  - (* DragLeave *)
    destruct (Page.upload st) as [u|] eqn:Hu; [|discriminate].
    injection Hstep as <-. apply consistent_with_upload; [exact Hc|].
    rewrite Hu. eauto.
  - (* DropFiles *)
    destruct (Page.upload st) as [u|] eqn:Hu; [|discriminate].
    destruct (FileUpload.handleDrop files u) as [u' calls] eqn:Hd.
    injection Hstep as <-. apply consistent_select_files.
    + exact Hc.
    + rewrite Hu. eauto.
    + eapply handleDrop_calls, Hd.
  - (* InputFiles *)
    destruct (Page.upload st) as [u|] eqn:Hu; [|discriminate].
    destruct (FileUpload.handleFileInput files u) as [u' calls] eqn:Hd.
    injection Hstep as <-. apply consistent_select_files.
    + exact Hc.
    + rewrite Hu. eauto.
    + eapply handleFileInput_calls, Hd.
  - (* ClickReset *)
    destruct (App.renders_reset (Page.app st)) eqn:Hr; [|discriminate].
    injection Hstep as <-. apply consistent_render; [exact Hc|].
    intros Hbusy. destruct (Page.analysis_busy st Hc Hbusy) as [Hb _].
    rewrite (renders_reset_idle _ Hr) in Hb. discriminate.
  - (* TypePrompt *)
    destruct (Page.generator st) as [[id g]|] eqn:Hg; [|discriminate].
    injection Hstep as <-. eapply consistent_with_generator; [exact Hc | exact Hg |].
    apply (Page.generation_single st Hc id g Hg).
  - (* PickSize *)
    destruct (Page.generator st) as [[id g]|] eqn:Hg; [|discriminate].
    injection Hstep as <-. eapply consistent_with_generator; [exact Hc | exact Hg |].
    apply (Page.generation_single st Hc id g Hg).
  - (* ClickGenerate *)
    destruct (Page.generator st) as [[id g]|] eqn:Hg; [|discriminate].
    destruct (ImageGenerator.button_disabled g) eqn:Hbtn; [discriminate|].
    unfold ImageGenerator.button_disabled in Hbtn.
    apply orb_false_elim in Hbtn. destruct Hbtn as [Hidle Hprompt].
    destruct (Page.generation_single st Hc id g Hg) as [Hle Hbusy].
    assert (Hzero : Page.calls_of Page.Generation id st = 0%nat).
    { destruct (Page.calls_of Page.Generation id st); [reflexivity|].
      rewrite Hbusy in Hidle by lia. discriminate. }
    unfold ImageGenerator.handleGenerate in Hstep. rewrite Hprompt in Hstep.
    injection Hstep as <-.
    eapply consistent_start_generation.
    + eapply consistent_with_generator; [exact Hc | exact Hg | reflexivity].
    + reflexivity.
    + reflexivity.
    + exact Hzero.
  - (* PickImage *)
    destruct (Page.editor st) as [[id e]|] eqn:He; [|discriminate].
    destruct (ImageEditor.originalFile e) eqn:Hf; [discriminate|].
    injection Hstep as <-. eapply consistent_with_editor; [exact Hc | exact He |].
    intros Hbusy. destruct (Page.editing_single st Hc id e He) as [_ Hb].
    unfold ImageEditor.handleFileSelect. destruct files as [|f fs]; [auto|].
    destruct (negb _); cbn; auto.
  - (* TypeInstruction *)
    destruct (Page.editor st) as [[id e]|] eqn:He; [|discriminate].
    destruct (ImageEditor.originalFile e) eqn:Hf; [|discriminate].
    injection Hstep as <-. eapply consistent_with_editor; [exact Hc | exact He |].
    apply (Page.editing_single st Hc id e He).
  - (* ClickApplyEdit *)
    destruct (Page.editor st) as [[id e]|] eqn:He; [|discriminate].
    destruct (ImageEditor.originalFile e) as [f|] eqn:Hf; [|discriminate].
    destruct (ImageEditor.button_disabled e) eqn:Hbtn; [discriminate|].
    unfold ImageEditor.button_disabled in Hbtn.
    apply orb_false_elim in Hbtn. destruct Hbtn as [Hidle Hprompt].
    destruct (Page.editing_single st Hc id e He) as [Hle Hbusy].
    assert (Hzero : Page.calls_of Page.Editing id st = 0%nat).
    { destruct (Page.calls_of Page.Editing id st); [reflexivity|].
      rewrite Hbusy in Hidle by lia. discriminate. }
    unfold ImageEditor.handleEdit in Hstep. rewrite Hf, Hprompt in Hstep.
    injection Hstep as <-.
    eapply consistent_start_editing.
    + eapply consistent_with_editor; [exact Hc | exact He | reflexivity].
    + reflexivity.
    + reflexivity.
    + exact Hzero.
  - (* ClickEditorReset *)
    destruct (Page.editor st) as [[id e]|] eqn:He; [|discriminate].
    destruct (ImageEditor.originalFile e) eqn:Hf; [|discriminate].
    injection Hstep as <-. eapply consistent_with_editor; [exact Hc | exact He |].
    apply (Page.editing_single st Hc id e He).
  - (* AnalysisSettled *)
    destruct (Page.in_flight st !! i) as [[s id]|] eqn:Hi; [|discriminate].
    destruct s; try discriminate. injection Hstep as <-.
    change (Page.finish i (Page.render (App.handleFileSelect_resume outcome (Page.app st)) st))
      with (Page.render (App.handleFileSelect_resume outcome (Page.app st)) (Page.finish i st)).
    pose proof (consistent_finish st i _ Hc Hi) as Hc'.
    apply consistent_render; [exact Hc'|].
    pose proof (outstanding_finish Page.Preflight i _ st Hi) as Hout.
    pose proof (Page.analysis_single st Hc) as Hle.
    cbn [Page.surface] in Hout. destruct (decide _) as [_|Hne]; [|congruence].
    intros Hbusy. lia.
  - (* ImageSettled *)
    destruct (Page.in_flight st !! i) as [[s id]|] eqn:Hi; [|discriminate].
    pose proof (consistent_finish st i _ Hc Hi) as Hc'.
    destruct s; try discriminate; injection Hstep as <-.
    + destruct (Page.generator st) as [[id' g]|] eqn:Hg; [|exact Hc'].
      case_bool_decide as Hid; [|exact Hc']. subst id'.
      change (Page.finish i (Page.with_generator
                (id, ImageGenerator.handleGenerate_resume outcome g) st))
        with (Page.with_generator
                (id, ImageGenerator.handleGenerate_resume outcome g) (Page.finish i st)).
      eapply consistent_with_generator; [exact Hc' | exact Hg |].
      pose proof (calls_of_finish Page.Generation id i _ st Hi) as Hcount.
      destruct (decide _) as [_|Hne]; [|congruence].
      destruct (Page.generation_single st Hc id g Hg) as [Hle _]. intros Hbusy. lia.
    + destruct (Page.editor st) as [[id' e]|] eqn:He; [|exact Hc'].
      case_bool_decide as Hid; [|exact Hc']. subst id'.
      change (Page.finish i (Page.with_editor
                (id, ImageEditor.handleEdit_resume outcome e) st))
        with (Page.with_editor
                (id, ImageEditor.handleEdit_resume outcome e) (Page.finish i st)).
      eapply consistent_with_editor; [exact Hc' | exact He |].
      pose proof (calls_of_finish Page.Editing id i _ st Hi) as Hcount.
      destruct (decide _) as [_|Hne]; [|congruence].
      destruct (Page.editing_single st Hc id e He) as [Hle _]. intros Hbusy. lia.
Qed.

Lemma initial_consistent : Page.consistent Page.initial.
Proof.
  constructor; cbn; try lia; try discriminate.
  - intros [u Hu]. discriminate.
  - constructor.
Qed.

Lemma run_consistent (evs : list Page.Event) (st st' : Page.State) :
  Page.consistent st → Page.run st evs = Some st' → Page.consistent st'.
Proof.
  revert st. induction evs as [|ev evs IH]; intros st Hc Hrun; cbn in Hrun.
  - injection Hrun as <-. exact Hc.
  - destruct (Page.step st ev) as [st1|] eqn:Hstep; [|discriminate].
    apply (IH st1); [|exact Hrun]. eapply step_consistent; eassumption.
Qed.

Lemma select_files_in_flight (st : Page.State) (calls : list File) :
  calls = [] ∨ (∃ f, calls = [f]) →
  (length (Page.in_flight (Page.select_files calls st)) ≤ S (length (Page.in_flight st)))%nat.
Proof.
  intros [-> | [f ->]]; cbn; [lia|]. rewrite length_app. cbn. lia.
Qed.

(** Only an event by which the user asks for a call adds a call, and it
    adds one at most. *)
Lemma step_in_flight (st st' : Page.State) (ev : Page.Event) :
  Page.step st ev = Some st' →
  (length (Page.in_flight st')
   ≤ length (Page.in_flight st) + (if Page.is_trigger ev then 1 else 0))%nat.
Proof.
  intros Hstep. destruct ev; cbn [Page.step Page.is_trigger] in *.
  - destruct (App.isCheckingKey _); [|discriminate]. injection Hstep as <-. cbn. lia.
  - destruct (App.screen _); try discriminate. injection Hstep as <-. cbn. lia.
  - destruct (App.on_main _); [|discriminate]. injection Hstep as <-. cbn. lia.
  - destruct (Page.upload st) as [u|]; [|discriminate]. injection Hstep as <-. cbn. lia.
  - destruct (Page.upload st) as [u|]; [|discriminate]. injection Hstep as <-. cbn. lia.
  - destruct (Page.upload st) as [u|]; [|discriminate].
    destruct (FileUpload.handleDrop files u) as [u' calls] eqn:Hd.
    injection Hstep as <-.
    pose proof (select_files_in_flight (Page.with_upload u' st) calls
                  (handleDrop_calls _ _ _ _ Hd)) as H. cbn in H. lia.
  - destruct (Page.upload st) as [u|]; [|discriminate].
    destruct (FileUpload.handleFileInput files u) as [u' calls] eqn:Hd.
    injection Hstep as <-.
    pose proof (select_files_in_flight (Page.with_upload u' st) calls
                  (handleFileInput_calls _ _ _ _ Hd)) as H. cbn in H. lia.
  - destruct (App.renders_reset _); [|discriminate]. injection Hstep as <-. cbn. lia.
  - destruct (Page.generator st) as [[id g]|]; [|discriminate].
    injection Hstep as <-. cbn. lia.
  - destruct (Page.generator st) as [[id g]|]; [|discriminate].
    injection Hstep as <-. cbn. lia.
  - destruct (Page.generator st) as [[id g]|]; [|discriminate].
    destruct (ImageGenerator.button_disabled g); [discriminate|].
    destruct (ImageGenerator.handleGenerate g) as [g' [args|]];
      injection Hstep as <-; cbn; [rewrite length_app; cbn|]; lia.
  - destruct (Page.editor st) as [[id e]|]; [|discriminate].
    destruct (ImageEditor.originalFile e); [discriminate|].
    injection Hstep as <-. cbn. lia.
  - destruct (Page.editor st) as [[id e]|]; [|discriminate].
    destruct (ImageEditor.originalFile e); [|discriminate].
    injection Hstep as <-. cbn. lia.
  - destruct (Page.editor st) as [[id e]|]; [|discriminate].
    destruct (ImageEditor.originalFile e); [|discriminate].
    destruct (ImageEditor.button_disabled e); [discriminate|].
    destruct (ImageEditor.handleEdit e) as [e' [args|]];
      injection Hstep as <-; cbn; [rewrite length_app; cbn|]; lia.
  - destruct (Page.editor st) as [[id e]|]; [|discriminate].
    destruct (ImageEditor.originalFile e); [|discriminate].
    injection Hstep as <-. cbn. lia.
  - destruct (Page.in_flight st !! i) as [[[] id]|] eqn:Hi; try discriminate.
    injection Hstep as <-. cbn. rewrite length_delete by eauto. lia.
  - destruct (Page.in_flight st !! i) as [[[] id]|] eqn:Hi; try discriminate;
      injection Hstep as <-.
    + assert (Hlen : ∀ s, Page.in_flight s = Page.in_flight st →
                (length (Page.in_flight (Page.finish i s))
                 ≤ length (Page.in_flight st) + 0)%nat).
      { intros s Hs. cbn. rewrite Hs, length_delete by eauto. lia. }
      destruct (Page.generator st) as [[id' g]|]; [case_bool_decide|];
        apply Hlen; reflexivity.
    + assert (Hlen : ∀ s, Page.in_flight s = Page.in_flight st →
                (length (Page.in_flight (Page.finish i s))
                 ≤ length (Page.in_flight st) + 0)%nat).
      { intros s Hs. cbn. rewrite Hs, length_delete by eauto. lia. }
      destruct (Page.editor st) as [[id' e]|]; [case_bool_decide|];
        apply Hlen; reflexivity.
Qed.

(** When a call settles, also with a failure, it leaves the calls in
    flight and no call takes its place. *)
Lemma settle_in_flight (st st' : Page.State) (ev : Page.Event) :
  (∃ i outcome, ev = Page.AnalysisSettled i outcome)
  ∨ (∃ i outcome, ev = Page.ImageSettled i outcome) →
  Page.step st ev = Some st' →
  S (length (Page.in_flight st')) = length (Page.in_flight st).
Proof.
  intros [(i & outcome & ->) | (i & outcome & ->)] Hstep; cbn [Page.step] in Hstep.
  - destruct (Page.in_flight st !! i) as [[[] id]|] eqn:Hi; try discriminate.
    injection Hstep as <-. cbn. rewrite length_delete by eauto.
    apply lookup_lt_Some in Hi. lia.
  - assert (Hlen : ∀ s, Page.in_flight s = Page.in_flight st →
              is_Some (Page.in_flight st !! i) →
              S (length (Page.in_flight (Page.finish i s))) = length (Page.in_flight st)).
    { intros s Hs [c Hi]. cbn. rewrite Hs, length_delete by eauto.
      apply lookup_lt_Some in Hi. lia. }
    destruct (Page.in_flight st !! i) as [[[] id]|] eqn:Hi; try discriminate;
      injection Hstep as <-.
    + destruct (Page.generator st) as [[id' g]|]; [case_bool_decide|];
        apply Hlen; eauto.
    + destruct (Page.editor st) as [[id' e]|]; [case_bool_decide|];
        apply Hlen; eauto.
Qed.

(** Against C9: a generation is started, the tab is left and opened again;
    the new generator offers its button while the first call is still
    outstanding, and a second click puts a second call in flight. *)
Lemma second_generation_while_first_outstanding :
  Page.outstanding Page.Generation <$> Page.run Page.initial Page.leave_and_return
  = Some 1%nat
  ∧ Page.trigger_enabled Page.Generation <$> Page.run Page.initial Page.leave_and_return
    = Some true
  ∧ Page.outstanding Page.Generation
      <$> Page.run Page.initial (Page.leave_and_return ++ [Page.ClickGenerate])%list
    = Some 2%nat.
Proof. split; [|split]; vm_compute; reflexivity. Qed.

(** C9, amended. In every state the page can reach: the preflight surface
    has at most one call in flight and its upload control is off the screen
    while it has one; the mounted generator and the mounted editor each
    have at most one call of their own in flight and their button is
    disabled while they have one; a call is added only by a user's action on
    a trigger, one per action; and a call that settles, also with a
    failure, is not replaced by another. *)
Theorem one_call_per_mounted_instance (evs : list Page.Event) (st : Page.State) :
  Page.run Page.initial evs = Some st →
  ((Page.outstanding Page.Preflight st ≤ 1)%nat
   ∧ ((1 ≤ Page.outstanding Page.Preflight st)%nat →
      Page.trigger_enabled Page.Preflight st = false))
  ∧ (∀ id g, Page.generator st = Some (id, g) →
       (Page.calls_of Page.Generation id st ≤ 1)%nat
       ∧ ((1 ≤ Page.calls_of Page.Generation id st)%nat →
          Page.trigger_enabled Page.Generation st = false))
  ∧ (∀ id e, Page.editor st = Some (id, e) →
       (Page.calls_of Page.Editing id st ≤ 1)%nat
       ∧ ((1 ≤ Page.calls_of Page.Editing id st)%nat →
          Page.trigger_enabled Page.Editing st = false))
  ∧ (∀ ev st', Page.step st ev = Some st' →
       (length (Page.in_flight st')
        ≤ length (Page.in_flight st) + (if Page.is_trigger ev then 1 else 0))%nat)
  ∧ (∀ ev st',
       (∃ i outcome, ev = Page.AnalysisSettled i outcome)
       ∨ (∃ i outcome, ev = Page.ImageSettled i outcome) →
       Page.step st ev = Some st' →
       S (length (Page.in_flight st')) = length (Page.in_flight st)).
Proof.
  intros Hrun.
  pose proof (run_consistent evs _ _ initial_consistent Hrun) as Hc.
  split; [|split; [|split; [|split]]].
  - split; [apply (Page.analysis_single st Hc)|].
    intros Hbusy. cbn. apply bool_decide_eq_false. intros Hsome.
    rewrite (upload_on_screen_idle st Hc Hsome) in Hbusy. lia.
  - intros id g Hg. destruct (Page.generation_single st Hc id g Hg) as [Hle Hbusy].
    split; [exact Hle|]. intros H. cbn. rewrite Hg.
    unfold ImageGenerator.button_disabled. rewrite (Hbusy H). reflexivity.
  - intros id e He. destruct (Page.editing_single st Hc id e He) as [Hle Hbusy].
    split; [exact Hle|]. intros H. cbn. rewrite He.
    unfold ImageEditor.button_disabled. rewrite (Hbusy H). cbn.
    apply andb_false_r.
  - intros ev st'. apply step_in_flight.
  - intros ev st'. apply settle_in_flight.
Qed.

(** C9, amended, after the second click of the trace above: the generator
    that is mounted has one call of its own in flight and its button is
    disabled. *)
Lemma one_call_per_mounted_instance_witness :
  ∃ st id g,
    Page.run Page.initial (Page.leave_and_return ++ [Page.ClickGenerate])%list = Some st
    ∧ Page.generator st = Some (id, g)
    ∧ Page.calls_of Page.Generation id st = 1%nat
    ∧ Page.trigger_enabled Page.Generation st = false.
Proof.
  eexists _, _, _. split; [vm_compute; reflexivity|].
  split; [reflexivity|]. split; [vm_compute; reflexivity|].
  eapply (proj1 (proj2 (one_call_per_mounted_instance
                  (Page.leave_and_return ++ [Page.ClickGenerate])%list _ _))).
  - reflexivity.
  - vm_compute. lia.
Unshelve. vm_compute. reflexivity.
Defined.

(* ===================================================================== *)
(** * JSON: the fuel of [parse] never runs out *)
(* ===================================================================== *)

Lemma skip_ws_length (s : string) :
  (String.length (skip_ws s) ≤ String.length s)%nat.
Proof.
  induction s as [|c s IH]; cbn [skip_ws]; [lia|].
  destruct (is_ws c); cbn [String.length] in *; lia.
Qed.

Lemma read_digits_length (a : Z) (s : string) :
  (String.length (snd (read_digits a s)) ≤ String.length s)%nat.
Proof.
  revert a. induction s as [|c s IH]; intros a; cbn [read_digits]; [cbn; lia|].
  destruct (is_digit c); cbn [snd String.length]; [|lia].
  pose proof (IH (10 * a + (code c - 48))). lia.
Qed.

Lemma read_digits1_length (a : Z) (s : string) (z : Z) (r : string) :
  read_digits1 a s = Some (z, r) → (String.length r ≤ String.length s)%nat.
Proof.
  unfold read_digits1. destruct s as [|d s]; [discriminate|].
  destruct (is_digit d); [|discriminate].
  pose proof (read_digits_length a (String d s)) as Hlen.
  destruct (read_digits a (String d s)) as [z' r']. cbn [snd] in Hlen.
  intros H. injection H as <- <-. exact Hlen.
Qed.

Lemma read_int_length (s : string) (z : Z) (r : string) :
  read_int s = Some (z, r) → (String.length r < String.length s)%nat.
Proof.
  unfold read_int. destruct s as [|c s]; [discriminate|].
  destruct (Ascii.eqb c "0").
  - intros H. injection H as <- <-. cbn. lia.
  - destruct (is_digit c) eqn:Hd; [|discriminate].
    cbn [read_digits]. rewrite Hd.
    pose proof (read_digits_length (10 * 0 + (code c - 48)) s) as Hlen.
    destruct (read_digits _ s) as [z' r']. cbn [snd] in Hlen.
    intros H. injection H as <- <-. cbn [String.length]. lia.
Qed.

Lemma read_frac_length (m : Z) (s : string) (m' f : Z) (r : string) :
  read_frac m s = Some (m', f, r) → (String.length r ≤ String.length s)%nat.
Proof.
  unfold read_frac. destruct s as [|c s]; [intros H; injection H as <- <- <-; lia|].
  destruct (Ascii.eqb c ".").
  - destruct (read_digits1 m s) as [[z r']|] eqn:Hd; [|discriminate].
    intros H. injection H as <- <- <-. apply read_digits1_length in Hd.
    cbn [String.length]. lia.
  - intros H. injection H as <- <- <-. lia.
Qed.

Lemma read_exp_length (s : string) (e : Z) (r : string) :
  read_exp s = Some (e, r) → (String.length r ≤ String.length s)%nat.
Proof.
  unfold read_exp. destruct s as [|c s]; [intros H; injection H as <- <-; lia|].
  destruct (Ascii.eqb c "e" || Ascii.eqb c "E").
  - destruct s as [|sign s']; [discriminate|].
    destruct (Ascii.eqb sign "+").
    { intros H. apply read_digits1_length in H. cbn [String.length]. lia. }
    destruct (Ascii.eqb sign "-").
    { destruct (read_digits1 0 s') as [[e' rest]|] eqn:Hd; [|discriminate].
      intros H. injection H as <- <-. apply read_digits1_length in Hd.
      cbn [String.length]. lia. }
    intros H. apply read_digits1_length in H. cbn [String.length] in *. lia.
  - intros H. injection H as <- <-. lia.
Qed.

Lemma read_number_length (s : string) (v : JSValue) (r : string) :
  read_number s = Some (v, r) → (String.length r < String.length s)%nat.
Proof.
  unfold read_number.
  set (p := match s with
            | String c r0 => if Ascii.eqb c "-" then (true, r0) else (false, s)
            | EmptyString => (false, s)
            end).
  assert (Hp : (String.length (snd p) ≤ String.length s)%nat).
  { subst p. destruct s as [|c s]; [cbn; lia|].
    destruct (Ascii.eqb c "-"); cbn [snd String.length]; lia. }
  destruct p as [negative s1]. cbn [snd] in Hp.
  destruct (read_int s1) as [[i s2]|] eqn:Hi; [|discriminate].
  destruct (read_frac i s2) as [[[m f] s3]|] eqn:Hf; [|discriminate].
  destruct (read_exp s3) as [[e s4]|] eqn:He; [|discriminate].
  intros H. injection H as _ <-.
  apply read_int_length in Hi. apply read_frac_length in Hf. apply read_exp_length in He.
  lia.
Qed.

Lemma read_chars_length (s t r : string) :
  read_chars s = Some (t, r) → (String.length r < String.length s)%nat.
Proof.
  remember (String.length s) as n eqn:Hn. revert s t r Hn.
  induction n as [n IH] using lt_wf_ind. intros s t r Hn.
  destruct s as [|c s]; [discriminate|]. cbn [read_chars String.length] in *.
  destruct (Ascii.eqb c dquote).
  { intros H. injection H as <- <-. lia. }
  assert (Hrec : ∀ s' (f : string → string),
            (String.length s' ≤ String.length s)%nat →
            match read_chars s' with
            | Some (t0, rest) => Some (f t0, rest)
            | None => None
            end = Some (t, r) →
            (String.length r < n)%nat).
  { intros s' f Hs' H. destruct (read_chars s') as [[t0 r0]|] eqn:Hr; [|discriminate].
    injection H as <- <-.
    pose proof (IH (String.length s') ltac:(lia) s' t0 r0 eq_refl Hr). lia. }
  destruct (Ascii.eqb c backslash).
  - destruct s as [|e s1]; [discriminate|]. cbn [String.length] in *.
    repeat match goal with
           | |- (if Ascii.eqb e ?x then _ else _) = _ → _ =>
               destruct (Ascii.eqb e x);
               [apply (Hrec s1 (fun t0 => String _ t0)); lia|]
           end.
    destruct (Ascii.eqb e "u"); [|discriminate].
    destruct s1 as [|h1 [|h2 [|h3 [|h4 s2]]]]; try discriminate.
    destruct (hex4 h1 h2 h3 h4) as [u|]; [|discriminate].
    cbn [String.length] in *.
    assert (Halone : match read_chars s2 with
                     | Some (t0, rest) => Some (utf8 u t0, rest)
                     | None => None
                     end = Some (t, r) → (String.length r < n)%nat).
    { apply (Hrec s2 (utf8 u)). lia. }
    destruct (is_high_surrogate u); [|exact Halone].
    destruct (low_escape s2) as [low|]; [|exact Halone].
    destruct s2 as [|b [|x [|l1 [|l2 [|l3 [|l4 s3]]]]]]; try exact Halone.
    apply (Hrec s3 (utf8 (code_point u low))). cbn [String.length]. lia.
  - destruct (code c <? 32); [discriminate|].
    apply (Hrec s (fun t0 => String c t0)). lia.
Qed.

Lemma strip_prefix_length (p s r : string) :
  strip_prefix p s = Some r → (String.length r ≤ String.length s)%nat.
Proof.
  revert s. induction p as [|a p IH]; intros s; cbn [strip_prefix].
  - intros H. injection H as <-. lia.
  - destruct s as [|b s]; [discriminate|]. destruct (Ascii.eqb a b); [|discriminate].
    intros H. apply IH in H. cbn [String.length]. lia.
Qed.

Ltac reduce_with H := rewrite H; cbv beta match.

(** Whatever is read with some fuel is read with any fuel that is at least
    twice the number of characters read. *)
Lemma fuel_enough (n : nat) :
  (∀ s v r, parse_value n s = Some (v, r) →
     (String.length r < String.length s)%nat
     ∧ ∀ m, (2 * (String.length s - String.length r) ≤ m)%nat →
            parse_value m s = Some (v, r))
  ∧ (∀ acc s v r, parse_elements n acc s = Some (v, r) →
     (String.length r < String.length s)%nat
     ∧ ∀ m, (2 * (String.length s - String.length r) ≤ m)%nat →
            parse_elements m acc s = Some (v, r))
  ∧ (∀ acc s v r, parse_members n acc s = Some (v, r) →
     (String.length r < String.length s)%nat
     ∧ ∀ m, (2 * (String.length s - String.length r) ≤ m)%nat →
            parse_members m acc s = Some (v, r)).
Proof.
  induction n as [|n (IHv & IHe & IHm)]; [repeat split; discriminate|].
  split; [|split].
  - intros s v r H. cbn [parse_value] in H.
    pose proof (skip_ws_length s) as Hskip.
    destruct (skip_ws s) as [|c r0] eqn:Hs; [discriminate|].
    cbn [String.length] in Hskip.
    destruct (Ascii.eqb c "{") eqn:E1.
    { pose proof (skip_ws_length r0) as Hskip2.
      destruct (skip_ws r0) as [|c' r'] eqn:Hs2; [discriminate|].
      cbn [String.length] in Hskip2.
      destruct (Ascii.eqb c' "}") eqn:E2.
      - injection H as <- <-. split; [lia|]. intros m Hm. destruct m as [|m]; [lia|].
        cbn [parse_value]. reduce_with Hs. reduce_with E1. reduce_with Hs2.
        reduce_with E2. reflexivity.
      - destruct (IHm _ _ _ _ H) as [Hlen Hfuel]. cbn [String.length] in Hlen, Hfuel.
        split; [lia|]. intros m Hm. destruct m as [|m]; [lia|].
        cbn [parse_value]. reduce_with Hs. reduce_with E1. reduce_with Hs2.
        reduce_with E2. apply Hfuel. lia. }
    destruct (Ascii.eqb c "[") eqn:E2.
    { pose proof (skip_ws_length r0) as Hskip2.
      destruct (skip_ws r0) as [|c' r'] eqn:Hs2; [discriminate|].
      cbn [String.length] in Hskip2.
      destruct (Ascii.eqb c' "]") eqn:E3.
      - injection H as <- <-. split; [lia|]. intros m Hm. destruct m as [|m]; [lia|].
        cbn [parse_value]. reduce_with Hs. reduce_with E1. reduce_with E2.
        reduce_with Hs2. reduce_with E3. reflexivity.
      - destruct (IHe _ _ _ _ H) as [Hlen Hfuel]. cbn [String.length] in Hlen, Hfuel.
        split; [lia|]. intros m Hm. destruct m as [|m]; [lia|].
        cbn [parse_value]. reduce_with Hs. reduce_with E1. reduce_with E2.
        reduce_with Hs2. reduce_with E3. apply Hfuel. lia. }
    assert (Hleaf : (String.length r < S (String.length r0))%nat →
              (∀ m, parse_value (S m) s = parse_value (S n) s) →
              parse_value (S n) s = Some (v, r) →
              (String.length r < String.length s)%nat
              ∧ ∀ m, (2 * (String.length s - String.length r) ≤ m)%nat →
                     parse_value m s = Some (v, r)).
    { intros Hlen Hsame Hres. split; [lia|]. intros m Hm.
      destruct m as [|m]; [lia|]. rewrite Hsame. exact Hres. }
    assert (Hres : parse_value (S n) s = Some (v, r)).
    { cbn [parse_value]. reduce_with Hs. reduce_with E1. reduce_with E2. exact H. }
    assert (Hsame : ∀ m, parse_value (S m) s = parse_value (S n) s).
    { intros m. cbn [parse_value]. reduce_with Hs. reduce_with E1. reduce_with E2.
      reflexivity. }
    apply Hleaf; [|exact Hsame|exact Hres].
    destruct (Ascii.eqb c dquote).
    { destruct (read_chars r0) as [[t rest]|] eqn:Hr; [|discriminate].
      injection H as <- <-. apply read_chars_length in Hr. lia. }
    destruct (Ascii.eqb c "t").
    { destruct (strip_prefix "rue" r0) as [rest|] eqn:Hp; [|discriminate].
      injection H as <- <-. apply strip_prefix_length in Hp. lia. }
    destruct (Ascii.eqb c "f").
    { destruct (strip_prefix "alse" r0) as [rest|] eqn:Hp; [|discriminate].
      injection H as <- <-. apply strip_prefix_length in Hp. lia. }
    destruct (Ascii.eqb c "n").
    { destruct (strip_prefix "ull" r0) as [rest|] eqn:Hp; [|discriminate].
      injection H as <- <-. apply strip_prefix_length in Hp. lia. }
    apply read_number_length in H. cbn [String.length] in H. lia.
  - intros acc s v r H. cbn [parse_elements] in H.
    destruct (parse_value n s) as [[v1 r1]|] eqn:Hv; [|discriminate].
    destruct (IHv _ _ _ Hv) as [Hlen1 Hfuel1].
    pose proof (skip_ws_length r1) as Hskip.
    destruct (skip_ws r1) as [|c r'] eqn:Hs; [discriminate|].
    cbn [String.length] in Hskip.
    destruct (Ascii.eqb c ",") eqn:E1.
    + destruct (IHe _ _ _ _ H) as [Hlen2 Hfuel2]. split; [lia|].
      intros m Hm. destruct m as [|m]; [lia|]. cbn [parse_elements].
      rewrite (Hfuel1 m) by lia. reduce_with Hs. reduce_with E1. apply Hfuel2. lia.
    + destruct (Ascii.eqb c "]") eqn:E2; [|discriminate]. injection H as <- <-.
      split; [lia|]. intros m Hm. destruct m as [|m]; [lia|]. cbn [parse_elements].
      rewrite (Hfuel1 m) by lia. reduce_with Hs. reduce_with E1. reduce_with E2.
      reflexivity.
  - intros acc s v r H. cbn [parse_members] in H.
    pose proof (skip_ws_length s) as Hskip0.
    destruct (skip_ws s) as [|q r0] eqn:Hs0; [discriminate|].
    cbn [String.length] in Hskip0.
    destruct (Ascii.eqb q dquote) eqn:Eq; [|discriminate].
    destruct (read_chars r0) as [[k r1]|] eqn:Hk; [|discriminate].
    pose proof (read_chars_length _ _ _ Hk) as Hlenk.
    pose proof (skip_ws_length r1) as Hskip1.
    destruct (skip_ws r1) as [|colon r2] eqn:Hs1; [discriminate|].
    cbn [String.length] in Hskip1.
    destruct (Ascii.eqb colon ":") eqn:Ec; [|discriminate].
    destruct (parse_value n r2) as [[v1 r3]|] eqn:Hv; [|discriminate].
    destruct (IHv _ _ _ Hv) as [Hlen1 Hfuel1].
    pose proof (skip_ws_length r3) as Hskip.
    destruct (skip_ws r3) as [|c r'] eqn:Hs; [discriminate|].
    cbn [String.length] in Hskip.
    destruct (Ascii.eqb c ",") eqn:E1.
    + destruct (IHm _ _ _ _ H) as [Hlen2 Hfuel2]. split; [lia|].
      intros m Hm. destruct m as [|m]; [lia|]. cbn [parse_members].
      reduce_with Hs0. reduce_with Eq. reduce_with Hk. reduce_with Hs1. reduce_with Ec.
      rewrite (Hfuel1 m) by lia. reduce_with Hs. reduce_with E1. apply Hfuel2. lia.
    + destruct (Ascii.eqb c "}") eqn:E2; [|discriminate]. injection H as <- <-.
      split; [lia|]. intros m Hm. destruct m as [|m]; [lia|]. cbn [parse_members].
      reduce_with Hs0. reduce_with Eq. reduce_with Hk. reduce_with Hs1. reduce_with Ec.
      rewrite (Hfuel1 m) by lia. reduce_with Hs. reduce_with E1. reduce_with E2.
      reflexivity.
Qed.

(** [parse] gives every text the result that any amount of fuel gives. *)
Lemma parse_fuel_independent (text : string) (n : nat) (v : JSValue) (rest : string) :
  parse_value n text = Some (v, rest) → skip_ws rest = "" →
  JSON.parse text = inr v.
Proof.
  intros Hv Hrest. destruct (proj1 (fuel_enough n) _ _ _ Hv) as [_ Hfuel].
  unfold JSON.parse. rewrite Hfuel by lia. rewrite Hrest. reflexivity.
Qed.

(* ===================================================================== *)
(** * JSON: a number that is a double is read as itself *)
(* ===================================================================== *)

Lemma round_half_even_exact (w b : Z) : 0 < b → round_half_even (w * b) b = w.
Proof.
  intros Hb. unfold round_half_even.
  rewrite Z.div_mul, Z.mod_mul by lia.
  destruct (Z.ltb_spec (2 * 0) b); [reflexivity | lia].
Qed.

(** A number of units with 53 significant bits is a multiple of every
    power of two up to 52 bits below its top bit. *)
Lemma significant_53_divide (u k : Z) :
  0 < u → significant_53 u = true → 0 <= k → 2 ^ (k + 52) <= u →
  ∃ w, u = w * 2 ^ k.
Proof.
  intros Hu Hs Hk Hle. unfold significant_53 in Hs. apply Z.eqb_eq in Hs.
  apply Z.log2_le_pow2 in Hle; [|exact Hu].
  set (K := Z.max 0 (Z.log2 u - 52)) in *.
  assert (HK : k <= K) by lia.
  apply Z.mod_divide in Hs; [|apply Z.pow_nonzero; lia].
  destruct Hs as [c Hc]. exists (c * 2 ^ (K - k)).
  rewrite <- Z.mul_assoc, <- Z.pow_add_r by lia.
  replace (K - k + k) with K by lia. exact Hc.
Qed.

(** The double nearest to a double is that double. *)
Lemma nearest_exact (n d u : Z) :
  0 < d → 0 <= u → n = u * d → significant_53 u = true → nearest n d = u.
Proof.
  intros Hd Hu Hn Hs. unfold nearest, spacing.
  destruct (Z.leb_spec (Z.log2 n - Z.log2 d) 52) as [Hl|Hl].
  { rewrite Z.pow_0_r, !Z.mul_1_r. subst n. apply round_half_even_exact, Hd. }
  assert (Hnpos : 0 < n).
  { destruct (Z.lt_trichotomy n 0) as [H|[H|H]]; [|subst n|exact H].
    - rewrite (Z.log2_nonpos n) in Hl by lia. pose proof (Z.log2_nonneg d). lia.
    - rewrite H in Hl. cbn in Hl. pose proof (Z.log2_nonneg d). lia. }
  assert (Hupos : 0 < u) by nia.
  pose proof (Z.log2_spec n Hnpos) as [Hnlo Hnhi].
  pose proof (Z.log2_spec d Hd) as [Hdlo Hdhi].
  pose proof (Z.log2_nonneg d) as Hld.
  set (l := Z.log2 n - Z.log2 d) in *.
  assert (Hdiv : ∀ k, 0 <= k → 2 ^ (k + 52) <= u →
            round_half_even n (d * 2 ^ k) * 2 ^ k = u).
  { intros k Hk Hle.
    destruct (significant_53_divide u k Hupos Hs Hk Hle) as [w Hw].
    assert (Hpow : 0 < 2 ^ k) by (apply Z.pow_pos_nonneg; lia).
    replace n with (w * (d * 2 ^ k)) by (rewrite Hn, Hw; ring).
    rewrite round_half_even_exact by nia. symmetry. exact Hw. }
  destruct (Z.leb_spec (d * 2 ^ l) n) as [Ht|Ht].
  - apply Hdiv; [lia|]. replace (l - 52 + 52) with l by lia.
    rewrite Hn in Ht. nia.
  - apply Hdiv; [lia|]. replace (l - 53 + 52) with (l - 1) by lia.
    assert (Hsplit : 2 ^ Z.log2 n = 2 ^ (l - 1) * 2 ^ Z.succ (Z.log2 d)).
    { rewrite <- Z.pow_add_r by lia. f_equal. lia. }
    assert (Hp1 : 0 < 2 ^ Z.succ (Z.log2 d)) by (apply Z.pow_pos_nonneg; lia).
    assert (Hp2 : 0 < 2 ^ (l - 1)) by (apply Z.pow_pos_nonneg; lia).
    nia.
Qed.

Lemma nearest_zero (d : Z) : 0 < d → nearest 0 d = 0.
Proof.
  intros Hd. apply nearest_exact; [exact Hd | lia | ring | reflexivity].
Qed.

Lemma UNIT_pos : 0 < UNIT.
Proof. reflexivity. Qed.

(** The double nearest to a decimal that is a double. *)
Lemma units_of_decimal_exact (m e u : Z) :
  0 <= u → Grammar.decimal_is m e u UNIT → double_units u = true →
  units_of_decimal m e = u.
Proof.
  intros Hu Hdec Hdouble. unfold double_units in Hdouble.
  apply andb_prop in Hdouble. destruct Hdouble as [Hs _].
  unfold Grammar.decimal_is in Hdec. unfold units_of_decimal.
  destruct (Z.leb_spec 0 e) as [He|He].
  - apply nearest_exact; [lia | exact Hu | lia | exact Hs].
  - apply nearest_exact; [apply Z.pow_pos_nonneg; lia | exact Hu | exact Hdec | exact Hs].
Qed.

(** A numeral that writes a double is read as that double. *)
Lemma number_of_decimal_exact (negative : bool) (m e : Z) (v : JSValue) :
  Grammar.Denotes negative m e v → is_double v = true →
  number_of_decimal negative m e = v.
Proof.
  intros Hden Hdouble. unfold number_of_decimal.
  destruct v as [| |z|[|s|s u]| | |]; cbn [Grammar.Denotes] in Hden; try contradiction.
  - destruct Hden as [Hsign Hdec]. cbn [is_double] in Hdouble.
    assert (Hdec' : Grammar.decimal_is m e (Z.abs z * UNIT) UNIT).
    { unfold Grammar.decimal_is in *. destruct (0 <=? e); nia. }
    rewrite (units_of_decimal_exact m e (Z.abs z * UNIT)); [| pose proof UNIT_pos; nia
                                                          | exact Hdec' | exact Hdouble].
    unfold number_of_units. unfold double_units in Hdouble.
    apply andb_prop in Hdouble. destruct Hdouble as [_ Hlt]. apply Z.ltb_lt in Hlt.
    pose proof UNIT_pos as HU.
    destruct (Z.eqb_spec (Z.abs z * UNIT) 0) as [H0|H0].
    + assert (z = 0) as -> by nia. destruct negative; [lia | reflexivity].
    + destruct (Z.leb_spec OVERFLOW (Z.abs z * UNIT)); [lia|].
      rewrite Z.mod_mul, Z.div_mul by lia. cbn [Z.eqb].
      f_equal. destruct negative; lia.
  - destruct Hden as [-> ->].
    assert (Hz : units_of_decimal 0 e = 0).
    { unfold units_of_decimal. destruct (Z.leb_spec 0 e).
      - rewrite !Z.mul_0_l. apply nearest_zero. lia.
      - rewrite Z.mul_0_l. apply nearest_zero. apply Z.pow_pos_nonneg; lia. }
    rewrite Hz. reflexivity.
  - destruct Hden as (-> & Hfrac & Hdec). cbn [is_double] in Hdouble.
    rewrite (units_of_decimal_exact m e (Z.pos u)); [| lia | exact Hdec | exact Hdouble].
    unfold number_of_units. unfold double_units in Hdouble.
    apply andb_prop in Hdouble. destruct Hdouble as [_ Hlt]. apply Z.ltb_lt in Hlt.
    destruct (Z.eqb_spec (Z.pos u) 0); [lia|].
    destruct (Z.leb_spec OVERFLOW (Z.pos u)); [lia|].
    destruct (Z.eqb_spec (Z.pos u mod UNIT) 0); [contradiction|].
    rewrite Pos2Z.id. reflexivity.
Qed.

(* ===================================================================== *)
(** * JSON: every text of the grammar is read as the value it spells *)
(* ===================================================================== *)

Lemma append_empty_r (s : string) : s ++ "" = s.
Proof.
  induction s as [|c s IH]; [reflexivity|].
  change (String c (s ++ "") = String c s). rewrite IH. reflexivity.
Qed.

Lemma append_assoc (a b c : string) : (a ++ b) ++ c = a ++ (b ++ c).
Proof.
  induction a as [|x a IH]; [reflexivity|].
  change (String x ((a ++ b) ++ c) = String x (a ++ (b ++ c))). rewrite IH. reflexivity.
Qed.

Lemma append_cons (c : ascii) (s r : string) : String c s ++ r = String c (s ++ r).
Proof. reflexivity. Qed.

Lemma append_empty_l (s : string) : "" ++ s = s.
Proof. reflexivity. Qed.

Lemma length_append (a b : string) :
  String.length (a ++ b) = (String.length a + String.length b)%nat.
Proof.
  induction a as [|x a IH]; [reflexivity|].
  rewrite append_cons. cbn [String.length]. rewrite IH. reflexivity.
Qed.

(** Brings a text into the form the reader walks through: one character
    after the other, appends nested to the right. *)
Ltac flatten :=
  repeat (rewrite append_assoc || rewrite append_cons || rewrite append_empty_l).

(** ** White space *)

Lemma Space_is_ws (c : ascii) :
  In c [" "; "009"; "010"; "013"]%char → is_ws c = true.
Proof.
  intros H. repeat (destruct H as [<-|H]; [reflexivity|]). destruct H.
Qed.

Lemma skip_ws_Space (w s : string) : Grammar.Space w → skip_ws (w ++ s) = skip_ws s.
Proof.
  induction 1 as [|c w Hc _ IH]; [reflexivity|].
  rewrite append_cons. cbn [skip_ws]. rewrite (Space_is_ws c Hc). exact IH.
Qed.

Lemma skip_ws_idempotent (s : string) : skip_ws (skip_ws s) = skip_ws s.
Proof.
  induction s as [|c s IH]; [reflexivity|]. cbn [skip_ws].
  destruct (is_ws c) eqn:E; [exact IH|]. cbn [skip_ws]. rewrite E. reflexivity.
Qed.

Lemma parse_value_skip_ws (n : nat) (s : string) :
  parse_value n (skip_ws s) = parse_value n s.
Proof. destruct n; [reflexivity|]. cbn [parse_value]. rewrite skip_ws_idempotent. reflexivity. Qed.

Lemma parse_elements_skip_ws (n : nat) (acc : list JSValue) (s : string) :
  parse_elements n acc (skip_ws s) = parse_elements n acc s.
Proof.
  destruct n; [reflexivity|]. cbn [parse_elements]. rewrite parse_value_skip_ws. reflexivity.
Qed.

Lemma parse_members_skip_ws (n : nat) (acc : list (string * JSValue)) (s : string) :
  parse_members n acc (skip_ws s) = parse_members n acc s.
Proof.
  destruct n; [reflexivity|]. cbn [parse_members]. rewrite skip_ws_idempotent. reflexivity.
Qed.

Lemma value_end_Space (w rest : string) :
  Grammar.Space w → value_end rest = true → value_end (w ++ rest) = true.
Proof.
  intros Hw Hrest. destruct Hw as [|c w Hc _]; [exact Hrest|].
  rewrite append_cons. cbn [value_end]. rewrite (Space_is_ws c Hc). reflexivity.
Qed.

Lemma value_end_next (rest : string) :
  value_end rest = true →
  next_is_not is_digit rest = true
  ∧ next_is_not (Ascii.eqb ".") rest = true
  ∧ next_is_not is_exponent_mark rest = true.
Proof.
  destruct rest as [|c r]; [repeat split|]. cbn [value_end next_is_not].
  destruct c as [[] [] [] [] [] [] [] []]; try discriminate; repeat split.
Qed.

(** ** Numbers *)

Lemma Digit_is_digit (c : ascii) (d : Z) :
  Grammar.Digit c d → is_digit c = true ∧ code c - 48 = d.
Proof.
  intros H. unfold Grammar.Digit, Grammar.decimal_digits in H.
  repeat (destruct H as [H|H]; [injection H as <- <-; split; reflexivity|]).
  destruct H.
Qed.

Lemma read_digits_Digits (a : Z) (t : string) (n : Z) (rest : string) :
  Grammar.Digits a t n → next_is_not is_digit rest = true →
  read_digits a (t ++ rest) = (n, rest).
Proof.
  intros Hd Hrest. induction Hd as [a c d Hc|a c d t n Hc _ IH];
    destruct (Digit_is_digit c d Hc) as [Hdig Hval];
    rewrite append_cons; cbn [read_digits]; rewrite Hdig, Hval.
  - rewrite append_empty_l. destruct rest as [|c' r]; [reflexivity|].
    cbn [next_is_not] in Hrest. cbn [read_digits].
    destruct (is_digit c'); [discriminate | reflexivity].
  - exact IH.
Qed.

Lemma Digits_head (a : Z) (t : string) (n : Z) :
  Grammar.Digits a t n → ∃ c r, t = String c r ∧ is_digit c = true.
Proof.
  intros Hd. destruct Hd as [a c d Hc|a c d t n Hc _];
    destruct (Digit_is_digit c d Hc) as [Hdig _]; eauto.
Qed.

Lemma read_digits1_Digits (a : Z) (t : string) (n : Z) (rest : string) :
  Grammar.Digits a t n → next_is_not is_digit rest = true →
  read_digits1 a (t ++ rest) = Some (n, rest).
Proof.
  intros Hd Hrest. pose proof (read_digits_Digits a t n rest Hd Hrest) as Hread.
  destruct (Digits_head a t n Hd) as (c & r & -> & Hdig).
  rewrite append_cons in *. unfold read_digits1. rewrite Hdig, Hread. reflexivity.
Qed.

Lemma digit_not_mark (c : ascii) :
  is_digit c = true →
  Ascii.eqb c "-" = false ∧ Ascii.eqb c "+" = false ∧ Ascii.eqb c "." = false
  ∧ is_exponent_mark c = false.
Proof.
  destruct c as [[] [] [] [] [] [] [] []]; try discriminate; repeat split.
Qed.

Lemma read_int_Int_part (t : string) (i : Z) (rest : string) :
  Grammar.Int_part t i → next_is_not is_digit rest = true →
  read_int (t ++ rest) = Some (i, rest).
Proof.
  intros Hi Hrest. destruct Hi as [c d Hc|c d t n Hc Hnz Hd];
    destruct (Digit_is_digit c d Hc) as [Hdig Hval];
    rewrite append_cons; unfold read_int.
  - rewrite append_empty_l. destruct (Ascii.eqb_spec c "0") as [->|_].
    + cbn in Hval. subst d. reflexivity.
    + rewrite Hdig. cbn [read_digits]. rewrite Hdig, Hval.
      replace (10 * 0 + d) with d by lia.
      destruct rest as [|c' r]; [reflexivity|].
      cbn [next_is_not] in Hrest. cbn [read_digits].
      destruct (is_digit c'); [discriminate | reflexivity].
  - destruct (Ascii.eqb_spec c "0") as [->|_].
    + change (code "0" - 48) with 0 in Hval. lia.
    + rewrite Hdig. cbn [read_digits]. rewrite Hdig, Hval.
      replace (10 * 0 + d) with d by lia.
      rewrite (read_digits_Digits d t n rest Hd Hrest). reflexivity.
Qed.

Lemma read_frac_Frac_part (i : Z) (t : string) (m f : Z) (rest : string) :
  Grammar.Frac_part i t m f →
  next_is_not is_digit rest = true → next_is_not (Ascii.eqb ".") rest = true →
  read_frac i (t ++ rest) = Some (m, f, rest).
Proof.
  intros Hf Hdig Hpoint. destruct Hf as [|t m Hd].
  - rewrite append_empty_l. unfold read_frac. destruct rest as [|c r]; [reflexivity|].
    cbn [next_is_not] in Hpoint. rewrite Ascii.eqb_sym.
    destruct (Ascii.eqb "." c); [discriminate | reflexivity].
  - rewrite append_cons. unfold read_frac. change (Ascii.eqb "." ".") with true. cbv iota.
    rewrite (read_digits1_Digits i t m rest Hd Hdig), length_append.
    do 3 f_equal. lia.
Qed.

Lemma exponent_mark (c : ascii) :
  c = "e"%char ∨ c = "E"%char → Ascii.eqb c "e" || Ascii.eqb c "E" = true.
Proof. intros [-> | ->]; reflexivity. Qed.

Lemma read_exp_Exp_part (t : string) (e : Z) (rest : string) :
  Grammar.Exp_part t e →
  next_is_not is_digit rest = true → next_is_not is_exponent_mark rest = true →
  read_exp (t ++ rest) = Some (e, rest).
Proof.
  intros He Hdig Hmark. destruct He as [|c t e Hc Hd|c t e Hc Hd|c t e Hc Hd].
  - rewrite append_empty_l. unfold read_exp. destruct rest as [|c r]; [reflexivity|].
    cbn [next_is_not] in Hmark. unfold is_exponent_mark in Hmark.
    destruct (Ascii.eqb c "e" || Ascii.eqb c "E"); [discriminate | reflexivity].
  - rewrite append_cons. unfold read_exp. rewrite (exponent_mark c Hc).
    pose proof (read_digits1_Digits 0 t e rest Hd Hdig) as Hread.
    destruct (Digits_head 0 t e Hd) as (c' & r & -> & Hdig').
    rewrite append_cons in *. destruct (digit_not_mark c' Hdig') as (Hm & Hp & _).
    rewrite Hp, Hm. exact Hread.
  - rewrite !append_cons. unfold read_exp. rewrite (exponent_mark c Hc).
    change (Ascii.eqb "+" "+") with true. cbv iota.
    exact (read_digits1_Digits 0 t e rest Hd Hdig).
  - rewrite !append_cons. unfold read_exp. rewrite (exponent_mark c Hc).
    change (Ascii.eqb "-" "+") with false. change (Ascii.eqb "-" "-") with true. cbv iota.
    rewrite (read_digits1_Digits 0 t e rest Hd Hdig). reflexivity.
Qed.

Lemma Exp_part_next (t : string) (e : Z) (rest : string) :
  Grammar.Exp_part t e → value_end rest = true →
  next_is_not is_digit (t ++ rest) = true
  ∧ next_is_not (Ascii.eqb ".") (t ++ rest) = true.
Proof.
  intros He Hrest. destruct (value_end_next rest Hrest) as (H1 & H2 & _).
  destruct He as [|c t e Hc _|c t e Hc _|c t e Hc _];
    [rewrite append_empty_l; split; assumption| | |];
    rewrite append_cons; cbn [next_is_not]; destruct Hc as [-> | ->]; split; reflexivity.
Qed.

Lemma Frac_part_next (i : Z) (t : string) (m f : Z) (rest : string) :
  Grammar.Frac_part i t m f → next_is_not is_digit rest = true →
  next_is_not is_digit (t ++ rest) = true.
Proof.
  intros Hf Hrest. destruct Hf as [|t m _]; [rewrite append_empty_l; exact Hrest|].
  reflexivity.
Qed.

Lemma Int_part_head (t : string) (i : Z) :
  Grammar.Int_part t i → ∃ c r, t = String c r ∧ is_digit c = true.
Proof.
  intros Hi. destruct Hi as [c d Hc|c d t n Hc _ _];
    destruct (Digit_is_digit c d Hc) as [Hdig _]; eauto.
Qed.

(** A numeral, followed by what may follow a value, is read as the double
    nearest to the number it writes. *)
Lemma read_number_Numeral (t : string) (negative : bool) (m e : Z) (rest : string) :
  Grammar.Numeral t negative m e → value_end rest = true →
  read_number (t ++ rest) = Some (number_of_decimal negative m e, rest).
Proof.
  intros Hn Hrest. destruct Hn as [negative int frac exp i m f e Hi Hf He].
  destruct (value_end_next rest Hrest) as (Hr1 & Hr2 & Hr3).
  destruct (Exp_part_next exp e rest He Hrest) as [He1 He2].
  pose proof (Frac_part_next i frac m f (exp ++ rest) Hf He1) as Hf1.
  assert (Hbody : match read_int (int ++ frac ++ exp ++ rest) with
                  | Some (i, s2) =>
                      match read_frac i s2 with
                      | Some (m, f, s3) =>
                          match read_exp s3 with
                          | Some (e, s4) =>
                              Some (number_of_decimal negative m (e - f), s4)
                          | None => None
                          end
                      | None => None
                      end
                  | None => None
                  end = Some (number_of_decimal negative m (e - f), rest)).
  { rewrite (read_int_Int_part int i _ Hi Hf1).
    rewrite (read_frac_Frac_part i frac m f _ Hf He1 He2).
    rewrite (read_exp_Exp_part exp e rest He Hr1 Hr3). reflexivity. }
  rewrite !append_assoc. unfold read_number. destruct negative.
  - rewrite append_cons, append_empty_l. change (Ascii.eqb "-" "-") with true.
    cbv iota. exact Hbody.
  - rewrite append_empty_l.
    destruct (Int_part_head int i Hi) as (c & r & Hint & Hdig).
    destruct (digit_not_mark c Hdig) as (Hm & _).
    revert Hbody. rewrite Hint, !append_cons, Hm. intros Hbody. exact Hbody.
Qed.

(** ** Strings *)

Lemma Hex_hex_val (c : ascii) (d : Z) : Grammar.Hex c d → hex_val c = Some d.
Proof.
  intros H. unfold Grammar.Hex, Grammar.hexadecimal_digits, Grammar.decimal_digits in H.
  cbn [app] in H.
  repeat (destruct H as [H|H]; [injection H as <- <-; reflexivity|]).
  destruct H.
Qed.

Lemma hex_val_Hex (c : ascii) (d : Z) : hex_val c = Some d → Grammar.Hex c d.
Proof.
  intros H. unfold Grammar.Hex.
  destruct c as [[] [] [] [] [] [] [] []]; vm_compute in H; try discriminate H;
    injection H as <-; vm_compute; tauto.
Qed.

Lemma hex_val_not_quote (c : ascii) (d : Z) : hex_val c = Some d → c ≠ dquote.
Proof. intros H ->. discriminate H. Qed.

Lemma hex4_Some (c1 c2 c3 c4 : ascii) (u : Z) :
  hex4 c1 c2 c3 c4 = Some u →
  ∃ a b c d, hex_val c1 = Some a ∧ hex_val c2 = Some b ∧ hex_val c3 = Some c
             ∧ hex_val c4 = Some d ∧ u = ((a * 16 + b) * 16 + c) * 16 + d.
Proof.
  unfold hex4.
  destruct (hex_val c1) as [a|], (hex_val c2) as [b|], (hex_val c3) as [c|],
    (hex_val c4) as [d|]; try discriminate.
  intros H. injection H as <-. exists a, b, c, d. repeat split.
Qed.

Lemma Escape_hex4 (x : string) (u : Z) :
  Grammar.Escape x u →
  ∃ c1 c2 c3 c4,
    x = String backslash (String "u" (String c1 (String c2 (String c3 (String c4 "")))))
    ∧ hex4 c1 c2 c3 c4 = Some u.
Proof.
  intros [c1 c2 c3 c4 a b c d H1 H2 H3 H4]. exists c1, c2, c3, c4.
  split; [reflexivity|]. unfold hex4.
  rewrite (Hex_hex_val _ _ H1), (Hex_hex_val _ _ H2), (Hex_hex_val _ _ H3),
    (Hex_hex_val _ _ H4). reflexivity.
Qed.

Lemma is_high_surrogate_spec (u : Z) :
  is_high_surrogate u = true ↔ Grammar.high_surrogate u.
Proof. unfold is_high_surrogate, Grammar.high_surrogate. lia. Qed.

Lemma is_low_surrogate_spec (u : Z) :
  is_low_surrogate u = true ↔ Grammar.low_surrogate u.
Proof. unfold is_low_surrogate, Grammar.low_surrogate. lia. Qed.

(** How the reader goes on after a backslash. *)
Lemma read_chars_short (e c : ascii) (r : string) :
  In (e, c) Grammar.short_escapes →
  read_chars (String backslash (String e r))
  = match read_chars r with
    | Some (t, rest) => Some (String c t, rest)
    | None => None
    end.
Proof.
  intros H. unfold Grammar.short_escapes in H.
  repeat (destruct H as [H|H]; [injection H as <- <-; reflexivity|]).
  destruct H.
Qed.

Lemma read_chars_u (c1 c2 c3 c4 : ascii) (r2 : string) :
  read_chars (String backslash (String "u" (String c1 (String c2 (String c3 (String c4 r2))))))
  = match hex4 c1 c2 c3 c4 with
    | Some u =>
        let alone :=
          match read_chars r2 with
          | Some (t, rest) => Some (utf8 u t, rest)
          | None => None
          end in
        if is_high_surrogate u then
          match low_escape r2, r2 with
          | Some low,
            String _ (String _ (String _ (String _ (String _ (String _ r3))))) =>
              match read_chars r3 with
              | Some (t, rest) => Some (utf8 (code_point u low) t, rest)
              | None => None
              end
          | _, _ => alone
          end
        else alone
    | None => None
    end.
Proof. reflexivity. Qed.

Lemma low_escape_Some (s : string) (low : Z) :
  low_escape s = Some low →
  ∃ l1 l2 l3 l4 r,
    s = String backslash (String "u" (String l1 (String l2 (String l3 (String l4 r)))))
    ∧ hex4 l1 l2 l3 l4 = Some low ∧ is_low_surrogate low = true.
Proof.
  unfold low_escape.
  destruct s as [|b [|x [|l1 [|l2 [|l3 [|l4 r]]]]]]; try discriminate.
  destruct (Ascii.eqb_spec b backslash) as [->|]; [|discriminate].
  destruct (Ascii.eqb_spec x "u") as [->|]; [|discriminate]. cbn [andb].
  destruct (hex4 l1 l2 l3 l4) as [u|] eqn:Hhex; [|discriminate].
  destruct (is_low_surrogate u) eqn:E; [|discriminate].
  intros H. injection H as <-. exists l1, l2, l3, l4, r.
  split; [reflexivity|]. split; [exact Hhex | exact E].
Qed.

(** A string literal does not run into its closing quote: an escape that
    lies in front of the quote lies inside the literal. *)
Lemma escape_inside (t rest : string) (l1 l2 l3 l4 : ascii) (r : string) (low : Z) :
  t ++ String dquote rest
  = String backslash (String "u" (String l1 (String l2 (String l3 (String l4 r))))) →
  hex4 l1 l2 l3 l4 = Some low →
  ∃ x t', t = x ++ t' ∧ Grammar.Escape x low.
Proof.
  intros Heq Hhex.
  destruct (hex4_Some _ _ _ _ _ Hhex) as (a & b & c & d & H1 & H2 & H3 & H4 & ->).
  pose proof (hex_val_not_quote _ _ H1). pose proof (hex_val_not_quote _ _ H2).
  pose proof (hex_val_not_quote _ _ H3). pose proof (hex_val_not_quote _ _ H4).
  destruct t as [|b0 [|x0 [|k1 [|k2 [|k3 [|k4 t']]]]]];
    rewrite ?append_cons, ?append_empty_l in Heq; injection Heq; intros; subst;
    try congruence; try discriminate.
  exists (String backslash (String "u" (String l1 (String l2 (String l3 (String l4 "")))))), t'.
  split; [reflexivity|].
  constructor; apply hex_val_Hex; assumption.
Qed.

(** The characters of a string literal, up to its closing quote, are read
    as the string they write. *)
Lemma read_chars_Chars (s t rest : string) :
  Grammar.Chars s t → read_chars (t ++ String dquote rest) = Some (s, rest).
Proof.
  induction 1 as [|c s t Hc Hq Hb _ IH|e c s t He _ IH|x u s t Hx Hu _ IH
                  |x1 x2 high low s t Hx1 Hx2 Hhigh Hlow _ IH
                  |x u s t Hx Hu Hnext _ IH].
  - reflexivity.
  - rewrite append_cons. cbn [read_chars].
    destruct (Ascii.eqb_spec c dquote); [contradiction|].
    destruct (Ascii.eqb_spec c backslash); [contradiction|].
    destruct (Z.ltb_spec (code c) 32); [lia|]. rewrite IH. reflexivity.
  - rewrite !append_cons, (read_chars_short e c _ He), IH. reflexivity.
  - destruct (Escape_hex4 x u Hx) as (c1 & c2 & c3 & c4 & -> & Hhex).
    flatten. rewrite read_chars_u, Hhex. cbv zeta.
    destruct (is_high_surrogate u) eqn:E;
      [apply is_high_surrogate_spec in E; contradiction|].
    rewrite IH. reflexivity.
  - destruct (Escape_hex4 x1 high Hx1) as (c1 & c2 & c3 & c4 & -> & Hhex1).
    destruct (Escape_hex4 x2 low Hx2) as (l1 & l2 & l3 & l4 & -> & Hhex2).
    flatten. rewrite read_chars_u, Hhex1. cbv zeta.
    rewrite (proj2 (is_high_surrogate_spec high) Hhigh).
    unfold low_escape. change (Ascii.eqb backslash backslash && Ascii.eqb "u" "u") with true.
    cbv iota. rewrite Hhex2, (proj2 (is_low_surrogate_spec low) Hlow), IH.
    reflexivity.
  - destruct (Escape_hex4 x u Hx) as (c1 & c2 & c3 & c4 & -> & Hhex).
    flatten. rewrite read_chars_u, Hhex. cbv zeta.
    rewrite (proj2 (is_high_surrogate_spec u) Hu).
    destruct (low_escape (t ++ String dquote rest)) as [low|] eqn:E.
    + exfalso. destruct (low_escape_Some _ _ E) as (l1 & l2 & l3 & l4 & r & Heq & Hhex' & Hlow).
      destruct (escape_inside t rest l1 l2 l3 l4 r low Heq Hhex') as (x' & t' & Ht & Hx').
      exact (Hnext x' low t' Ht Hx' (proj1 (is_low_surrogate_spec low) Hlow)).
    + rewrite IH. reflexivity.
Qed.

(** ** Values *)

Lemma parse_value_more (n : nat) (s : string) (v : JSValue) (r : string) :
  parse_value n s = Some (v, r) →
  ∃ n0, ∀ m, (n0 ≤ m)%nat → parse_value m s = Some (v, r).
Proof.
  intros H. destruct (proj1 (fuel_enough n) _ _ _ H) as [_ Hfuel]. eauto.
Qed.

Lemma parse_elements_more (n : nat) (acc : list JSValue) (s : string) (v : JSValue)
    (r : string) :
  parse_elements n acc s = Some (v, r) →
  ∃ n0, ∀ m, (n0 ≤ m)%nat → parse_elements m acc s = Some (v, r).
Proof.
  intros H. destruct (proj1 (proj2 (fuel_enough n)) _ _ _ _ H) as [_ Hfuel]. eauto.
Qed.

Lemma parse_members_more (n : nat) (acc : list (string * JSValue)) (s : string)
    (v : JSValue) (r : string) :
  parse_members n acc s = Some (v, r) →
  ∃ n0, ∀ m, (n0 ≤ m)%nat → parse_members m acc s = Some (v, r).
Proof.
  intros H. destruct (proj2 (proj2 (fuel_enough n)) _ _ _ _ H) as [_ Hfuel]. eauto.
Qed.

Lemma parse_value_Space (n : nat) (w s : string) :
  Grammar.Space w → parse_value n (w ++ s) = parse_value n s.
Proof.
  intros Hw. rewrite <- (parse_value_skip_ws n (w ++ s)), (skip_ws_Space w s Hw).
  apply parse_value_skip_ws.
Qed.

(** How the reader goes on after the first character of a value. *)
Lemma parse_value_string (n : nat) (r : string) :
  parse_value (S n) (String dquote r)
  = match read_chars r with
    | Some (t, rest) => Some (JString t, rest)
    | None => None
    end.
Proof. reflexivity. Qed.

Lemma parse_value_array (n : nat) (r : string) :
  parse_value (S n) (String "[" r)
  = match skip_ws r with
    | String c' r' =>
        if Ascii.eqb c' "]" then Some (JArray [], r')
        else parse_elements n [] (String c' r')
    | EmptyString => None
    end.
Proof. reflexivity. Qed.

Lemma parse_value_object (n : nat) (r : string) :
  parse_value (S n) (String "{" r)
  = match skip_ws r with
    | String c' r' =>
        if Ascii.eqb c' "}" then Some (JObject [], r')
        else parse_members n [] (String c' r')
    | EmptyString => None
    end.
Proof. reflexivity. Qed.

Lemma parse_value_number (n : nat) (c : ascii) (r : string) :
  c = "-"%char ∨ is_digit c = true →
  parse_value (S n) (String c r) = read_number (String c r).
Proof.
  intros H.
  destruct c as [[] [] [] [] [] [] [] []];
    try (destruct H as [H|H]; discriminate H); reflexivity.
Qed.

(** A value does not start with a closing bracket. *)
Lemma parse_value_start (n : nat) (s : string) (v : JSValue) (r : string) :
  parse_value n s = Some (v, r) →
  ∃ c r0, skip_ws s = String c r0
          ∧ Ascii.eqb c "]" = false ∧ Ascii.eqb c "}" = false.
Proof.
  destruct n as [|n]; [discriminate|]. cbn [parse_value].
  destruct (skip_ws s) as [|c r0]; [discriminate|].
  intros H. exists c, r0. split; [reflexivity|].
  split.
  - destruct (Ascii.eqb_spec c "]") as [->|]; [discriminate H | reflexivity].
  - destruct (Ascii.eqb_spec c "}") as [->|]; [discriminate H | reflexivity].
Qed.

Lemma parse_elements_start (n : nat) (acc : list JSValue) (s : string) (v : JSValue)
    (r : string) :
  parse_elements n acc s = Some (v, r) →
  ∃ c r0, skip_ws s = String c r0 ∧ Ascii.eqb c "]" = false.
Proof.
  destruct n as [|n]; [discriminate|]. cbn [parse_elements].
  destruct (parse_value n s) as [[v1 r1]|] eqn:Hv; [|discriminate].
  intros _. destruct (parse_value_start n s v1 r1 Hv) as (c & r0 & Hs & Hc & _).
  eauto.
Qed.

Lemma parse_members_start (n : nat) (acc : list (string * JSValue)) (s : string)
    (v : JSValue) (r : string) :
  parse_members n acc s = Some (v, r) →
  ∃ c r0, skip_ws s = String c r0 ∧ Ascii.eqb c "}" = false.
Proof.
  destruct n as [|n]; [discriminate|]. cbn [parse_members].
  destruct (skip_ws s) as [|q r0]; [discriminate|].
  destruct (Ascii.eqb_spec q dquote) as [->|]; [|discriminate].
  intros _. eauto.
Qed.

Lemma Numeral_head (t : string) (negative : bool) (m e : Z) :
  Grammar.Numeral t negative m e →
  ∃ c r, t = String c r ∧ (c = "-"%char ∨ is_digit c = true).
Proof.
  intros [neg int frac exp i m' f e' Hi _ _]. destruct neg.
  - rewrite append_cons. eauto.
  - rewrite append_empty_l. destruct (Int_part_head int i Hi) as (c & r & -> & Hdig).
    rewrite append_cons. eauto.
Qed.

Lemma distinct_middle (l1 l2 : list string) (k : string) :
  distinct (l1 ++ k :: l2) = true → existsb (String.eqb k) l1 = false.
Proof.
  induction l1 as [|a l1 IH]; [reflexivity|].
  cbn [app distinct existsb]. intros H. apply andb_prop in H. destruct H as [Ha Hd].
  rewrite (IH Hd), orb_false_r.
  destruct (String.eqb_spec k a) as [->|]; [|reflexivity].
  rewrite existsb_app in Ha. cbn [existsb] in Ha.
  rewrite String.eqb_refl, orb_true_r in Ha. discriminate.
Qed.

Lemma set_property_fresh (k : string) (v : JSValue) (acc : list (string * JSValue)) :
  existsb (String.eqb k) (map fst acc) = false →
  set_property k v acc = (acc ++ [(k, v)])%list.
Proof.
  induction acc as [|[k' v'] acc IH]; [reflexivity|].
  cbn [map fst existsb set_property app]. intros H.
  apply orb_false_elim in H. destruct H as [Hk Hacc].
  rewrite Hk, (IH Hacc). reflexivity.
Qed.

Lemma skip_ws_to (w : string) (c : ascii) (r : string) :
  Grammar.Space w → is_ws c = false → skip_ws (w ++ String c r) = String c r.
Proof.
  intros Hw Hc. rewrite (skip_ws_Space w _ Hw). cbn [skip_ws]. rewrite Hc. reflexivity.
Qed.

(** One member, up to the comma or the bracket behind it. *)
Lemma parse_member (n : nat) (w1 k kt w2 w3 : string) (v : JSValue) (t w4 : string)
    (c : ascii) (rest : string) (acc : list (string * JSValue)) :
  Grammar.Space w1 → Grammar.Chars k kt → Grammar.Space w2 → Grammar.Space w3 →
  Grammar.Space w4 → is_ws c = false →
  parse_value n (t ++ w4 ++ String c rest) = Some (v, w4 ++ String c rest) →
  parse_members (S n) acc
    (w1 ++ String dquote (kt ++ String dquote
       (w2 ++ String ":" (w3 ++ t ++ w4 ++ String c rest))))
  = if Ascii.eqb c "," then parse_members n (set_property k v acc) rest
    else if Ascii.eqb c "}" then Some (JObject (set_property k v acc), rest)
    else None.
Proof.
  intros Hw1 Hk Hw2 Hw3 Hw4 Hc Hv. cbn [parse_members].
  rewrite (skip_ws_to w1 dquote _ Hw1 eq_refl).
  change (Ascii.eqb dquote dquote) with true. cbv iota.
  rewrite (read_chars_Chars k kt _ Hk).
  rewrite (skip_ws_to w2 ":" _ Hw2 eq_refl).
  change (Ascii.eqb ":" ":") with true. cbv iota.
  rewrite (parse_value_Space n w3 _ Hw3), Hv.
  rewrite (skip_ws_to w4 c rest Hw4 Hc). reflexivity.
Qed.

(** One element, up to the comma or the bracket behind it. *)
Lemma parse_element (n : nat) (w1 : string) (v : JSValue) (t w2 : string)
    (c : ascii) (rest : string) (acc : list JSValue) :
  Grammar.Space w1 → Grammar.Space w2 → is_ws c = false →
  parse_value n (t ++ w2 ++ String c rest) = Some (v, w2 ++ String c rest) →
  parse_elements (S n) acc (w1 ++ t ++ w2 ++ String c rest)
  = if Ascii.eqb c "," then parse_elements n (acc ++ [v])%list rest
    else if Ascii.eqb c "]" then Some (JArray (acc ++ [v])%list, rest)
    else None.
Proof.
  intros Hw1 Hw2 Hc Hv. cbn [parse_elements].
  rewrite (parse_value_Space n w1 _ Hw1), Hv.
  rewrite (skip_ws_to w2 c rest Hw2 Hc). reflexivity.
Qed.

Lemma doubles_cons (k : string) (v : JSValue) (ps : list (string * JSValue)) :
  numbers_are_doubles (JObject ((k, v) :: ps)) = true →
  numbers_are_doubles v = true ∧ numbers_are_doubles (JObject ps) = true.
Proof. cbn [numbers_are_doubles]. intros H. apply andb_prop in H. exact H. Qed.

(** The reader reads every text of the grammar as the value it spells, as
    long as the numbers it writes are doubles. *)
Lemma reads_what_is_spelled :
  (∀ v t, Grammar.Spells v t →
     numbers_are_doubles v = true →
     ∀ rest, value_end rest = true →
       ∃ n, parse_value n (t ++ rest) = Some (v, rest))
  ∧ (∀ vs t, Grammar.Elements vs t →
       forallb numbers_are_doubles vs = true →
       ∀ acc rest,
         ∃ n, parse_elements n acc (t ++ String "]" rest)
              = Some (JArray (acc ++ vs), rest))
  ∧ (∀ ps t, Grammar.Members ps t →
       numbers_are_doubles (JObject ps) = true →
       ∀ acc rest,
         distinct (map fst acc ++ map fst ps) = true →
         ∃ n, parse_members n acc (t ++ String "}" rest)
              = Some (JObject (acc ++ ps), rest)).
Proof.
  apply Grammar.Spells_Elements_Members.
  - intros _ rest _. exists 1%nat. reflexivity.
  - intros _ rest _. exists 1%nat. reflexivity.
  - intros _ rest _. exists 1%nat. reflexivity.
  - intros t negative m e v Hn Hden Hdouble rest Hrest. exists 1%nat.
    assert (Hd : is_double v = true).
    { destruct v as [| |z|f| | |]; cbn [Grammar.Denotes] in Hden;
        try contradiction; exact Hdouble. }
    pose proof (read_number_Numeral t negative m e rest Hn Hrest) as Hread.
    destruct (Numeral_head t negative m e Hn) as (c & r & -> & Hc).
    rewrite append_cons in *. rewrite (parse_value_number 0 c _ Hc), Hread.
    rewrite (number_of_decimal_exact negative m e v Hden Hd). reflexivity.
  - intros s t Hc _ rest _. exists 1%nat. flatten.
    rewrite parse_value_string, (read_chars_Chars s t rest Hc). reflexivity.
  - intros w Hw _ rest _. exists 1%nat. flatten.
    rewrite parse_value_array, (skip_ws_to w "]" rest Hw eq_refl). reflexivity.
  - intros vs t _ IH Hdouble rest _.
    destruct (IH Hdouble [] rest) as [n Hn]. exists (S n). flatten.
    rewrite parse_value_array.
    destruct (parse_elements_start _ _ _ _ _ Hn) as (c & r0 & Hs & Hc).
    rewrite Hs, Hc, <- Hs, parse_elements_skip_ws. exact Hn.
  - intros w Hw _ rest _. exists 1%nat. flatten.
    rewrite parse_value_object, (skip_ws_to w "}" rest Hw eq_refl). reflexivity.
  - intros ps t _ IH Hdist Hdouble rest _.
    destruct (IH Hdouble [] rest Hdist) as [n Hn]. exists (S n). flatten.
    rewrite parse_value_object.
    destruct (parse_members_start _ _ _ _ _ Hn) as (c & r0 & Hs & Hc).
    rewrite Hs, Hc, <- Hs, parse_members_skip_ws. exact Hn.
  - intros w1 v t w2 Hw1 _ IH Hw2 Hdouble acc rest.
    cbn [forallb] in Hdouble. rewrite andb_true_r in Hdouble.
    destruct (IH Hdouble (w2 ++ String "]" rest)) as [n Hn];
      [apply value_end_Space; [exact Hw2 | reflexivity]|].
    exists (S n). flatten.
    rewrite (parse_element n w1 v t w2 "]" rest acc Hw1 Hw2 eq_refl Hn). reflexivity.
  - intros w1 v t w2 vs ts Hw1 _ IHv Hw2 _ IHe Hdouble acc rest.
    cbn [forallb] in Hdouble. apply andb_prop in Hdouble. destruct Hdouble as [Hv Hvs].
    destruct (IHv Hv (w2 ++ String "," (ts ++ String "]" rest))) as [n1 Hn1];
      [apply value_end_Space; [exact Hw2 | reflexivity]|].
    destruct (IHe Hvs (acc ++ [v])%list rest) as [n2 Hn2].
    destruct (parse_value_more _ _ _ _ Hn1) as [m1 Hm1].
    destruct (parse_elements_more _ _ _ _ _ Hn2) as [m2 Hm2].
    exists (S (Nat.max m1 m2)). flatten.
    rewrite (parse_element (Nat.max m1 m2) w1 v t w2 "," _ acc Hw1 Hw2 eq_refl
               (Hm1 _ (Nat.le_max_l m1 m2))).
    change (Ascii.eqb "," ",") with true. cbv iota.
    rewrite (Hm2 _ (Nat.le_max_r m1 m2)), <- app_assoc. reflexivity.
  - intros w1 k kt w2 w3 v t w4 Hw1 Hk Hw2 Hw3 _ IH Hw4 Hdouble acc rest Hdist.
    apply doubles_cons in Hdouble. destruct Hdouble as [Hv _].
    destruct (IH Hv (w4 ++ String "}" rest)) as [n Hn];
      [apply value_end_Space; [exact Hw4 | reflexivity]|].
    exists (S n). flatten.
    rewrite (parse_member n w1 k kt w2 w3 v t w4 "}" rest acc
               Hw1 Hk Hw2 Hw3 Hw4 eq_refl Hn).
    change (Ascii.eqb "}" ",") with false. change (Ascii.eqb "}" "}") with true.
    cbv iota. cbn [map fst] in Hdist.
    rewrite (set_property_fresh k v acc (distinct_middle _ _ _ Hdist)). reflexivity.
  - intros w1 k kt w2 w3 v t w4 ps ts Hw1 Hk Hw2 Hw3 _ IHv Hw4 _ IHm Hdouble acc rest Hdist.
    apply doubles_cons in Hdouble. destruct Hdouble as [Hv Hps].
    cbn [map fst] in Hdist.
    pose proof (set_property_fresh k v acc (distinct_middle _ _ _ Hdist)) as Hset.
    destruct (IHv Hv (w4 ++ String "," (ts ++ String "}" rest))) as [n1 Hn1];
      [apply value_end_Space; [exact Hw4 | reflexivity]|].
    destruct (IHm Hps (acc ++ [(k, v)])%list rest) as [n2 Hn2].
    { rewrite map_app, <- app_assoc. exact Hdist. }
    destruct (parse_value_more _ _ _ _ Hn1) as [m1 Hm1].
    destruct (parse_members_more _ _ _ _ _ Hn2) as [m2 Hm2].
    exists (S (Nat.max m1 m2)). flatten.
    rewrite (parse_member (Nat.max m1 m2) w1 k kt w2 w3 v t w4 "," _ acc
               Hw1 Hk Hw2 Hw3 Hw4 eq_refl (Hm1 _ (Nat.le_max_l m1 m2))).
    change (Ascii.eqb "," ",") with true. cbv iota.
    rewrite Hset, (Hm2 _ (Nat.le_max_r m1 m2)), <- app_assoc. reflexivity.
Qed.

(** [JSON.parse] returns the value that the text spells. *)
Lemma parse_Text (v : JSValue) (text : string) :
  Grammar.Text v text → numbers_are_doubles v = true → JSON.parse text = inr v.
Proof.
  intros (w1 & t & w2 & Hw1 & Hs & Hw2 & ->) Hdouble.
  destruct (proj1 reads_what_is_spelled v t Hs Hdouble (w2 ++ "")) as [n Hn].
  { apply value_end_Space; [exact Hw2 | reflexivity]. }
  apply (parse_fuel_independent _ n v (w2 ++ "")).
  - rewrite (parse_value_Space n w1 _ Hw1). rewrite append_empty_r in *. exact Hn.
  - rewrite (skip_ws_Space w2 "" Hw2). reflexivity.
Qed.

Lemma Spells_not_empty (v : JSValue) (t : string) : Grammar.Spells v t → t ≠ "".
Proof.
  intros H. destruct H; try discriminate.
  destruct (Numeral_head _ _ _ _ H) as (c & r & -> & _). discriminate.
Qed.

Lemma Text_not_empty (v : JSValue) (text : string) : Grammar.Text v text → text ≠ "".
Proof.
  intros (w1 & t & w2 & _ & Hs & _ & ->). apply Spells_not_empty in Hs.
  destruct w1; [|discriminate]. destruct t; [contradiction | discriminate].
Qed.


(* ===================================================================== *)
(** * JSON: digits that are written are read back *)
(* ===================================================================== *)

Lemma digit_char (d : Z) :
  0 <= d < 10 →
  code (char_of (48 + d)) = 48 + d ∧ is_digit (char_of (48 + d)) = true.
Proof.
  intros Hd.
  assert (H : d = 0 ∨ d = 1 ∨ d = 2 ∨ d = 3 ∨ d = 4 ∨ d = 5 ∨ d = 6 ∨ d = 7
              ∨ d = 8 ∨ d = 9) by lia.
  repeat (destruct H as [-> | H]; [split; reflexivity|]). subst d. split; reflexivity.
Qed.

Lemma read_digits_digits (fuel : nat) (n : Z) (acc : string) :
  0 <= n < 10 ^ Z.of_nat fuel →
  read_digits 0 (digits fuel n acc) = read_digits n acc.
Proof.
  revert n acc. induction fuel as [|fuel IH]; intros n acc Hn.
  - cbn in Hn. assert (n = 0) as -> by lia. reflexivity.
  - cbn [digits]. destruct (Z.ltb_spec n 10) as [Hlt|Hge].
    + destruct (digit_char n) as [Hcode Hdig]; [lia|].
      cbn [read_digits]. rewrite Hdig, Hcode. f_equal. lia.
    + rewrite Nat2Z.inj_succ, Z.pow_succ_r in Hn by lia.
      rewrite IH by (split; [apply Z.div_pos; lia | apply Z.div_lt_upper_bound; lia]).
      destruct (digit_char (n mod 10)) as [Hcode Hdig];
        [apply Z.mod_pos_bound; lia|].
      cbn [read_digits]. rewrite Hdig, Hcode. f_equal.
      pose proof (Z.div_mod n 10). lia.
Qed.

Lemma write_nat_fuel (n : Z) :
  0 <= n → n < 10 ^ Z.of_nat (S (Z.to_nat (Z.log2 n))).
Proof.
  intros Hn. rewrite Nat2Z.inj_succ, Z2Nat.id by apply Z.log2_nonneg.
  destruct (Z.eq_dec n 0) as [->|Hne]; [reflexivity|].
  pose proof (Z.log2_spec n ltac:(lia)) as [_ Hlt].
  pose proof (Z.log2_nonneg n).
  eapply Z.lt_le_trans; [exact Hlt|].
  apply Z.pow_le_mono_l. lia.
Qed.

(* ===================================================================== *)
(** * Properties of the report contract *)
(* ===================================================================== *)

(** A check of the data model, as a JS value, has the shape the schema
    asks of a check. *)
Lemma check_conforms (c : CheckItem) (sch : Schema) :
  check_in_model c → check_schema = Some sch →
  conforms sch (CheckItem_to_js c) = true
  ∧ (nonempty_string (get "title" (CheckItem_to_js c))
     && nonempty_string (get "description" (CheckItem_to_js c))) = true.
Proof.
  intros (Ht & Hd & Hz) Hsch. injection Hsch as <-. split.
  - destruct c as [cat st t d [loc|] [zone|]]; cbn in Hz |- *;
      destruct cat, st; cbn;
      try reflexivity;
      repeat (destruct Hz as [<- | Hz]; [reflexivity|]); contradiction.
  - destruct c as [cat st t d loc zone]; cbn in *.
    destruct (String.eqb_spec t ""), (String.eqb_spec d ""); try contradiction.
    reflexivity.
Qed.

Lemma checks_conform (cs : list CheckItem) (sch : Schema) :
  Forall check_in_model cs → check_schema = Some sch →
  forallb (conforms sch) (map CheckItem_to_js cs) = true
  ∧ forallb (fun c => nonempty_string (get "title" c)
                      && nonempty_string (get "description" c))
      (map CheckItem_to_js cs) = true.
Proof.
  intros Hcs Hsch. induction Hcs as [|c cs Hc _ (IH2 & IH3)].
  - repeat split.
  - destruct (check_conforms c sch Hc Hsch) as (H2 & H3).
    cbn [map forallb]. rewrite H2, H3, IH2, IH3. repeat split.
Qed.

Ltac leb_true :=
  repeat match goal with
         | |- context [?a <=? ?b] =>
             rewrite (proj2 (Z.leb_le a b)) by (unfold MAX_SAFE_INTEGER in *; lia)
         end.

(** A report of the data model, as a JS value, satisfies the schema. *)
Lemma report_satisfies_schema (r : PreflightReport) :
  report_in_model r → satisfies_schema (PreflightReport_to_js r).
Proof.
  intros (Hscore & Hpages & Hchecks).
  destruct (checks_conform (checks r) _ Hchecks eq_refl) as (Hconf & Hne).
  destruct r as [score sum verdict cs [pages dims profile marks]].
  cbn [overallScore specs pageCount checks] in *.
  split.
  - cbn. rewrite !andb_true_r.
    assert (Hv : existsb (String.eqb (Verdict_value verdict))
                   ["READY_FOR_PRINT"; "NEEDS_REVIEW"; "DO_NOT_PRINT"] = true)
      by (destruct verdict; reflexivity).
    cbn in Hv. rewrite Hv. exact Hconf.
  - unfold within_limits. cbn -[Z.leb]. leb_true. exact Hne.
Qed.

(** An integer up to [MAX_SAFE_INTEGER] is a double. *)
Lemma safe_integer_is_double (z : Z) :
  Z.abs z <= MAX_SAFE_INTEGER → is_double (JNumber z) = true.
Proof.
  intros Hz. cbn [is_double]. unfold double_units. set (a := Z.abs z) in *.
  assert (Ha : 0 <= a) by (subst a; lia).
  assert (Hlt : a < 2 ^ 53) by (unfold MAX_SAFE_INTEGER in Hz; lia).
  apply andb_true_intro. split.
  - unfold significant_53. apply Z.eqb_eq.
    destruct (Z.eq_dec a 0) as [->|Hne]; [reflexivity|].
    unfold UNIT. rewrite Z.log2_mul_pow2 by lia.
    assert (Hlog : Z.log2 a < 53) by (apply Z.log2_lt_pow2; lia).
    pose proof (Z.log2_nonneg a) as Hnn.
    set (K := Z.max 0 (1074 + Z.log2 a - 52)).
    assert (HK : 0 <= K <= 1074) by (subst K; lia).
    replace (2 ^ 1074) with (2 ^ (1074 - K) * 2 ^ K)
      by (rewrite <- Z.pow_add_r by lia; f_equal; lia).
    rewrite Z.mul_assoc. apply Z.mod_mul. apply Z.pow_nonzero; lia.
  - apply Z.ltb_lt. unfold UNIT, OVERFLOW.
    replace (2 ^ 2098) with (2 ^ 1024 * 2 ^ 1074) by (rewrite <- Z.pow_add_r by lia; reflexivity).
    apply Z.mul_lt_mono_pos_r; [apply Z.pow_pos_nonneg; lia|].
    eapply Z.lt_trans; [exact Hlt|]. apply Z.pow_lt_mono_r; lia.
Qed.

(** The numbers of a report of the data model are doubles. *)
Lemma report_numbers_are_doubles (r : PreflightReport) :
  report_in_model r → numbers_are_doubles (PreflightReport_to_js r) = true.
Proof.
  intros (Hscore & Hpages & _).
  destruct r as [score sum verdict cs [pages dims profile marks]].
  cbn [overallScore specs pageCount checks] in *.
  cbn [PreflightReport_to_js DocumentSpecs_to_js numbers_are_doubles
       overallScore summary finalVerdict specs checks pageCount detectedDimensions
       colorProfileEstimate hasCropMarks].
  rewrite (safe_integer_is_double score) by (unfold MAX_SAFE_INTEGER; lia).
  rewrite (safe_integer_is_double pages) by (unfold MAX_SAFE_INTEGER in *; lia).
  cbn [is_double andb]. rewrite andb_true_r.
  induction cs as [|c cs IH]; [reflexivity|].
  cbn [map forallb]. rewrite IH, andb_true_r.
  destruct c as [cat st t d [loc|] [zone|]]; reflexivity.
Qed.

(** Different reports are different JS values: every field shows. *)
Lemma CheckItem_to_js_inj (c1 c2 : CheckItem) :
  CheckItem_to_js c1 = CheckItem_to_js c2 → c1 = c2.
Proof.
  destruct c1 as [cat1 st1 t1 d1 [l1|] [z1|]], c2 as [cat2 st2 t2 d2 [l2|] [z2|]];
    cbn; intros H; injection H; intros; subst;
    try discriminate;
    destruct cat1, cat2; try discriminate;
    destruct st1, st2; try discriminate; reflexivity.
Qed.

Lemma PreflightReport_to_js_inj (r1 r2 : PreflightReport) :
  PreflightReport_to_js r1 = PreflightReport_to_js r2 → r1 = r2.
Proof.
  destruct r1 as [s1 m1 v1 cs1 [p1 dd1 cp1 h1]], r2 as [s2 m2 v2 cs2 [p2 dd2 cp2 h2]].
  cbn. intros H. injection H as Hs Hm Hv Hp Hdd Hcp Hh Hcs. subst.
  assert (cs1 = cs2) as ->.
  { revert cs2 Hcs. induction cs1 as [|c cs1 IH]; intros [|c' cs2] Hcs;
      try discriminate; [reflexivity|].
    pose proof (f_equal (hd JNull) Hcs) as Hc.
    pose proof (f_equal (@tl JSValue) Hcs) as Htl.
    cbn [map hd tl] in Hc, Htl.
    apply CheckItem_to_js_inj in Hc. subst c'. f_equal. apply IH. exact Htl. }
  destruct v1, v2; try discriminate; reflexivity.
Qed.

(** ** A given text spells a given value *)

(** The steps by which a text is taken apart along the grammar.  Where a
    step needs to know how the text divides, it is told; what is left of
    the text is worked out. *)

Ltac in_list := solve [repeat (first [left; reflexivity | right])].

Ltac spaces :=
  repeat (first [ apply Grammar.space_none
                | apply Grammar.space_more; [in_list|] ]).

Ltac chars :=
  repeat (first [ apply Grammar.chars_none
                | apply Grammar.chars_plain;
                  [apply Z.leb_le; reflexivity | discriminate | discriminate |]
                | apply Grammar.chars_short; [in_list|] ]).

Ltac digit := unfold Grammar.Digit, Grammar.decimal_digits; in_list.

Ltac digits :=
  first [ eapply Grammar.digits_last; digit
        | eapply Grammar.digits_more; [digit | digits] ].

Lemma Numeral_parts (negative : bool) (int frac exp : string) (i m f e : Z)
    (text : string) :
  text = (if negative then "-" else "") ++ int ++ frac ++ exp →
  Grammar.Int_part int i → Grammar.Frac_part i frac m f → Grammar.Exp_part exp e →
  Grammar.Numeral text negative m (e - f).
Proof. intros ->. apply Grammar.numeral. Qed.

(** A numeral with its integer part, its fraction and its exponent. *)
Ltac number negative int frac exp :=
  eapply Grammar.spells_number;
  [ eapply (Numeral_parts negative int frac exp);
    [ vm_compute; reflexivity
    | first [ eapply Grammar.int_digit; digit
            | eapply Grammar.int_digits; [digit | discriminate | digits] ]
    | first [ apply Grammar.frac_none | eapply Grammar.frac_digits; digits ]
    | first [ apply Grammar.exp_none
            | eapply Grammar.exp_digits; [in_list | digits]
            | eapply Grammar.exp_plus; [in_list | digits]
            | eapply Grammar.exp_minus; [in_list | digits] ] ]
  | split; [cbv beta iota; lia | vm_compute; reflexivity] ].

Lemma Escape_parts (c1 c2 c3 c4 : ascii) (a b c d : Z) (x : string) (u : Z) :
  x = String backslash (String "u" (String c1 (String c2 (String c3 (String c4 ""))))) →
  Grammar.Hex c1 a → Grammar.Hex c2 b → Grammar.Hex c3 c → Grammar.Hex c4 d →
  u = ((a * 16 + b) * 16 + c) * 16 + d →
  Grammar.Escape x u.
Proof. intros -> H1 H2 H3 H4 ->. constructor; assumption. Qed.

Ltac hex := unfold Grammar.Hex, Grammar.hexadecimal_digits, Grammar.decimal_digits; cbn [app]; in_list.

(** The escape [x] of a code unit [u] that is no high surrogate. *)
Ltac code_unit x u :=
  match goal with
  | |- Grammar.Chars ?s ?text =>
      let n := eval vm_compute in (String.length x) in
      let t := eval vm_compute in (String.substring n (String.length text - n) text) in
      let k := eval vm_compute in (String.length (utf8 u "")) in
      let s' := eval vm_compute in (String.substring k (String.length s - k) s) in
      change (Grammar.Chars (utf8 u s') (x ++ t));
      apply Grammar.chars_unit;
      [ eapply Escape_parts; [reflexivity | hex | hex | hex | hex | reflexivity]
      | unfold Grammar.high_surrogate; lia
      | ]
  end.

(** A string literal; what is between the quotes is left to [chars]. *)
Ltac literal :=
  match goal with
  | |- Grammar.Spells (JString _) ?text =>
      let n := eval vm_compute in (String.length text) in
      let t := eval vm_compute in (String.substring 1 (n - 2) text) in
      change text with (String dquote (t ++ String dquote ""));
      apply Grammar.spells_string
  end.

(** An object or an array; what is between the brackets is left. *)
Ltac brackets :=
  match goal with
  | |- Grammar.Spells (JObject []) ?text =>
      let n := eval vm_compute in (String.length text) in
      let t := eval vm_compute in (String.substring 1 (n - 2) text) in
      change text with (String "{" (t ++ "}"));
      apply Grammar.spells_empty_object; spaces
  | |- Grammar.Spells (JArray []) ?text =>
      let n := eval vm_compute in (String.length text) in
      let t := eval vm_compute in (String.substring 1 (n - 2) text) in
      change text with (String "[" (t ++ "]"));
      apply Grammar.spells_empty_array; spaces
  | |- Grammar.Spells (JObject _) ?text =>
      let n := eval vm_compute in (String.length text) in
      let t := eval vm_compute in (String.substring 1 (n - 2) text) in
      change text with (String "{" (t ++ "}"));
      apply Grammar.spells_object; [|vm_compute; reflexivity]
  | |- Grammar.Spells (JArray _) ?text =>
      let n := eval vm_compute in (String.length text) in
      let t := eval vm_compute in (String.substring 1 (n - 2) text) in
      change text with (String "[" (t ++ "]"));
      apply Grammar.spells_array
  end.

(** The next member: the white space in front of the key, around the colon
    and behind the value, the text of the key and the text of the value. *)
Ltac member w1 kt w2 w3 t w4 :=
  match goal with
  | |- Grammar.Members [_] ?text =>
      change text
        with (w1 ++ String dquote (kt ++ String dquote (w2 ++ String ":" (w3 ++ t ++ w4))));
      apply Grammar.members_last; [spaces | chars | spaces | spaces | | spaces]
  | |- Grammar.Members (_ :: _) ?text =>
      let n := eval vm_compute in
        (String.length
           (w1 ++ String dquote (kt ++ String dquote
              (w2 ++ String ":" (w3 ++ t ++ w4 ++ ","))))) in
      let ts := eval vm_compute in (String.substring n (String.length text - n) text) in
      change text
        with (w1 ++ String dquote (kt ++ String dquote
                (w2 ++ String ":" (w3 ++ t ++ w4 ++ String "," ts))));
      apply Grammar.members_more; [spaces | chars | spaces | spaces | | spaces | ]
  end.

(** The next element: the white space around it and its text. *)
Ltac element w1 t w2 :=
  match goal with
  | |- Grammar.Elements [_] ?text =>
      change text with (w1 ++ t ++ w2);
      apply Grammar.elements_last; [spaces | | spaces]
  | |- Grammar.Elements (_ :: _) ?text =>
      let n := eval vm_compute in (String.length (w1 ++ t ++ w2 ++ ",")) in
      let ts := eval vm_compute in (String.substring n (String.length text - n) text) in
      change text with (w1 ++ t ++ w2 ++ String "," ts);
      apply Grammar.elements_more; [spaces | | spaces | ]
  end.

(** A whole text: the white space around the value. *)
Ltac text_with w1 w2 :=
  match goal with
  | |- Grammar.Text ?v ?text =>
      let n := eval vm_compute in (String.length text) in
      let k := eval vm_compute in (String.length w1) in
      let l := eval vm_compute in (String.length w2) in
      let t := eval vm_compute in (String.substring k (n - k - l) text) in
      let v' := eval vm_compute in v in
      exists w1, t, w2;
      split; [spaces | split; [change v with v' | split; [spaces | vm_compute; reflexivity]]]
  end.

Lemma long_document_text_spells :
  Grammar.Text (PreflightReport_to_js long_document) long_document_text.
Proof.
  text_with "" "". brackets.
  member "" "overallScore" "" " " "82" "". { number false "82" "" "". }
  member " " "summary" "" " " (double_quotes "'Ready.'") "". { literal. chars. }
  member " " "finalVerdict" "" " " (double_quotes "'READY_FOR_PRINT'") "".
  { literal. chars. }
  member " " "specs" "" " "
    (double_quotes "{'pageCount': 9007199254740993, 'detectedDimensions': 'A4', 'colorProfileEstimate': 'CMYK', 'hasCropMarks': true}")
    "".
  { brackets.
    member "" "pageCount" "" " " "9007199254740993" "".
    { number false "9007199254740993" "" "". }
    member " " "detectedDimensions" "" " " (double_quotes "'A4'") "". { literal. chars. }
    member " " "colorProfileEstimate" "" " " (double_quotes "'CMYK'") "".
    { literal. chars. }
    member " " "hasCropMarks" "" " " "true" "". apply Grammar.spells_true. }
  member " " "checks" "" " " "[]" "". brackets.
Qed.

(** C8, where it fails.  The page count of a payload is a positive integer
    of any size, but a JS number holds an integer above 2^53 only if it is
    a double.  A payload with a page count of 9007199254740993, which is
    2^53 + 1, satisfies the schema; what [analyzePdf] returns for its text
    has a page count of 9007199254740992. *)
Lemma page_count_above_2_53_comes_back_rounded :
  satisfies_schema (PreflightReport_to_js long_document)
  ∧ Grammar.Text (PreflightReport_to_js long_document) long_document_text
  ∧ settled (analyzePdf (remote_replying (text_reply long_document_text))
               JSValue JSON.parse "Analyze the attached PDF." "JVBERi0xLjQ=")
    = Fulfilled (PreflightReport_to_js long_document_rounded)
  ∧ pageCount (specs long_document) = 9007199254740993
  ∧ pageCount (specs long_document_rounded) = 9007199254740992
  ∧ PreflightReport_to_js long_document_rounded ≠ PreflightReport_to_js long_document.
Proof.
  split; [split; vm_compute; reflexivity|].
  split; [exact long_document_text_spells|].
  split; [vm_compute; reflexivity|].
  split; [reflexivity|]. split; [reflexivity|].
  intros H. apply PreflightReport_to_js_inj in H. discriminate H.
Qed.

(** C8. A payload that satisfies the report schema and whose numbers are
    doubles comes back from [analyzePdf] as it is: whatever JSON text
    spells it, with white space, escapes and the numbers written in any
    way, [JSON.parse] reads the text as this payload, and the call succeeds
    with exactly this payload, every field as given, and writes nothing to
    the console. *)
Theorem valid_report_is_returned_unchanged (v : JSValue) (text : string) :
  satisfies_schema v →
  numbers_are_doubles v = true →
  Grammar.Text v text →
  JSON.parse text = inr v
  ∧ ∀ remote instructions base64Pdf response,
      remote (analyzePdf_request instructions base64Pdf) = Fulfilled response →
      response_text response = Some text →
      analyzePdf remote JSValue JSON.parse instructions base64Pdf = ([], Fulfilled v).
Proof.
  intros _ Hdouble Htext.
  pose proof (parse_Text v text Htext Hdouble) as Hparse.
  split; [exact Hparse|].
  intros remote instructions base64Pdf response Hr Ht.
  unfold analyzePdf. rewrite Hr. cbn. rewrite Ht. cbn [truthy to_string].
  destruct (String.eqb_spec text "") as [Hempty|_];
    [exfalso; exact (Text_not_empty v text Htext Hempty)|].
  cbn. rewrite Hparse. reflexivity.
Qed.

Lemma sample_payload_text_spells :
  Grammar.Text (PreflightReport_to_js sample_payload) sample_payload_text.
Proof.
  text_with " " (String "010" ""). brackets.
  member " " "overallScore" "" " " "82.0" "". { number false "82" ".0" "". }
  member " " "summary" "" " "
    (double_quotes "'Mostly ready;\nconvert images to \u0043MYK.'") "".
  { literal. chars. code_unit "\u0043" 67. chars. }
  member " " "finalVerdict" " " " " (double_quotes "'NEEDS_REVIEW'") "".
  { literal. chars. }
  member (String "010" "  ") "specs" "" " "
    (double_quotes "{'pageCount': 2e0, 'detectedDimensions': '8.5x11 in', 'colorProfileEstimate': 'RGB Detected', 'hasCropMarks': false}")
    "".
  { brackets.
    member "" "pageCount" "" " " "2e0" "". { number false "2" "" "e0". }
    member " " "detectedDimensions" "" " " (double_quotes "'8.5x11 in'") "".
    { literal. chars. }
    member " " "colorProfileEstimate" "" " " (double_quotes "'RGB Detected'") "".
    { literal. chars. }
    member " " "hasCropMarks" "" " " "false" "". apply Grammar.spells_false. }
  member (String "010" "  ") "checks" "" " "
    (double_quotes "[ {'category': 'COLOR', 'status': 'FAIL', 'title': 'RGB images detected', 'description': 'Images on page 1 use RGB.', 'location': 'Page 1 center', 'visualZone': 'CENTER'} ]")
    " ".
  brackets.
  element " "
    (double_quotes "{'category': 'COLOR', 'status': 'FAIL', 'title': 'RGB images detected', 'description': 'Images on page 1 use RGB.', 'location': 'Page 1 center', 'visualZone': 'CENTER'}")
    " ".
  brackets.
  member "" "category" "" " " (double_quotes "'COLOR'") "". { literal. chars. }
  member " " "status" "" " " (double_quotes "'FAIL'") "". { literal. chars. }
  member " " "title" "" " " (double_quotes "'RGB images detected'") "". { literal. chars. }
  member " " "description" "" " " (double_quotes "'Images on page 1 use RGB.'") "".
  { literal. chars. }
  member " " "location" "" " " (double_quotes "'Page 1 center'") "". { literal. chars. }
  member " " "visualZone" "" " " (double_quotes "'CENTER'") "". literal. chars.
Qed.

(** C8 at a payload written with white space, [82.0] for the score, [2e0]
    for the page count and two escapes in the summary. *)
Lemma valid_report_is_returned_unchanged_witness :
  satisfies_schema (PreflightReport_to_js sample_payload)
  ∧ numbers_are_doubles (PreflightReport_to_js sample_payload) = true
  ∧ Grammar.Text (PreflightReport_to_js sample_payload) sample_payload_text
  ∧ analyzePdf (remote_replying (text_reply sample_payload_text))
      JSValue JSON.parse "Analyze the attached PDF." "JVBERi0xLjQ="
    = ([], Fulfilled (PreflightReport_to_js sample_payload)).
Proof.
  assert (Hschema : satisfies_schema (PreflightReport_to_js sample_payload))
    by (split; vm_compute; reflexivity).
  assert (Hdouble : numbers_are_doubles (PreflightReport_to_js sample_payload) = true)
    by (vm_compute; reflexivity).
  split; [exact Hschema|]. split; [exact Hdouble|].
  split; [exact sample_payload_text_spells|].
  apply (proj2 (valid_report_is_returned_unchanged
                  (PreflightReport_to_js sample_payload) sample_payload_text
                  Hschema Hdouble sample_payload_text_spells)
           (remote_replying (text_reply sample_payload_text))
           "Analyze the attached PDF." "JVBERi0xLjQ="
           (text_reply sample_payload_text));
    reflexivity.
Defined.

(* ===================================================================== *)
(** * Properties of the progress view *)
(* ===================================================================== *)

Lemma currentStep_after_min (n : nat) :
  AnalysisStatus.currentStep_after n = Nat.min n 5.
Proof.
  unfold AnalysisStatus.currentStep_after.
  induction n as [|n IH]; [reflexivity|].
  rewrite Nat.iter_succ, IH. unfold AnalysisStatus.tick.
  change (length AnalysisStatus.steps - 1)%nat with 5%nat.
  destruct (Nat.ltb_spec (Nat.min n 5) 5); lia.
Qed.

(** X1. The progress view advances one step per tick and stops at the last
    of its six steps: after [n] ticks the current step is [min n 5].  At all
    times the steps before the current one are marked done, the current one
    carries the spinner and the ones after it are pending, so the last step
    is never marked done. *)
Theorem progress_stops_at_last_step (n : nat) :
  AnalysisStatus.currentStep_after n = Nat.min n (length AnalysisStatus.steps - 1)
  ∧ map fst (AnalysisStatus.rows (AnalysisStatus.currentStep_after n))
    = (replicate (AnalysisStatus.currentStep_after n) AnalysisStatus.Done
       ++ AnalysisStatus.Current
          :: replicate (length AnalysisStatus.steps - 1
                        - AnalysisStatus.currentStep_after n)
               AnalysisStatus.Pending)%list.
Proof.
  rewrite currentStep_after_min.
  change (length AnalysisStatus.steps - 1)%nat with 5%nat.
  split; [reflexivity|].
  assert (H : (Nat.min n 5 ≤ 5)%nat) by lia.
  destruct (Nat.min n 5) as [|[|[|[|[|[|k]]]]]]; try reflexivity. lia.
Qed.

(* ===================================================================== *)
(** * Properties of the data URL *)
(* ===================================================================== *)

Lemma has_comma_app (a b : string) :
  DataURL.has_comma (a ++ b) = DataURL.has_comma a || DataURL.has_comma b.
Proof.
  induction a as [|x a IH]; [reflexivity|].
  change (Ascii.eqb x "," || DataURL.has_comma (a ++ b)
          = Ascii.eqb x "," || DataURL.has_comma a || DataURL.has_comma b).
  rewrite IH. apply orb_assoc.
Qed.

Lemma split_from_plain (s cur : string) :
  DataURL.has_comma s = false → DataURL.split_from "," s cur = [cur ++ s].
Proof.
  revert cur. induction s as [|c s IH]; intros cur H.
  - cbn [DataURL.split_from]. rewrite append_empty_r. reflexivity.
  - cbn [DataURL.has_comma] in H. apply orb_false_elim in H. destruct H as [Hc Hs].
    cbn [DataURL.split_from]. rewrite Hc, (IH _ Hs), append_assoc. reflexivity.
Qed.

Lemma split_from_comma (prefix rest cur : string) :
  DataURL.has_comma prefix = false →
  DataURL.split_from "," (prefix ++ String "," rest) cur
  = (cur ++ prefix) :: DataURL.split_from "," rest "".
Proof.
  revert cur. induction prefix as [|c p IH]; intros cur H.
  - change ("" ++ String "," rest) with (String "," rest).
    cbn [DataURL.split_from]. rewrite append_empty_r. reflexivity.
  - cbn [DataURL.has_comma] in H. apply orb_false_elim in H. destruct H as [Hc Hp].
    change (String c p ++ String "," rest) with (String c (p ++ String "," rest)).
    cbn [DataURL.split_from]. rewrite Hc, (IH _ Hp), append_assoc. reflexivity.
Qed.

Lemma base64_has_no_comma (s : string) :
  DataURL.is_base64 s = true → DataURL.has_comma s = false.
Proof.
  induction s as [|c s IH]; cbn; [reflexivity|].
  intros H. apply andb_prop in H. destruct H as [Hc Hs].
  rewrite (IH Hs), orb_false_r.
  destruct (Ascii.eqb_spec c ","); [subst c; vm_compute in Hc; discriminate | reflexivity].
Qed.

(** X2. What [fileToBase64] resolves with, and what the editor passes on
    as [dataOnly]: for a data URL [data:<type>;base64,<payload>] whose type
    holds no comma and whose payload is base64 text it is exactly the
    payload; for a result without any comma it is [undefined]. *)
Theorem base64_of_data_url :
  (∀ mime payload,
     DataURL.has_comma mime = false → DataURL.is_base64 payload = true →
     DataURL.base64_of ("data:" ++ mime ++ ";base64," ++ payload) = Some payload)
  ∧ (∀ result, DataURL.has_comma result = false → DataURL.base64_of result = None).
Proof.
  split.
  - intros mime payload Hm Hp. unfold DataURL.base64_of, DataURL.split.
    replace ("data:" ++ mime ++ ";base64," ++ payload)
      with (("data:" ++ mime ++ ";base64") ++ String "," payload).
    + rewrite split_from_comma.
      * rewrite (split_from_plain payload "" (base64_has_no_comma _ Hp)). reflexivity.
      * rewrite !has_comma_app, Hm. reflexivity.
    + rewrite !append_assoc. reflexivity.
  - intros result H. unfold DataURL.base64_of, DataURL.split.
    rewrite (split_from_plain _ _ H). reflexivity.
Qed.

(** X2 at a PDF and at a text without a comma. *)
Lemma base64_of_data_url_witness :
  DataURL.base64_of "data:application/pdf;base64,JVBERi0xLjQK" = Some "JVBERi0xLjQK"
  ∧ DataURL.base64_of "JVBERi0xLjQK" = None.
Proof.
  split.
  - apply (proj1 base64_of_data_url "application/pdf" "JVBERi0xLjQK"); reflexivity.
  - apply (proj2 base64_of_data_url "JVBERi0xLjQK"); reflexivity.
Defined.

(* ===================================================================== *)
(** * Properties of the page controls of the dashboard *)
(* ===================================================================== *)

Lemma paging_step_in_range (st st' : Paging.State) (ev : Paging.Event) :
  page_in_range st →
  match ev with Paging.DocumentLoaded n => 1 <= n | _ => True end →
  Paging.step st ev = Some st' → page_in_range st'.
Proof.
  unfold page_in_range. intros Hin Hev Hstep.
  destruct ev as [n| |]; cbn in Hstep.
  - destruct (Paging.pdfDoc st); [discriminate|]. injection Hstep as <-. cbn. lia.
  - unfold Paging.prev_disabled in Hstep.
    destruct (Z.leb_spec (Paging.pageNum st) 1); [discriminate|].
    injection Hstep as <-. cbn. destruct (Paging.pdfDoc st); lia.
  - unfold Paging.next_disabled in Hstep.
    destruct (Z.leb_spec (Paging.numPages st) (Paging.pageNum st)); [discriminate|].
    injection Hstep as <-. cbn. destruct (Paging.pdfDoc st); lia.
Qed.

Lemma paging_run_in_range (evs : list Paging.Event) (st st' : Paging.State) :
  page_in_range st → Paging.documents_have_pages evs →
  Paging.run st evs = Some st' → page_in_range st'.
Proof.
  revert st. induction evs as [|ev evs IH]; intros st Hin Hevs Hrun; cbn in Hrun.
  - injection Hrun as <-. exact Hin.
  - destruct (Paging.step st ev) as [st1|] eqn:Hstep; [|discriminate].
    inversion Hevs as [|? ? Hev Hrest]; subst.
    apply (IH st1); [|exact Hrest|exact Hrun].
    eapply paging_step_in_range; eassumption.
Qed.

(** X3. Whatever the user clicks on the page controls, the page number
    stays at 1 or above, and once the document has loaded the page asked of
    it is one of its pages.  A click that the controls accept moves by
    exactly one page: the clamps of the two handlers never come into play. *)
Theorem page_shown_is_a_page_of_the_document
    (evs : list Paging.Event) (st : Paging.State) :
  Paging.documents_have_pages evs →
  Paging.run Paging.initial evs = Some st →
  1 <= Paging.pageNum st
  ∧ (∀ p, Paging.requested_page st = Some p → 1 <= p <= Paging.numPages st)
  ∧ (Paging.prev_disabled st = false →
     Paging.pageNum (Paging.clickPrev st) = Paging.pageNum st - 1)
  ∧ (Paging.next_disabled st = false →
     Paging.pageNum (Paging.clickNext st) = Paging.pageNum st + 1).
Proof.
  intros Hevs Hrun.
  assert (Hin : page_in_range st).
  { eapply paging_run_in_range; [|exact Hevs|exact Hrun]. split; reflexivity. }
  unfold page_in_range, Paging.requested_page, Paging.prev_disabled,
    Paging.next_disabled in *.
  split; [|split; [|split]].
  - destruct (Paging.pdfDoc st); lia.
  - intros p Hp. destruct (Paging.pdfDoc st); [|discriminate].
    injection Hp as <-. exact Hin.
  - intros H. apply Z.leb_gt in H. cbn. lia.
  - intros H. apply Z.leb_gt in H. cbn. lia.
Qed.

(** X3 for a document of three pages: forward twice, back once. *)
Lemma page_shown_is_a_page_of_the_document_witness :
  ∃ st,
    Paging.run Paging.initial
      [Paging.DocumentLoaded 3; Paging.ClickNext; Paging.ClickNext; Paging.ClickPrev]
    = Some st
    ∧ Paging.requested_page st = Some 2
    ∧ 1 <= Paging.pageNum st.
Proof.
  eexists. split; [reflexivity|]. split; [reflexivity|].
  apply (page_shown_is_a_page_of_the_document
           [Paging.DocumentLoaded 3; Paging.ClickNext; Paging.ClickNext; Paging.ClickPrev]).
  - repeat constructor. lia.
  - reflexivity.
Defined.

(* ===================================================================== *)
(** * More properties of the zone mapper, the adapter and the upload control *)
(* ===================================================================== *)

(** X4. The nine grid zones leave no gap: every point of the page lies in
    the rectangle the Zone Mapper gives to at least one of them. *)
Theorem grid_zones_cover_the_page (px py : Q) :
  (0 <= px)%Q → (px <= 1)%Q → (0 <= py)%Q → (py <= 1)%Q →
  ∃ zone r, In zone grid_zones ∧ zone_rect zone = Some r ∧ rect_contains r px py.
Proof.
  intros Hx0 Hx1 Hy0 Hy1.
  destruct (Qlt_le_dec px (1 # 3)) as [Hxa|Hxa];
    [|destruct (Qlt_le_dec px (2 # 3)) as [Hxb|Hxb]];
    (destruct (Qlt_le_dec py (1 # 3)) as [Hya|Hya];
     [|destruct (Qlt_le_dec py (2 # 3)) as [Hyb|Hyb]]).
  all: unfold Qle, Qlt in *; cbn in *.
  1: exists "TOP_LEFT". 2: exists "MIDDLE_LEFT". 3: exists "BOTTOM_LEFT".
  4: exists "TOP_CENTER". 5: exists "CENTER". 6: exists "BOTTOM_CENTER".
  7: exists "TOP_RIGHT". 8: exists "MIDDLE_RIGHT". 9: exists "BOTTOM_RIGHT".
  all: eexists; split; [cbn; tauto|]; split; [vm_compute; reflexivity|].
  all: unfold rect_contains, Qle; cbn; lia.
Qed.

(** X4 at the centre of the page and at its bottom right corner. *)
Lemma grid_zones_cover_the_page_witness :
  (∃ zone r, In zone grid_zones ∧ zone_rect zone = Some r
             ∧ rect_contains r (1 # 2) (1 # 2))
  ∧ (∃ zone r, In zone grid_zones ∧ zone_rect zone = Some r ∧ rect_contains r 1 1).
Proof.
  split.
  - apply (grid_zones_cover_the_page (1 # 2) (1 # 2)); unfold Qle; cbn; lia.
  - apply (grid_zones_cover_the_page 1 1); unfold Qle; cbn; lia.
Defined.

(** X5. An adapter writes to the console exactly when it fails.  A call
    that returns logs nothing; for [analyzePdf] what it returns is what the
    parser made of the text of the reply.  A call of [analyzePdf] that fails
    logs one entry, and the error in it is the cause the caller does not get
    to see: the error of the remote call, the missing reply text, or the
    error the parser threw on the text of the reply.  A call of
    [generateImage] or [editImage] that fails logs one entry with the very
    error it throws, also when that error is its own, for a reply without an
    image. *)
Theorem adapters_log_exactly_when_they_fail
    (remote : GenerateContentParameters → Promise GenerateContentResponse)
    (Value : Type) (parse : string → JSError + Value) (instructions : string) :
  (∀ base64Pdf,
     match settled (analyzePdf remote Value parse instructions base64Pdf) with
     | Fulfilled v =>
         console (analyzePdf remote Value parse instructions base64Pdf) = []
         ∧ ∃ response,
             remote (analyzePdf_request instructions base64Pdf) = Fulfilled response
             ∧ truthy (response_text response) = true
             ∧ parse (to_string (response_text response)) = inr v
     | Rejected _ =>
         ∃ cause,
           console (analyzePdf remote Value parse instructions base64Pdf)
           = [ConsoleError "Gemini Analysis Failed:" cause]
           ∧ (remote (analyzePdf_request instructions base64Pdf) = Rejected cause
              ∨ ∃ response,
                  remote (analyzePdf_request instructions base64Pdf) = Fulfilled response
                  ∧ ((truthy (response_text response) = false
                      ∧ cause = Error "No response text received from Gemini.")
                     ∨ (truthy (response_text response) = true
                        ∧ parse (to_string (response_text response)) = inl cause)))
     end)
  ∧ (∀ prompt size,
       match settled (generateImage remote prompt size) with
       | Fulfilled _ => console (generateImage remote prompt size) = []
       | Rejected e =>
           console (generateImage remote prompt size)
           = [ConsoleError "Image Generation Failed:" e]
       end)
  ∧ (∀ base64Image mimeType prompt,
       match settled (editImage remote base64Image mimeType prompt) with
       | Fulfilled _ => console (editImage remote base64Image mimeType prompt) = []
       | Rejected e =>
           console (editImage remote base64Image mimeType prompt)
           = [ConsoleError "Image Editing Failed:" e]
       end).
Proof.
  split; [|split].
  - intros base64Pdf. unfold analyzePdf.
    destruct (remote _) as [response|e] eqn:Hr; cbn.
    + destruct (truthy (response_text response)) eqn:Ht; cbn.
      * destruct (parse _) as [e|v] eqn:Hp; cbn.
        -- exists e. split; [reflexivity|]. right. exists response.
           split; [reflexivity|]. right. split; [exact Ht | exact Hp].
        -- split; [reflexivity|]. exists response.
           split; [reflexivity|]. split; [exact Ht | exact Hp].
      * eexists. split; [reflexivity|]. right. exists response.
        split; [reflexivity|]. left. split; [exact Ht | reflexivity].
    + exists e. split; [reflexivity|]. left. reflexivity.
  - intros prompt size. unfold generateImage.
    destruct (remote _) as [response|e]; cbn; [|reflexivity].
    destruct (first_candidate_parts response) as [ps|]; cbn; [|reflexivity].
    destruct (first_inline_image ps); reflexivity.
  - intros base64Image mimeType prompt. unfold editImage.
    destruct (remote _) as [response|e]; cbn; [|reflexivity].
    destruct (first_candidate_parts response) as [ps|]; cbn; [|reflexivity].
    destruct (first_inline_image ps); reflexivity.
Qed.

(** X6. A drop starts from a clean slate: what the upload control shows
    and hands on after a drop depends on the first file dropped and on
    nothing else, not on the files after it and not on what the control
    showed before.  A pick through the file dialog does the same and leaves
    the drag highlight as it is.  Either way at most one file is handed to
    [onFileSelect], and an empty list hands on none and leaves no message. *)
Theorem drop_starts_from_a_clean_slate (files : list File) (st1 st2 : FileUpload.State) :
  FileUpload.handleDrop files st1 = FileUpload.handleDrop files st2
  ∧ FileUpload.handleDrop files st1 = FileUpload.handleDrop (take 1 files) FileUpload.initial
  ∧ FileUpload.error (fst (FileUpload.handleFileInput files st1))
    = FileUpload.error (fst (FileUpload.handleDrop files st2))
  ∧ snd (FileUpload.handleFileInput files st1) = snd (FileUpload.handleDrop files st2)
  ∧ FileUpload.isDragging (fst (FileUpload.handleFileInput files st1))
    = FileUpload.isDragging st1
  ∧ (length (snd (FileUpload.handleDrop files st1)) ≤ 1)%nat
  ∧ FileUpload.handleDrop [] st1 = (FileUpload.initial, []).
Proof.
  unfold FileUpload.handleDrop, FileUpload.handleFileInput, FileUpload.validateAndUpload.
  destruct files as [|f fs]; cbn; [repeat split; lia|].
  destruct (negb _); cbn; [repeat split; lia|].
  destruct (_ <? _); cbn; repeat split; lia.
Qed.

(* ===================================================================== *)
(** * Properties of the sidebar of the dashboard *)
(* ===================================================================== *)

Lemma append_inv_head (s a b : string) : s ++ a = s ++ b → a = b.
Proof.
  induction s as [|c s IH]; intros H; [exact H|].
  change (String c (s ++ a) = String c (s ++ b)) in H.
  injection H as H. exact (IH H).
Qed.

Lemma index_to_string_inj (i j : nat) :
  Sidebar.index_to_string i = Sidebar.index_to_string j → i = j.
Proof.
  unfold Sidebar.index_to_string, write_nat. intros H.
  apply (f_equal (read_digits 0)) in H.
  rewrite (read_digits_digits (S (Z.to_nat (Z.log2 (Z.of_nat i)))) (Z.of_nat i) "")
    in H by (split; [lia | apply write_nat_fuel; lia]).
  rewrite (read_digits_digits (S (Z.to_nat (Z.log2 (Z.of_nat j)))) (Z.of_nat j) "")
    in H by (split; [lia | apply write_nat_fuel; lia]).
  cbn in H. injection H as H. lia.
Qed.

Lemma uniqueId_inj (s1 s2 : CheckStatus) (i j : nat) :
  Sidebar.uniqueId (CheckStatus_value s1) i = Sidebar.uniqueId (CheckStatus_value s2) j →
  s1 = s2 ∧ i = j.
Proof.
  unfold Sidebar.uniqueId.
  destruct s1, s2; intros H; try discriminate H; (split; [reflexivity|]);
    apply append_inv_head, append_inv_head, index_to_string_inj in H; exact H.
Qed.

Lemma NoDup_map_injective {A B : Type} (f : A → B) (l : list A) :
  (∀ x y, f x = f y → x = y) → NoDup l → NoDup (map f l).
Proof.
  intros Hinj Hl. induction Hl as [|x l Hx Hl IH]; cbn; constructor; [|exact IH].
  rewrite list_elem_of_In. intros Hin. apply in_map_iff in Hin.
  destruct Hin as (y & Hy & Hin). apply Hinj in Hy. subst y.
  apply Hx. rewrite list_elem_of_In. exact Hin.
Qed.

Section Rows.

Variable active : option string.
Variable sectionKey : string.

Lemma section_keys (l : list CheckItem) (k : nat) :
  map Sidebar.key
    (imap (fun idx it => Sidebar.renderCheckItem active it (k + idx) sectionKey) l)
  = map (Sidebar.uniqueId sectionKey) (seq k (length l)).
Proof.
  revert k. induction l as [|c l IH]; intros k; [reflexivity|].
  rewrite imap_cons. cbn [map length seq]. rewrite Nat.add_0_r. f_equal.
  rewrite <- (IH (S k)). f_equal. apply imap_ext. intros i x _. cbn.
  rewrite Nat.add_succ_r. reflexivity.
Qed.

Lemma section_items (l : list CheckItem) (k : nat) :
  map Sidebar.item
    (imap (fun idx it => Sidebar.renderCheckItem active it (k + idx) sectionKey) l)
  = l.
Proof.
  revert k. induction l as [|c l IH]; intros k; [reflexivity|].
  rewrite imap_cons. cbn [map]. f_equal.
  rewrite <- (IH (S k)) at 2. f_equal. apply imap_ext. intros i x _. cbn.
  rewrite Nat.add_succ_r. reflexivity.
Qed.

Lemma section_active (l : list CheckItem) (k : nat) :
  Forall (fun r => Sidebar.isActive r = bool_decide (active = Some (Sidebar.key r)))
    (imap (fun idx it => Sidebar.renderCheckItem active it (k + idx) sectionKey) l).
Proof.
  revert k. induction l as [|c l IH]; intros k; [constructor|].
  rewrite imap_cons. constructor; [reflexivity|].
  rewrite (imap_ext _ (fun idx it =>
             Sidebar.renderCheckItem active it (S k + idx) sectionKey)).
  - apply IH.
  - intros i x _. cbn. rewrite Nat.add_succ_r. reflexivity.
Qed.

End Rows.

(** The rows a section puts on screen. *)
Lemma section_rows (report : PreflightReport) (sections : gmap string bool)
    (active : option string) (s : CheckStatus) :
  match Sidebar.renderSection report sections active s
          (length (ReportDashboard.checksByStatus report s)) with
  | Some rows => rows
  | None => []
  end
  = if Sidebar.isExpanded sections (CheckStatus_value s) then
      imap (fun idx it => Sidebar.renderCheckItem active it (0 + idx) (CheckStatus_value s))
           (ReportDashboard.checksByStatus report s)
    else [].
Proof.
  unfold Sidebar.renderSection.
  destruct (ReportDashboard.checksByStatus report s) as [|c l]; cbn [length Nat.eqb].
  - destruct (Sidebar.isExpanded _ _); reflexivity.
  - reflexivity.
Qed.

Lemma rows_on_screen_sections (report : PreflightReport) (sections : gmap string bool)
    (active : option string) :
  Sidebar.rows_on_screen report sections active
  = ((if Sidebar.isExpanded sections "FAIL" then
        imap (fun idx it => Sidebar.renderCheckItem active it (0 + idx) "FAIL")
             (ReportDashboard.checksByStatus report FAIL)
      else [])
     ++ (if Sidebar.isExpanded sections "WARN" then
           imap (fun idx it => Sidebar.renderCheckItem active it (0 + idx) "WARN")
                (ReportDashboard.checksByStatus report WARN)
         else [])
     ++ (if Sidebar.isExpanded sections "PASS" then
           imap (fun idx it => Sidebar.renderCheckItem active it (0 + idx) "PASS")
                (ReportDashboard.checksByStatus report PASS)
         else []))%list.
Proof.
  unfold Sidebar.rows_on_screen, Sidebar.panel. cbn [map concat].
  rewrite !section_rows, app_nil_r. reflexivity.
Qed.

(** The keys of the rows on screen: for each section a run of indices from
    0. *)
Lemma rows_on_screen_keys (report : PreflightReport) (sections : gmap string bool)
    (active : option string) :
  ∃ nf nw np,
    map Sidebar.key (Sidebar.rows_on_screen report sections active)
    = (map (Sidebar.uniqueId (CheckStatus_value FAIL)) (seq 0 nf)
       ++ map (Sidebar.uniqueId (CheckStatus_value WARN)) (seq 0 nw)
       ++ map (Sidebar.uniqueId (CheckStatus_value PASS)) (seq 0 np))%list.
Proof.
  rewrite rows_on_screen_sections, !map_app.
  exists (if Sidebar.isExpanded sections "FAIL"
          then length (ReportDashboard.checksByStatus report FAIL) else 0%nat),
         (if Sidebar.isExpanded sections "WARN"
          then length (ReportDashboard.checksByStatus report WARN) else 0%nat),
         (if Sidebar.isExpanded sections "PASS"
          then length (ReportDashboard.checksByStatus report PASS) else 0%nat).
  repeat f_equal.
  all: destruct (Sidebar.isExpanded _ _); [apply section_keys | reflexivity].
Qed.

Lemma rows_on_screen_NoDup (report : PreflightReport) (sections : gmap string bool)
    (active : option string) :
  NoDup (map Sidebar.key (Sidebar.rows_on_screen report sections active)).
Proof.
  destruct (rows_on_screen_keys report sections active) as (nf & nw & np & ->).
  assert (Hsec : ∀ s n, NoDup (map (Sidebar.uniqueId (CheckStatus_value s)) (seq 0 n))).
  { intros s n. apply NoDup_map_injective; [|apply NoDup_seq].
    intros x y H. apply uniqueId_inj in H. apply H. }
  assert (Hcross : ∀ s1 s2 n1 n2 k, s1 ≠ s2 →
            In k (map (Sidebar.uniqueId (CheckStatus_value s1)) (seq 0 n1)) →
            ¬ In k (map (Sidebar.uniqueId (CheckStatus_value s2)) (seq 0 n2))).
  { intros s1 s2 n1 n2 k Hne H1 H2.
    apply in_map_iff in H1. destruct H1 as (i & <- & _).
    apply in_map_iff in H2. destruct H2 as (j & Hj & _).
    apply uniqueId_inj in Hj. destruct Hj as [Hj _]. congruence. }
  apply NoDup_app. split; [apply Hsec|]. split.
  - intros k H1 H2. rewrite list_elem_of_In in H1, H2.
    apply in_app_iff in H2. destruct H2 as [H2|H2].
    + exact (Hcross FAIL WARN nf nw k ltac:(discriminate) H1 H2).
    + exact (Hcross FAIL PASS nf np k ltac:(discriminate) H1 H2).
  - apply NoDup_app. split; [apply Hsec|]. split; [|apply Hsec].
    intros k H1 H2. rewrite list_elem_of_In in H1, H2.
    exact (Hcross WARN PASS nw np k ltac:(discriminate) H1 H2).
Qed.

Lemma rows_on_screen_keys_fixed (report : PreflightReport) (sections : gmap string bool)
    (active1 active2 : option string) :
  map Sidebar.key (Sidebar.rows_on_screen report sections active1)
  = map Sidebar.key (Sidebar.rows_on_screen report sections active2).
Proof.
  rewrite !rows_on_screen_sections, !map_app.
  destruct (Sidebar.isExpanded sections "FAIL"), (Sidebar.isExpanded sections "WARN"),
    (Sidebar.isExpanded sections "PASS"); rewrite ?section_keys; reflexivity.
Qed.

Lemma rows_on_screen_active (report : PreflightReport) (sections : gmap string bool)
    (active : option string) :
  Forall (fun r => Sidebar.isActive r = bool_decide (active = Some (Sidebar.key r)))
    (Sidebar.rows_on_screen report sections active).
Proof.
  rewrite rows_on_screen_sections.
  repeat (apply Forall_app; split);
    destruct (Sidebar.isExpanded _ _); try constructor; apply section_active.
Qed.

Lemma no_row_active (k : string) (l : list Sidebar.Row) :
  Forall (fun r => Sidebar.isActive r = bool_decide (Some k = Some (Sidebar.key r))) l →
  ¬ In k (map Sidebar.key l) →
  List.filter Sidebar.isActive l = [].
Proof.
  induction 1 as [|r l Hr _ IH]; intros Hk; [reflexivity|].
  cbn [List.filter]. rewrite Hr.
  case_bool_decide as Heq.
  - exfalso. apply Hk. left. congruence.
  - apply IH. intros Hin. apply Hk. right. exact Hin.
Qed.

Lemma one_row_active (k : string) (l : list Sidebar.Row) :
  Forall (fun r => Sidebar.isActive r = bool_decide (Some k = Some (Sidebar.key r))) l →
  NoDup (map Sidebar.key l) → In k (map Sidebar.key l) →
  map Sidebar.key (List.filter Sidebar.isActive l) = [k].
Proof.
  induction 1 as [|r l Hr Hl IH]; intros Hnd Hin; [destruct Hin|].
  cbn [map] in Hnd. apply NoDup_cons in Hnd. destruct Hnd as [Hfresh Hnd].
  rewrite list_elem_of_In in Hfresh.
  cbn [List.filter]. rewrite Hr. case_bool_decide as Heq.
  - injection Heq as Heq. subst k.
    rewrite (no_row_active _ l Hl Hfresh). reflexivity.
  - destruct Hin as [Hin|Hin]; [congruence|]. apply IH; assumption.
Qed.

(** X7. The rows of the sidebar have pairwise different keys, whichever
    sections are open.  So when the pointer enters a row, that row and no
    other is drawn as the active one; and when no row has been entered, or
    the pointer has left, none is. *)
Theorem hovering_marks_exactly_one_row
    (report : PreflightReport) (sections : gmap string bool)
    (st : ReportDashboard.State) :
  NoDup (map Sidebar.key
           (Sidebar.rows_on_screen report sections (ReportDashboard.activeItemIndex st)))
  ∧ (∀ r,
       In r (Sidebar.rows_on_screen report sections (ReportDashboard.activeItemIndex st)) →
       map Sidebar.key
         (List.filter Sidebar.isActive
            (Sidebar.rows_on_screen report sections
               (ReportDashboard.activeItemIndex
                  (ReportDashboard.onMouseEnter (Sidebar.item r) (Sidebar.key r) st))))
       = [Sidebar.key r])
  ∧ List.filter Sidebar.isActive
      (Sidebar.rows_on_screen report sections
         (ReportDashboard.activeItemIndex (ReportDashboard.onMouseLeave st)))
    = [].
Proof.
  split; [apply rows_on_screen_NoDup|split].
  - intros r Hr. cbn [ReportDashboard.onMouseEnter ReportDashboard.activeItemIndex].
    apply one_row_active.
    + apply rows_on_screen_active.
    + apply rows_on_screen_NoDup.
    + rewrite (rows_on_screen_keys_fixed _ _ _ (ReportDashboard.activeItemIndex st)).
      apply in_map. exact Hr.
  - cbn [ReportDashboard.onMouseLeave ReportDashboard.activeItemIndex].
    pose proof (rows_on_screen_active report sections None) as H.
    induction H as [|r l Hr _ IH]; [reflexivity|].
    cbn [List.filter]. rewrite Hr. exact IH.
Qed.

(** X7 on the sample report: the pointer enters its first failed check. *)
Lemma hovering_marks_exactly_one_row_witness :
  map Sidebar.key
    (List.filter Sidebar.isActive
       (Sidebar.rows_on_screen sample_report Sidebar.initial_sections (Some "FAIL-0")))
  = ["FAIL-0"].
Proof.
  apply (proj1 (proj2 (hovering_marks_exactly_one_row sample_report
                         Sidebar.initial_sections
                         {| ReportDashboard.activeZone := None;
                            ReportDashboard.activeItemIndex := None;
                            ReportDashboard.pdfDoc := true |}))
           {| Sidebar.key := "FAIL-0"; Sidebar.isActive := false;
              Sidebar.item := sample_check |}).
  vm_compute. left. reflexivity.
Defined.

Lemma isExpanded_toggle (s s' : string) (sections : gmap string bool) :
  Sidebar.isExpanded (Sidebar.toggleSection s sections) s'
  = if decide (s = s') then negb (Sidebar.isExpanded sections s)
    else Sidebar.isExpanded sections s'.
Proof.
  unfold Sidebar.isExpanded at 1, Sidebar.toggleSection. rewrite lookup_insert.
  destruct (decide (s = s')); reflexivity.
Qed.

Lemma rows_on_screen_items (report : PreflightReport) (sections : gmap string bool)
    (active : option string) :
  map Sidebar.item (Sidebar.rows_on_screen report sections active)
  = ((if Sidebar.isExpanded sections "FAIL"
      then ReportDashboard.checksByStatus report FAIL else [])
     ++ (if Sidebar.isExpanded sections "WARN"
         then ReportDashboard.checksByStatus report WARN else [])
     ++ (if Sidebar.isExpanded sections "PASS"
         then ReportDashboard.checksByStatus report PASS else []))%list.
Proof.
  rewrite rows_on_screen_sections, !map_app.
  destruct (Sidebar.isExpanded sections "FAIL"), (Sidebar.isExpanded sections "WARN"),
    (Sidebar.isExpanded sections "PASS"); rewrite ?section_items; reflexivity.
Qed.

(** X8. The sidebar lists the checks of the sections that are open, the
    failed ones first, then the warnings, then the passed ones, each group
    in the order of the report.  At first the failed checks and the warnings
    are listed and the passed ones are not; one click on the header of the
    passed checks lists them too.  A click on a header opens or closes that
    section and no other, and a second click brings the panel back to what
    it was.  A section without checks is not drawn at all, open or not. *)
Theorem sections_list_their_checks_when_open
    (report : PreflightReport) (sections : gmap string bool) (active : option string) :
  map Sidebar.item (Sidebar.rows_on_screen report sections active)
  = ((if Sidebar.isExpanded sections "FAIL"
      then ReportDashboard.checksByStatus report FAIL else [])
     ++ (if Sidebar.isExpanded sections "WARN"
         then ReportDashboard.checksByStatus report WARN else [])
     ++ (if Sidebar.isExpanded sections "PASS"
         then ReportDashboard.checksByStatus report PASS else []))%list
  ∧ map Sidebar.item (Sidebar.rows_on_screen report Sidebar.initial_sections active)
    = (ReportDashboard.checksByStatus report FAIL
       ++ ReportDashboard.checksByStatus report WARN)%list
  ∧ map Sidebar.item
      (Sidebar.rows_on_screen report
         (Sidebar.toggleSection "PASS" Sidebar.initial_sections) active)
    = (ReportDashboard.checksByStatus report FAIL
       ++ ReportDashboard.checksByStatus report WARN
       ++ ReportDashboard.checksByStatus report PASS)%list
  ∧ (∀ s s',
       Sidebar.isExpanded (Sidebar.toggleSection s sections) s'
       = if String.eqb s s' then negb (Sidebar.isExpanded sections s)
         else Sidebar.isExpanded sections s')
  ∧ (∀ s,
       Sidebar.panel report (Sidebar.toggleSection s (Sidebar.toggleSection s sections))
         active
       = Sidebar.panel report sections active)
  ∧ (∀ s,
       Sidebar.renderSection report sections active s
         (length (ReportDashboard.checksByStatus report s)) = None
       ↔ ReportDashboard.checksByStatus report s = []).
Proof.
  split; [apply rows_on_screen_items|].
  split; [rewrite rows_on_screen_items, app_nil_r; reflexivity|].
  split; [rewrite rows_on_screen_items; reflexivity|].
  split; [|split].
  - intros s s'. rewrite isExpanded_toggle.
    destruct (decide (s = s')) as [->|Hne].
    + rewrite String.eqb_refl. reflexivity.
    + apply String.eqb_neq in Hne. rewrite Hne. reflexivity.
  - intros s. unfold Sidebar.panel, Sidebar.renderSection.
    assert (H : ∀ s', Sidebar.isExpanded
                        (Sidebar.toggleSection s (Sidebar.toggleSection s sections)) s'
                      = Sidebar.isExpanded sections s').
    { intros s'. rewrite !isExpanded_toggle.
      destruct (decide (s = s')) as [->|Hne]; [|reflexivity].
      destruct (decide (s' = s')); [|congruence]. apply negb_involutive. }
    rewrite !H. reflexivity.
  - intros s. unfold Sidebar.renderSection.
    destruct (ReportDashboard.checksByStatus report s); cbn [length Nat.eqb];
      split; intros H; try reflexivity; discriminate.
Qed.

(* ===================================================================== *)
(** * Properties of the page: busy flags *)
(* ===================================================================== *)

Lemma backed_render (st : Page.State) (a : App.State) :
  flags_backed st →
  (App.isAnalyzing a = true → (1 ≤ Page.outstanding Page.Preflight st)%nat) →
  flags_backed (Page.render a st).
Proof.
  intros [Ha Hg He] Hbusy. constructor.
  - exact Hbusy.
  - intros id g.
    change (Page.calls_of Page.Generation id (Page.render a st))
      with (Page.calls_of Page.Generation id st).
    cbn [Page.render Page.generator].
    destruct (App.renders_ImageGenerator a); [|discriminate].
    destruct (Page.generator st) as [[id0 g0]|] eqn:Hgen.
    + intros H. injection H as <- <-. apply (Hg id0 g0 eq_refl).
    + intros H. injection H as <- <-. cbn. discriminate.
  - intros id e.
    change (Page.calls_of Page.Editing id (Page.render a st))
      with (Page.calls_of Page.Editing id st).
    cbn [Page.render Page.editor].
    destruct (App.renders_ImageEditor a); [|discriminate].
    destruct (Page.editor st) as [[id0 e0]|] eqn:Hed.
    + intros H. injection H as <- <-. apply (He id0 e0 eq_refl).
    + intros H. injection H as <- <-. cbn. discriminate.
Qed.

Lemma backed_with_upload (st : Page.State) (u : FileUpload.State) :
  flags_backed st → flags_backed (Page.with_upload u st).
Proof. intros [Ha Hg He]. constructor; assumption. Qed.

Lemma backed_with_generator (st : Page.State) (id : nat) (g' : ImageGenerator.State) :
  flags_backed st →
  (ImageGenerator.isGenerating g' = true →
   (1 ≤ Page.calls_of Page.Generation id st)%nat) →
  flags_backed (Page.with_generator (id, g') st).
Proof.
  intros [Ha Hg He] Hbusy. constructor; try assumption.
  intros id0 g0 H0. cbn in H0. injection H0 as <- <-. exact Hbusy.
Qed.

Lemma backed_with_editor (st : Page.State) (id : nat) (e' : ImageEditor.State) :
  flags_backed st →
  (ImageEditor.isProcessing e' = true →
   (1 ≤ Page.calls_of Page.Editing id st)%nat) →
  flags_backed (Page.with_editor (id, e') st).
Proof.
  intros [Ha Hg He] Hbusy. constructor; try assumption.
  intros id0 e0 H0. cbn in H0. injection H0 as <- <-. exact Hbusy.
Qed.

Lemma backed_start (st : Page.State) (c : Page.Call) :
  flags_backed st → flags_backed (Page.start c st).
Proof.
  intros [Ha Hg He]. constructor.
  - intros H. rewrite outstanding_start. specialize (Ha H). lia.
  - intros id g Hgen H. rewrite calls_of_start. specialize (Hg id g Hgen H). lia.
  - intros id e Hed H. rewrite calls_of_start. specialize (He id e Hed H). lia.
Qed.

(** A call that settles may go once the flag of the instance that started
    it is down. *)
Lemma backed_finish (st : Page.State) (i : nat) (c : Page.Call) :
  flags_backed st → Page.in_flight st !! i = Some c →
  (Page.surface c = Page.Preflight → App.isAnalyzing (Page.app st) = false) →
  (∀ g, Page.surface c = Page.Generation →
        Page.generator st = Some (Page.instance c, g) →
        ImageGenerator.isGenerating g = false) →
  (∀ e, Page.surface c = Page.Editing →
        Page.editor st = Some (Page.instance c, e) →
        ImageEditor.isProcessing e = false) →
  flags_backed (Page.finish i st).
Proof.
  intros [Ha Hg He] Hi Hca Hcg Hce. constructor.
  - intros H. specialize (Ha H).
    pose proof (outstanding_finish Page.Preflight i c st Hi) as Hout.
    destruct (decide _) as [Hs|_]; [|lia].
    cbn in H. rewrite (Hca Hs) in H. discriminate.
  - intros id g Hgen H. specialize (Hg id g Hgen H).
    pose proof (calls_of_finish Page.Generation id i c st Hi) as Hout.
    destruct (decide _) as [Hc|_]; [|lia].
    subst c. cbn in Hcg. rewrite (Hcg g eq_refl Hgen) in H. discriminate.
  - intros id e Hed H. specialize (He id e Hed H).
    pose proof (calls_of_finish Page.Editing id i c st Hi) as Hout.
    destruct (decide _) as [Hc|_]; [|lia].
    subst c. cbn in Hce. rewrite (Hce e eq_refl Hed) in H. discriminate.
Qed.

Lemma backed_select_files (st : Page.State) (u' : FileUpload.State) (calls : list File) :
  flags_backed st → calls = [] ∨ (∃ f, calls = [f]) →
  flags_backed (Page.select_files calls (Page.with_upload u' st)).
Proof.
  intros Hb [-> | [f ->]]; cbn [Page.select_files fold_left].
  - apply backed_with_upload, Hb.
  - change (Page.start ?c (Page.render ?a ?s)) with (Page.render a (Page.start c s)).
    apply backed_render.
    + apply backed_start, backed_with_upload, Hb.
    + intros _. rewrite outstanding_start. cbn. destruct (decide _); [lia|congruence].
Qed.

Lemma handleFileSelect_isProcessing (files : list File) (e : ImageEditor.State) :
  ImageEditor.isProcessing (ImageEditor.handleFileSelect files e)
  = ImageEditor.isProcessing e.
Proof.
  unfold ImageEditor.handleFileSelect. destruct files as [|f fs]; [reflexivity|].
  destruct (negb _); reflexivity.
Qed.

(** Every event keeps the busy flags backed by calls. *)
Lemma step_backed (st st' : Page.State) (ev : Page.Event) :
  flags_backed st → Page.step st ev = Some st' → flags_backed st'.
Proof.
  intros Hb Hstep. destruct ev; cbn [Page.step] in Hstep.
  - (* KeyChecked *)
    destruct (App.isCheckingKey (Page.app st)); [|discriminate].
    injection Hstep as <-. apply backed_render; [exact Hb|]. apply (analysis_backed st Hb).
  - (* KeySelected *)
    destruct (App.screen (Page.app st)); try discriminate.
    injection Hstep as <-. apply backed_render; [exact Hb|]. apply (analysis_backed st Hb).
  - (* ClickTab *)
    destruct (App.on_main (Page.app st)); [|discriminate].
    injection Hstep as <-. apply backed_render; [exact Hb|]. apply (analysis_backed st Hb).
  - (* DragOver *)
    destruct (Page.upload st) as [u|]; [|discriminate].
    injection Hstep as <-. apply backed_with_upload, Hb.
  - (* DragLeave *)
    destruct (Page.upload st) as [u|]; [|discriminate].
    injection Hstep as <-. apply backed_with_upload, Hb.
  - (* DropFiles *)
    destruct (Page.upload st) as [u|]; [|discriminate].
    destruct (FileUpload.handleDrop files u) as [u' calls] eqn:Hd.
    injection Hstep as <-. apply backed_select_files; [exact Hb|].
    eapply handleDrop_calls, Hd.
  - (* InputFiles *)
    destruct (Page.upload st) as [u|]; [|discriminate].
    destruct (FileUpload.handleFileInput files u) as [u' calls] eqn:Hd.
    injection Hstep as <-. apply backed_select_files; [exact Hb|].
    eapply handleFileInput_calls, Hd.
  - (* ClickReset *)
    destruct (App.renders_reset (Page.app st)); [|discriminate].
    injection Hstep as <-. apply backed_render; [exact Hb|]. apply (analysis_backed st Hb).
  - (* TypePrompt *)
    destruct (Page.generator st) as [[id g]|] eqn:Hg; [|discriminate].
    injection Hstep as <-. apply backed_with_generator; [exact Hb|].
    apply (generation_backed st Hb id g Hg).
  - (* PickSize *)
    destruct (Page.generator st) as [[id g]|] eqn:Hg; [|discriminate].
    injection Hstep as <-. apply backed_with_generator; [exact Hb|].
    apply (generation_backed st Hb id g Hg).
  - (* ClickGenerate *)
    destruct (Page.generator st) as [[id g]|] eqn:Hg; [|discriminate].
    destruct (ImageGenerator.button_disabled g); [discriminate|].
    unfold ImageGenerator.handleGenerate in Hstep.
    destruct (blank (ImageGenerator.prompt g)); injection Hstep as <-.
    + apply backed_with_generator; [exact Hb|].
      apply (generation_backed st Hb id g Hg).
    + change (Page.start ?c (Page.with_generator ?x ?s))
        with (Page.with_generator x (Page.start c s)).
      apply backed_with_generator; [apply backed_start, Hb|].
      intros _. rewrite calls_of_start. destruct (decide _); [lia|congruence].
  - (* PickImage *)
    destruct (Page.editor st) as [[id e]|] eqn:He; [|discriminate].
    destruct (ImageEditor.originalFile e); [discriminate|].
    injection Hstep as <-. apply backed_with_editor; [exact Hb|].
    rewrite handleFileSelect_isProcessing. apply (editing_backed st Hb id e He).
  - (* TypeInstruction *)
    destruct (Page.editor st) as [[id e]|] eqn:He; [|discriminate].
    destruct (ImageEditor.originalFile e); [|discriminate].
    injection Hstep as <-. apply backed_with_editor; [exact Hb|].
    apply (editing_backed st Hb id e He).
  - (* ClickApplyEdit *)
    destruct (Page.editor st) as [[id e]|] eqn:He; [|discriminate].
    destruct (ImageEditor.originalFile e) as [f|] eqn:Hf; [|discriminate].
    destruct (ImageEditor.button_disabled e); [discriminate|].
    unfold ImageEditor.handleEdit in Hstep. rewrite Hf in Hstep.
    destruct (blank (ImageEditor.prompt e)); injection Hstep as <-.
    + apply backed_with_editor; [exact Hb|]. apply (editing_backed st Hb id e He).
    + change (Page.start ?c (Page.with_editor ?x ?s))
        with (Page.with_editor x (Page.start c s)).
      apply backed_with_editor; [apply backed_start, Hb|].
      intros _. rewrite calls_of_start. destruct (decide _); [lia|congruence].
  - (* ClickEditorReset *)
    destruct (Page.editor st) as [[id e]|] eqn:He; [|discriminate].
    destruct (ImageEditor.originalFile e); [|discriminate].
    injection Hstep as <-. apply backed_with_editor; [exact Hb|].
    apply (editing_backed st Hb id e He).
  - (* AnalysisSettled *)
    destruct (Page.in_flight st !! i) as [[s id]|] eqn:Hi; [|discriminate].
    destruct s; try discriminate. injection Hstep as <-.
    eapply backed_finish.
    + apply backed_render; [exact Hb|]. destruct outcome; cbn; discriminate.
    + exact Hi.
    + intros _. destruct outcome; reflexivity.
    + cbn. discriminate.
    + cbn. discriminate.
  - (* ImageSettled *)
    destruct (Page.in_flight st !! i) as [[s id]|] eqn:Hi; [|discriminate].
    destruct s; try discriminate; injection Hstep as <-.
    + destruct (Page.generator st) as [[id' g]|] eqn:Hg.
      * case_bool_decide as Hid.
        -- subst id'. eapply backed_finish.
           ++ apply backed_with_generator; [exact Hb|].
              destruct outcome; cbn; discriminate.
           ++ exact Hi.
           ++ cbn. discriminate.
           ++ cbn. intros g0 _ H0. injection H0 as <-. destruct outcome; reflexivity.
           ++ cbn. discriminate.
        -- eapply backed_finish; [exact Hb | exact Hi | cbn; discriminate | | cbn; discriminate].
           cbn. intros g0 _ H0. rewrite Hg in H0. congruence.
      * eapply backed_finish; [exact Hb | exact Hi | cbn; discriminate | | cbn; discriminate].
        cbn. intros g0 _ H0. rewrite Hg in H0. discriminate.
    + destruct (Page.editor st) as [[id' e]|] eqn:He.
      * case_bool_decide as Hid.
        -- subst id'. eapply backed_finish.
           ++ apply backed_with_editor; [exact Hb|].
              destruct outcome; cbn; discriminate.
           ++ exact Hi.
           ++ cbn. discriminate.
           ++ cbn. discriminate.
           ++ cbn. intros e0 _ H0. injection H0 as <-. destruct outcome; reflexivity.
        -- eapply backed_finish; [exact Hb | exact Hi | cbn; discriminate | cbn; discriminate |].
           cbn. intros e0 _ H0. rewrite He in H0. congruence.
      * eapply backed_finish; [exact Hb | exact Hi | cbn; discriminate | cbn; discriminate |].
        cbn. intros e0 _ H0. rewrite He in H0. discriminate.
Qed.

Lemma initial_backed : flags_backed Page.initial.
Proof. constructor; cbn; discriminate. Qed.

Lemma run_backed (evs : list Page.Event) (st st' : Page.State) :
  flags_backed st → Page.run st evs = Some st' → flags_backed st'.
Proof.
  revert st. induction evs as [|ev evs IH]; intros st Hb Hrun; cbn in Hrun.
  - injection Hrun as <-. exact Hb.
  - destruct (Page.step st ev) as [st1|] eqn:Hstep; [|discriminate].
    apply (IH st1); [|exact Hrun]. eapply step_backed; eassumption.
Qed.

(** X9. The busy flags tell the truth.  In every state the page can reach,
    [isAnalyzing] is set exactly while the analysis call is in flight, and
    the mounted generator and the mounted editor have [isGenerating] and
    [isProcessing] set exactly while a call of their own is in flight: no
    spinner stays on after its call has settled, and none is off while the
    call is still running. *)
Theorem busy_flags_tell_the_truth (evs : list Page.Event) (st : Page.State) :
  Page.run Page.initial evs = Some st →
  (App.isAnalyzing (Page.app st) = true ↔ Page.outstanding Page.Preflight st = 1%nat)
  ∧ (App.isAnalyzing (Page.app st) = false ↔ Page.outstanding Page.Preflight st = 0%nat)
  ∧ (∀ id g, Page.generator st = Some (id, g) →
       (ImageGenerator.isGenerating g = true
        ↔ Page.calls_of Page.Generation id st = 1%nat)
       ∧ (ImageGenerator.isGenerating g = false
          ↔ Page.calls_of Page.Generation id st = 0%nat))
  ∧ (∀ id e, Page.editor st = Some (id, e) →
       (ImageEditor.isProcessing e = true
        ↔ Page.calls_of Page.Editing id st = 1%nat)
       ∧ (ImageEditor.isProcessing e = false
          ↔ Page.calls_of Page.Editing id st = 0%nat)).
Proof.
  intros Hrun.
  pose proof (run_consistent evs _ _ initial_consistent Hrun) as Hc.
  pose proof (run_backed evs _ _ initial_backed Hrun) as Hb.
  assert (Hflag : ∀ (b : bool) (n : nat),
            (n ≤ 1)%nat → ((1 ≤ n)%nat → b = true) → (b = true → (1 ≤ n)%nat) →
            (b = true ↔ n = 1%nat) ∧ (b = false ↔ n = 0%nat)).
  { intros b n Hle H1 H2. destruct b.
    - specialize (H2 eq_refl). repeat split; intros; try lia; try discriminate.
    - destruct n as [|n]; [repeat split; intros; try discriminate; reflexivity|].
      specialize (H1 ltac:(lia)). discriminate. }
  split; [|split; [|split]].
  - apply Hflag.
    + apply (Page.analysis_single st Hc).
    + intros H. apply (Page.analysis_busy st Hc H).
    + apply (analysis_backed st Hb).
  - apply Hflag.
    + apply (Page.analysis_single st Hc).
    + intros H. apply (Page.analysis_busy st Hc H).
    + apply (analysis_backed st Hb).
  - intros id g Hg. apply Hflag.
    + apply (Page.generation_single st Hc id g Hg).
    + apply (Page.generation_single st Hc id g Hg).
    + apply (generation_backed st Hb id g Hg).
  - intros id e He. apply Hflag.
    + apply (Page.editing_single st Hc id e He).
    + apply (Page.editing_single st Hc id e He).
    + apply (editing_backed st Hb id e He).
Qed.

(** X9 after a click on Generate: the spinner is on and the call runs. *)
Lemma busy_flags_tell_the_truth_witness :
  ∃ st,
    Page.run Page.initial
      [Page.KeyChecked (Some true); Page.ClickTab App.GENERATOR;
       Page.TypePrompt "a poster"; Page.ClickGenerate] = Some st
    ∧ (App.isAnalyzing (Page.app st) = false
       ↔ Page.outstanding Page.Preflight st = 0%nat).
Proof.
  eexists. split; [reflexivity|].
  exact (proj1 (proj2 (busy_flags_tell_the_truth
           [Page.KeyChecked (Some true); Page.ClickTab App.GENERATOR;
            Page.TypePrompt "a poster"; Page.ClickGenerate] _ eq_refl))).
Defined.

(* ===================================================================== *)
(** * Properties of the page: what the Preflight tab shows *)
(* ===================================================================== *)

Lemma coherent_same (a a' : App.State) :
  App.file a' = App.file a → App.isAnalyzing a' = App.isAnalyzing a →
  App.report a' = App.report a → App.error a' = App.error a →
  PreflightTab.coherent a → PreflightTab.coherent a'.
Proof.
  intros Hf Ha Hr He [H1 H2 H3 H4].
  constructor; unfold App.has_file in *; rewrite ?Hf, ?Ha, ?Hr, ?He; assumption.
Qed.

Lemma failure_message_truthy (m d : string) :
  d ≠ "" → truthy (Some (or_else (Some m) d)) = true.
Proof.
  intros Hd. cbn. destruct (String.eqb m "") eqn:E.
  - apply String.eqb_neq in Hd. rewrite Hd. reflexivity.
  - rewrite E. reflexivity.
Qed.

Lemma coherent_select_files (st : Page.State) (u' : FileUpload.State) (calls : list File) :
  PreflightTab.coherent (Page.app st) → calls = [] ∨ (∃ f, calls = [f]) →
  PreflightTab.coherent (Page.app (Page.select_files calls (Page.with_upload u' st))).
Proof.
  intros Hco [-> | [f ->]]; [exact Hco|].
  cbn. constructor; cbn; intros; try tauto; congruence.
Qed.

(** A call of the preflight surface in flight shows in [isAnalyzing]. *)
Lemma in_flight_analyzing (st : Page.State) (i id : nat) :
  Page.consistent st →
  Page.in_flight st !! i = Some {| Page.surface := Page.Preflight; Page.instance := id |} →
  App.isAnalyzing (Page.app st) = true.
Proof.
  intros Hc Hi. apply (Page.analysis_busy st Hc).
  pose proof (outstanding_finish Page.Preflight i _ st Hi) as Hout.
  cbn [Page.surface] in Hout. destruct (decide _) as [_|Hne]; [lia|congruence].
Qed.

(** Every event keeps the state of [App] coherent. *)
Lemma step_coherent (st st' : Page.State) (ev : Page.Event) :
  Page.consistent st → PreflightTab.coherent (Page.app st) →
  Page.step st ev = Some st' → PreflightTab.coherent (Page.app st').
Proof.
  intros Hc Hco Hstep. destruct ev; cbn [Page.step] in Hstep.
  - destruct (App.isCheckingKey (Page.app st)); [|discriminate].
    injection Hstep as <-. revert Hco. apply coherent_same; reflexivity.
  - destruct (App.screen (Page.app st)); try discriminate.
    injection Hstep as <-. revert Hco. apply coherent_same; reflexivity.
  - destruct (App.on_main (Page.app st)); [|discriminate].
    injection Hstep as <-. revert Hco. apply coherent_same; reflexivity.
  - destruct (Page.upload st) as [u|]; [|discriminate].
    injection Hstep as <-. exact Hco.
  - destruct (Page.upload st) as [u|]; [|discriminate].
    injection Hstep as <-. exact Hco.
  - destruct (Page.upload st) as [u|]; [|discriminate].
    destruct (FileUpload.handleDrop files u) as [u' calls] eqn:Hd.
    injection Hstep as <-. apply coherent_select_files; [exact Hco|].
    eapply handleDrop_calls, Hd.
  - destruct (Page.upload st) as [u|]; [|discriminate].
    destruct (FileUpload.handleFileInput files u) as [u' calls] eqn:Hd.
    injection Hstep as <-. apply coherent_select_files; [exact Hco|].
    eapply handleFileInput_calls, Hd.
  - destruct (App.renders_reset (Page.app st)) eqn:Hr; [|discriminate].
    injection Hstep as <-. pose proof (renders_reset_idle _ Hr) as Hidle.
    constructor; cbn; intros; congruence.
  - destruct (Page.generator st) as [[id g]|]; [|discriminate].
    injection Hstep as <-. exact Hco.
  - destruct (Page.generator st) as [[id g]|]; [|discriminate].
    injection Hstep as <-. exact Hco.
  - destruct (Page.generator st) as [[id g]|]; [|discriminate].
    destruct (ImageGenerator.button_disabled g); [discriminate|].
    destruct (ImageGenerator.handleGenerate g) as [g' [args|]];
      injection Hstep as <-; exact Hco.
  - destruct (Page.editor st) as [[id e]|]; [|discriminate].
    destruct (ImageEditor.originalFile e); [discriminate|].
    injection Hstep as <-. exact Hco.
  - destruct (Page.editor st) as [[id e]|]; [|discriminate].
    destruct (ImageEditor.originalFile e); [|discriminate].
    injection Hstep as <-. exact Hco.
  - destruct (Page.editor st) as [[id e]|]; [|discriminate].
    destruct (ImageEditor.originalFile e); [|discriminate].
    destruct (ImageEditor.button_disabled e); [discriminate|].
    destruct (ImageEditor.handleEdit e) as [e' [args|]];
      injection Hstep as <-; exact Hco.
  - destruct (Page.editor st) as [[id e]|]; [|discriminate].
    destruct (ImageEditor.originalFile e); [|discriminate].
    injection Hstep as <-. exact Hco.
  - destruct (Page.in_flight st !! i) as [[s id]|] eqn:Hi; [|discriminate].
    destruct s; try discriminate. injection Hstep as <-.
    pose proof (in_flight_analyzing st i id Hc Hi) as Hbusy.
    destruct (PreflightTab.analyzing_clean _ Hco Hbusy) as (Hfile & Hrep & Herr).
    destruct outcome as [result|err]; constructor; cbn; rewrite ?Hrep, ?Herr;
      intros; try congruence; try tauto.
    + right. discriminate.
    + split; [|split; reflexivity].
      apply (failure_message_truthy (message err) "An unexpected error occurred.").
      discriminate.
  - destruct (Page.in_flight st !! i) as [[s id]|]; [|discriminate].
    destruct s; try discriminate; injection Hstep as <-.
    + destruct (Page.generator st) as [[id' g]|]; [|exact Hco].
      destruct (bool_decide _); exact Hco.
    + destruct (Page.editor st) as [[id' e]|]; [|exact Hco].
      destruct (bool_decide _); exact Hco.
Qed.

Lemma initial_coherent : PreflightTab.coherent App.initial.
Proof. constructor; cbn; intros; congruence. Qed.

(** What holds of every state the page can reach. *)
Lemma run_sound (evs : list Page.Event) (st st' : Page.State) :
  Page.consistent st → flags_backed st → PreflightTab.coherent (Page.app st) →
  Page.run st evs = Some st' →
  Page.consistent st' ∧ flags_backed st' ∧ PreflightTab.coherent (Page.app st').
Proof.
  revert st. induction evs as [|ev evs IH]; intros st Hc Hb Hco Hrun; cbn in Hrun.
  - injection Hrun as <-. auto.
  - destruct (Page.step st ev) as [st1|] eqn:Hstep; [|discriminate].
    apply (IH st1); [| | |exact Hrun].
    + eapply step_consistent; eassumption.
    + eapply step_backed; eassumption.
    + eapply step_coherent; eassumption.
Qed.

Lemma reachable_sound (evs : list Page.Event) (st : Page.State) :
  Page.run Page.initial evs = Some st →
  Page.consistent st ∧ flags_backed st ∧ PreflightTab.coherent (Page.app st).
Proof.
  apply run_sound; [apply initial_consistent | apply initial_backed | apply initial_coherent].
Qed.

(** A check of the data model is one that [renderCheckItem] can draw. *)
Lemma check_draws (c : CheckItem) :
  Dashboard.renderCheckItem_draws (CheckItem_to_js c) = true.
Proof.
  destruct c as [cat st t d [loc|] [zone|]]; cbn; try destruct (negb _); reflexivity.
Qed.

Lemma checks_draw (cs : list CheckItem) (status : string) :
  forallb Dashboard.renderCheckItem_draws
    (Dashboard.checksByStatus (map CheckItem_to_js cs) status) = true.
Proof.
  unfold Dashboard.checksByStatus. induction cs as [|c cs IH]; [reflexivity|].
  cbn [map]. rewrite filter_cons. destruct (decide _); [|exact IH].
  cbn [forallb]. rewrite check_draws, IH. reflexivity.
Qed.

(** The dashboard draws every report of the typed shape, whatever sections
    are open. *)
Lemma typed_report_draws (r : PreflightReport) (sections : gmap string bool) :
  Dashboard.draws sections (PreflightReport_to_js r) = true.
Proof.
  destruct r as [score sum verdict cs [pages dims profile marks]].
  unfold Dashboard.draws, Dashboard.checks. cbn [PreflightReport_to_js JSON.get
    lookup_property String.eqb Ascii.eqb Bool.eqb overallScore summary finalVerdict
    checks specs].
  assert (Hnull : existsb Dashboard.is_null (map CheckItem_to_js cs) = false).
  { induction cs as [|c cs IH]; [reflexivity|]. cbn [map existsb]. rewrite IH.
    destruct c as [cat st t d [loc|] [zone|]]; reflexivity. }
  cbn. rewrite Hnull. unfold Dashboard.renderSection_draws.
  rewrite !checks_draw. repeat (destruct (Sidebar.isExpanded _ _)); reflexivity.
Qed.



(* ===================================================================== *)
(** * Properties of the page: a falsy reply, Back and Try Again, the key gate *)
(* ===================================================================== *)

Lemma no_upload_with_file (st : Page.State) :
  Page.consistent st → App.has_file (Page.app st) = true → Page.upload st = None.
Proof.
  intros Hc Hf. destruct (Page.upload st) as [u|] eqn:Hu; [|reflexivity].
  pose proof (renders_FileUpload_no_file _ (Page.upload_rendered st Hc ltac:(eauto))).
  congruence.
Qed.

Lemma no_reset_when_falsy (a : App.State) (v : JSValue) :
  PreflightTab.coherent a → App.report a = Some v → truthy_value v = false →
  App.renders_reset a = false.
Proof.
  intros Hco Hr Hv.
  assert (He : App.error a = None).
  { destruct (App.error a) eqn:He; [|reflexivity].
    destruct (PreflightTab.failure_clean a Hco) as (_ & _ & H); congruence. }
  unfold App.renders_reset, App.screen, App.has_report. rewrite Hr, Hv, He. cbn.
  destruct (App.isCheckingKey a), (App.hasApiKey a),
    (bool_decide (App.activeTab a = App.PREFLIGHT)); reflexivity.
Qed.

(** Once the reply is falsy no event changes the reply or the file. *)
Lemma step_stuck (st st' : Page.State) (ev : Page.Event) (v : JSValue) :
  Page.consistent st → PreflightTab.coherent (Page.app st) →
  App.report (Page.app st) = Some v → truthy_value v = false →
  Page.step st ev = Some st' →
  App.report (Page.app st') = Some v.
Proof.
  intros Hc Hco Hr Hv Hstep.
  assert (Hfile : App.has_file (Page.app st) = true).
  { apply (PreflightTab.report_with_file _ Hco). congruence. }
  pose proof (no_upload_with_file st Hc Hfile) as Hup.
  destruct ev; cbn [Page.step] in Hstep; rewrite ?Hup in Hstep; try discriminate.
  - destruct (App.isCheckingKey (Page.app st)); [|discriminate].
    injection Hstep as <-. exact Hr.
  - destruct (App.screen (Page.app st)); try discriminate.
    injection Hstep as <-. exact Hr.
  - destruct (App.on_main (Page.app st)); [|discriminate].
    injection Hstep as <-. exact Hr.
  - rewrite (no_reset_when_falsy _ v Hco Hr Hv) in Hstep. discriminate.
  - destruct (Page.generator st) as [[id g]|]; [|discriminate].
    injection Hstep as <-. exact Hr.
  - destruct (Page.generator st) as [[id g]|]; [|discriminate].
    injection Hstep as <-. exact Hr.
  - destruct (Page.generator st) as [[id g]|]; [|discriminate].
    destruct (ImageGenerator.button_disabled g); [discriminate|].
    destruct (ImageGenerator.handleGenerate g) as [g' [args|]];
      injection Hstep as <-; exact Hr.
  - destruct (Page.editor st) as [[id e]|]; [|discriminate].
    destruct (ImageEditor.originalFile e); [discriminate|].
    injection Hstep as <-. exact Hr.
  - destruct (Page.editor st) as [[id e]|]; [|discriminate].
    destruct (ImageEditor.originalFile e); [|discriminate].
    injection Hstep as <-. exact Hr.
  - destruct (Page.editor st) as [[id e]|]; [|discriminate].
    destruct (ImageEditor.originalFile e); [|discriminate].
    destruct (ImageEditor.button_disabled e); [discriminate|].
    destruct (ImageEditor.handleEdit e) as [e' [args|]];
      injection Hstep as <-; exact Hr.
  - destruct (Page.editor st) as [[id e]|]; [|discriminate].
    destruct (ImageEditor.originalFile e); [|discriminate].
    injection Hstep as <-. exact Hr.
  - destruct (Page.in_flight st !! i) as [[s id]|] eqn:Hi; [|discriminate].
    destruct s; try discriminate.
    pose proof (in_flight_analyzing st i id Hc Hi) as Hbusy.
    destruct (PreflightTab.analyzing_clean _ Hco Hbusy) as (_ & Hnone & _). congruence.
  - destruct (Page.in_flight st !! i) as [[s id]|]; [|discriminate].
    destruct s; try discriminate; injection Hstep as <-.
    + destruct (Page.generator st) as [[id' g]|]; [|exact Hr].
      destruct (bool_decide _); exact Hr.
    + destruct (Page.editor st) as [[id' e]|]; [|exact Hr].
      destruct (bool_decide _); exact Hr.
Qed.

Lemma run_stuck (evs : list Page.Event) (st st' : Page.State) (v : JSValue) :
  Page.consistent st → flags_backed st → PreflightTab.coherent (Page.app st) →
  App.report (Page.app st) = Some v → truthy_value v = false →
  Page.run st evs = Some st' →
  App.report (Page.app st') = Some v.
Proof.
  revert st. induction evs as [|ev evs IH]; intros st Hc Hb Hco Hr Hv Hrun; cbn in Hrun.
  - injection Hrun as <-. exact Hr.
  - destruct (Page.step st ev) as [st1|] eqn:Hstep; [|discriminate].
    apply (IH st1); [| | | |exact Hv|exact Hrun].
    + eapply step_consistent; eassumption.
    + eapply step_backed; eassumption.
    + eapply step_coherent; eassumption.
    + eapply step_stuck; eassumption.
Qed.

(** X11. A falsy reply is a dead end.  Once the analysis has returned a
    value that is falsy ([null], [false], [0] or the empty string), whatever
    happens afterwards the reply stays, the dashboard is not shown, the
    upload control is off the screen, neither Back nor Try Again is offered,
    and no file can be dropped or picked: no analysis can be started
    again. *)
Theorem falsy_reply_is_a_dead_end
    (evs evs' : list Page.Event) (st st' : Page.State) (v : JSValue) :
  Page.run Page.initial evs = Some st →
  App.report (Page.app st) = Some v → truthy_value v = false →
  Page.run st evs' = Some st' →
  App.report (Page.app st') = Some v
  ∧ PreflightTab.renders_Dashboard (Page.app st') = false
  ∧ App.renders_FileUpload (Page.app st') = false
  ∧ Page.upload st' = None
  ∧ Page.step st' Page.ClickReset = None
  ∧ (∀ files, Page.step st' (Page.DropFiles files) = None
              ∧ Page.step st' (Page.InputFiles files) = None)
  ∧ Page.outstanding Page.Preflight st' = 0%nat.
Proof.
  intros Hrun Hr Hv Hrun'.
  destruct (reachable_sound evs st Hrun) as (Hc & Hb & Hco).
  pose proof (run_stuck evs' st st' v Hc Hb Hco Hr Hv Hrun') as Hr'.
  destruct (run_sound evs' st st' Hc Hb Hco Hrun') as (Hc' & Hb' & Hco').
  assert (Hfile : App.has_file (Page.app st') = true).
  { apply (PreflightTab.report_with_file _ Hco'). congruence. }
  pose proof (no_upload_with_file st' Hc' Hfile) as Hup.
  pose proof (no_reset_when_falsy _ v Hco' Hr' Hv) as Hreset.
  split; [exact Hr'|]. split; [|split; [|split; [|split; [|split]]]].
  - unfold PreflightTab.renders_Dashboard, App.screen, App.has_report.
    rewrite Hr', Hv. cbn.
    destruct (App.isCheckingKey (Page.app st')), (App.hasApiKey (Page.app st'));
      reflexivity.
  - unfold App.renders_FileUpload. rewrite Hfile. cbn.
    rewrite andb_false_r. reflexivity.
  - exact Hup.
  - cbn. rewrite Hreset. reflexivity.
  - intros files. cbn. rewrite Hup. split; reflexivity.
  - destruct (Page.outstanding Page.Preflight st') eqn:E; [reflexivity|].
    destruct (Page.analysis_busy st' Hc') as [Hbusy _]; [lia|].
    destruct (PreflightTab.report_with_file _ Hco') as [_ Hidle]; congruence.
Qed.

(** X11 for a reply of [null]: the tabs still work, the way back does not. *)
Lemma falsy_reply_is_a_dead_end_witness :
  ∃ st st',
    Page.run Page.initial
      [Page.KeyChecked (Some true); Page.DropFiles [sample_pdf];
       Page.AnalysisSettled 0 (Fulfilled JNull)] = Some st
    ∧ Page.run st [Page.ClickTab App.GENERATOR; Page.ClickTab App.PREFLIGHT] = Some st'
    ∧ Page.upload st' = None
    ∧ Page.step st' Page.ClickReset = None.
Proof.
  eexists _, _. split; [reflexivity|]. split; [reflexivity|].
  pose proof (falsy_reply_is_a_dead_end
                [Page.KeyChecked (Some true); Page.DropFiles [sample_pdf];
                 Page.AnalysisSettled 0 (Fulfilled JNull)]
                [Page.ClickTab App.GENERATOR; Page.ClickTab App.PREFLIGHT]
                _ _ JNull eq_refl eq_refl eq_refl eq_refl) as H.
  exact (conj (proj1 (proj2 (proj2 (proj2 H))))
              (proj1 (proj2 (proj2 (proj2 (proj2 H)))))).
Defined.

Lemma renders_reset_open (a : App.State) :
  App.renders_reset a = true →
  PreflightTab.open a ∧ App.isAnalyzing a = false.
Proof.
  unfold App.renders_reset, App.screen, PreflightTab.open.
  destruct (App.isCheckingKey a), (App.hasApiKey a), (App.isAnalyzing a),
    (App.has_report a), (App.has_file a), (App.activeTab a),
    (truthy (App.error a)), (App.dashboard_draws a);
    cbn; intros H; try discriminate H; auto.
Qed.

(** X12. Back on the dashboard and Try Again in the failure box both lead
    to the upload control: after the click the file, the reply and the
    message are gone, the upload control is on screen and neither the
    progress view, the failure box nor the dashboard is, and no analysis
    call is in flight.  Coming from the dashboard the upload control is a
    fresh one, without message and without drag highlight. *)
Theorem reset_leads_to_the_upload_control
    (evs : list Page.Event) (st st' : Page.State) :
  Page.run Page.initial evs = Some st →
  Page.step st Page.ClickReset = Some st' →
  App.file (Page.app st') = None
  ∧ App.report (Page.app st') = None
  ∧ App.error (Page.app st') = None
  ∧ App.renders_FileUpload (Page.app st') = true
  ∧ is_Some (Page.upload st')
  ∧ PreflightTab.renders_AnalysisStatus (Page.app st') = false
  ∧ PreflightTab.renders_error_box (Page.app st') = false
  ∧ PreflightTab.renders_Dashboard (Page.app st') = false
  ∧ Page.outstanding Page.Preflight st' = 0%nat
  ∧ (App.screen (Page.app st) = App.Dashboard →
     Page.upload st' = Some FileUpload.initial).
Proof.
  intros Hrun Hstep. cbn [Page.step] in Hstep.
  destruct (App.renders_reset (Page.app st)) eqn:Hr; [|discriminate].
  injection Hstep as <-.
  destruct (renders_reset_open _ Hr) as ((Hkey & Hhas & Htab) & Hidle).
  destruct (reachable_sound evs st Hrun) as (Hc & Hb & Hco).
  assert (Hup : App.renders_FileUpload (App.handleReset (Page.app st)) = true).
  { unfold App.renders_FileUpload, App.on_main, App.screen, App.has_report, App.has_file.
    cbn. rewrite Hkey, Hhas, Htab. reflexivity. }
  split; [reflexivity|]. split; [reflexivity|]. split; [reflexivity|].
  split; [exact Hup|].
  split; [cbn; rewrite Hup; destruct (Page.upload st); eauto|].
  split; [|split; [|split; [|split]]].
  - unfold PreflightTab.renders_AnalysisStatus. cbn. rewrite Hidle. apply andb_false_r.
  - unfold PreflightTab.renders_error_box. cbn. rewrite !andb_false_r. reflexivity.
  - unfold PreflightTab.renders_Dashboard, App.screen, App.has_report. cbn.
    rewrite Hkey, Hhas. reflexivity.
  - change (Page.outstanding Page.Preflight st = 0%nat).
    destruct (Page.outstanding Page.Preflight st) eqn:E; [reflexivity|].
    destruct (Page.analysis_busy st Hc) as [Hbusy _]; [lia | congruence].
  - intros Hscreen. cbn. rewrite Hup.
    destruct (Page.upload st) as [u|] eqn:Hu; [|reflexivity].
    pose proof (Page.upload_rendered st Hc ltac:(eauto)) as Hren.
    unfold App.renders_FileUpload, App.on_main in Hren. rewrite Hscreen in Hren.
    discriminate.
Qed.

(** X12 for Try Again after a failed analysis. *)
Lemma reset_leads_to_the_upload_control_witness :
  ∃ st st',
    Page.run Page.initial
      [Page.KeyChecked (Some true); Page.DropFiles [sample_pdf];
       Page.AnalysisSettled 0 (Rejected analysis_failed)] = Some st
    ∧ Page.step st Page.ClickReset = Some st'
    ∧ App.error (Page.app st') = None
    ∧ App.renders_FileUpload (Page.app st') = true.
Proof.
  eexists _, _. split; [reflexivity|]. split; [reflexivity|].
  pose proof (reset_leads_to_the_upload_control
                [Page.KeyChecked (Some true); Page.DropFiles [sample_pdf];
                 Page.AnalysisSettled 0 (Rejected analysis_failed)]
                _ _ eq_refl eq_refl) as H.
  exact (conj (proj1 (proj2 (proj2 H))) (proj1 (proj2 (proj2 (proj2 H))))).
Defined.

Lemma on_main_key_present (a : App.State) :
  App.on_main a = true → key_present a = true.
Proof.
  unfold App.on_main, App.screen, key_present.
  destruct (App.isCheckingKey a), (App.hasApiKey a); cbn; try discriminate; reflexivity.
Qed.

Lemma no_key_nothing_rendered (a : App.State) :
  key_present a = false →
  App.renders_FileUpload a = false ∧ App.renders_ImageGenerator a = false
  ∧ App.renders_ImageEditor a = false.
Proof.
  intros H.
  assert (Hm : App.on_main a = false).
  { destruct (App.on_main a) eqn:E; [|reflexivity].
    rewrite (on_main_key_present a E) in H. discriminate. }
  unfold App.renders_FileUpload, App.renders_ImageGenerator, App.renders_ImageEditor.
  rewrite Hm. auto.
Qed.

(** Every event keeps the page empty as long as the key gate has not been
    passed. *)
Lemma step_gate (st st' : Page.State) (ev : Page.Event) :
  (key_present (Page.app st) = false → nothing_running st) →
  Page.step st ev = Some st' →
  key_present (Page.app st') = false → nothing_running st'.
Proof.
  intros Hg Hstep Hno.
  assert (Hsame : key_present (Page.app st') = key_present (Page.app st) →
                  (Page.in_flight st ≠ [] ∨ Page.upload st ≠ None
                   ∨ Page.generator st ≠ None ∨ Page.editor st ≠ None
                   ∨ key_present (Page.app st) = true) →
                  nothing_running st').
  { intros Heq Hsome. rewrite Heq in Hno.
    destruct Hsome as [H|[H|[H|[H|H]]]]; [| | | |congruence];
      destruct (Hg Hno) as (H1 & H2 & H3 & H4); congruence. }
  destruct ev; cbn [Page.step] in Hstep.
  - destruct (App.isCheckingKey (Page.app st)) eqn:Hk; [|discriminate].
    injection Hstep as <-.
    assert (Hno0 : key_present (Page.app st) = false).
    { unfold key_present. rewrite Hk. reflexivity. }
    destruct (Hg Hno0) as (H1 & H2 & H3 & H4).
    destruct (no_key_nothing_rendered _ Hno) as (R1 & R2 & R3).
    unfold nothing_running. cbn. cbn in R1, R2, R3. rewrite R1, R2, R3. auto.
  - destruct (App.screen (Page.app st)) eqn:Hs; try discriminate.
    injection Hstep as <-. exfalso.
    unfold App.screen in Hs. unfold key_present in Hno. cbn in Hno.
    destruct (App.isCheckingKey (Page.app st)); [discriminate|]. discriminate.
  - destruct (App.on_main (Page.app st)) eqn:Hm; [|discriminate].
    injection Hstep as <-. apply Hsame; [reflexivity|].
    do 4 right. apply on_main_key_present, Hm.
  - destruct (Page.upload st) as [u|] eqn:Hu; [|discriminate].
    injection Hstep as <-. apply Hsame; [reflexivity|]. right. left. congruence.
  - destruct (Page.upload st) as [u|] eqn:Hu; [|discriminate].
    injection Hstep as <-. apply Hsame; [reflexivity|]. right. left. congruence.
  - destruct (Page.upload st) as [u|] eqn:Hu; [|discriminate].
    destruct (FileUpload.handleDrop files u) as [u' calls] eqn:Hd.
    injection Hstep as <-. apply Hsame; [|right; left; congruence].
    destruct (handleDrop_calls _ _ _ _ Hd) as [-> | [f ->]]; reflexivity.
  - destruct (Page.upload st) as [u|] eqn:Hu; [|discriminate].
    destruct (FileUpload.handleFileInput files u) as [u' calls] eqn:Hd.
    injection Hstep as <-. apply Hsame; [|right; left; congruence].
    destruct (handleFileInput_calls _ _ _ _ Hd) as [-> | [f ->]]; reflexivity.
  - destruct (App.renders_reset (Page.app st)) eqn:Hr; [|discriminate].
    injection Hstep as <-. apply Hsame; [reflexivity|]. do 4 right.
    destruct (renders_reset_open _ Hr) as ((Hkey & Hhas & _) & _).
    unfold key_present. rewrite Hkey, Hhas. reflexivity.
  - destruct (Page.generator st) as [[id g]|] eqn:Hgen; [|discriminate].
    injection Hstep as <-. apply Hsame; [reflexivity|]. do 2 right. left. congruence.
  - destruct (Page.generator st) as [[id g]|] eqn:Hgen; [|discriminate].
    injection Hstep as <-. apply Hsame; [reflexivity|]. do 2 right. left. congruence.
  - destruct (Page.generator st) as [[id g]|] eqn:Hgen; [|discriminate].
    destruct (ImageGenerator.button_disabled g); [discriminate|].
    destruct (ImageGenerator.handleGenerate g) as [g' [args|]];
      injection Hstep as <-; (apply Hsame; [reflexivity|]); do 2 right; left; congruence.
  - destruct (Page.editor st) as [[id e]|] eqn:Hed; [|discriminate].
    destruct (ImageEditor.originalFile e); [discriminate|].
    injection Hstep as <-. apply Hsame; [reflexivity|]. do 3 right. left. congruence.
  - destruct (Page.editor st) as [[id e]|] eqn:Hed; [|discriminate].
    destruct (ImageEditor.originalFile e); [|discriminate].
    injection Hstep as <-. apply Hsame; [reflexivity|]. do 3 right. left. congruence.
  - destruct (Page.editor st) as [[id e]|] eqn:Hed; [|discriminate].
    destruct (ImageEditor.originalFile e); [|discriminate].
    destruct (ImageEditor.button_disabled e); [discriminate|].
    destruct (ImageEditor.handleEdit e) as [e' [args|]];
      injection Hstep as <-; (apply Hsame; [reflexivity|]); do 3 right; left; congruence.
  - destruct (Page.editor st) as [[id e]|] eqn:Hed; [|discriminate].
    destruct (ImageEditor.originalFile e); [|discriminate].
    injection Hstep as <-. apply Hsame; [reflexivity|]. do 3 right. left. congruence.
  - destruct (Page.in_flight st !! i) as [[s id]|] eqn:Hi; [|discriminate].
    destruct s; try discriminate. injection Hstep as <-.
    apply Hsame; [destruct outcome; reflexivity|].
    left. intros Hnil. rewrite Hnil in Hi. discriminate.
  - destruct (Page.in_flight st !! i) as [[s id]|] eqn:Hi; [|discriminate].
    assert (Hne : Page.in_flight st ≠ []).
    { intros Hnil. rewrite Hnil in Hi. discriminate. }
    destruct s; try discriminate; injection Hstep as <-; apply Hsame; auto.
    + destruct (Page.generator st) as [[id' g]|]; [|reflexivity].
      destruct (bool_decide _); reflexivity.
    + destruct (Page.editor st) as [[id' e]|]; [|reflexivity].
      destruct (bool_decide _); reflexivity.
Qed.

Lemma run_gate (evs : list Page.Event) (st st' : Page.State) :
  (key_present (Page.app st) = false → nothing_running st) →
  Page.run st evs = Some st' →
  key_present (Page.app st') = false → nothing_running st'.
Proof.
  revert st. induction evs as [|ev evs IH]; intros st Hg Hrun; cbn in Hrun.
  - injection Hrun as <-. exact Hg.
  - destruct (Page.step st ev) as [st1|] eqn:Hstep; [|discriminate].
    apply (IH st1); [|exact Hrun]. eapply step_gate; eassumption.
Qed.

(** X13. Nothing runs before the key gate.  As long as the check for a key
    has not come back, or has come back without a key and none has been
    chosen, no call is in flight, neither the upload control nor the
    generator nor the editor is mounted, and no event that would start a
    call is offered. *)
Theorem nothing_runs_before_the_key_gate (evs : list Page.Event) (st : Page.State) :
  Page.run Page.initial evs = Some st →
  key_present (Page.app st) = false →
  Page.in_flight st = []
  ∧ Page.upload st = None ∧ Page.generator st = None ∧ Page.editor st = None
  ∧ (∀ ev, Page.is_trigger ev = true → Page.step st ev = None).
Proof.
  intros Hrun Hno.
  assert (H : nothing_running st).
  { apply (run_gate evs Page.initial st); [|exact Hrun|exact Hno].
    intros _. repeat split. }
  destruct H as (H1 & H2 & H3 & H4). repeat (split; [assumption|]).
  intros ev Hev. destruct ev; try discriminate Hev; cbn; rewrite ?H2, ?H3, ?H4; reflexivity.
Qed.

(** X13 when the check comes back without a key. *)
Lemma nothing_runs_before_the_key_gate_witness :
  ∃ st,
    Page.run Page.initial [Page.KeyChecked (Some false)] = Some st
    ∧ Page.in_flight st = []
    ∧ Page.step st (Page.DropFiles [sample_pdf]) = None.
Proof.
  eexists. split; [reflexivity|].
  pose proof (nothing_runs_before_the_key_gate [Page.KeyChecked (Some false)]
                _ eq_refl eq_refl) as H.
  exact (conj (proj1 H)
              (proj2 (proj2 (proj2 (proj2 H))) (Page.DropFiles [sample_pdf]) eq_refl)).
Defined.

(* ===================================================================== *)
(** * Properties of the page: the messages of the editor and the generator *)
(* ===================================================================== *)

Lemma quiet_render (st : Page.State) (a : App.State) :
  editor_quiet st → editor_quiet (Page.render a st).
Proof.
  intros Hq id e. cbn [Page.render Page.editor].
  destruct (App.renders_ImageEditor a); [|discriminate].
  destruct (Page.editor st) as [[id0 e0]|] eqn:Hed.
  - intros H. injection H as <- <-. apply (Hq id0 e0 Hed).
  - intros H. injection H as <- <-. discriminate.
Qed.

Lemma quiet_select_files (calls : list File) (st : Page.State) :
  editor_quiet st → editor_quiet (Page.select_files calls st).
Proof.
  revert st. induction calls as [|f calls IH]; intros st Hq; [exact Hq|].
  cbn [Page.select_files fold_left]. apply IH.
  exact (quiet_render st _ Hq).
Qed.

Lemma quiet_with_editor (st : Page.State) (id : nat) (e' : ImageEditor.State) :
  (ImageEditor.error e' = Some not_an_image → ImageEditor.originalFile e' = None) →
  editor_quiet (Page.with_editor (id, e') st).
Proof. intros H id0 e0 H0. cbn in H0. injection H0 as <- <-. exact H. Qed.

Lemma edit_failure_worded_otherwise (err : JSError) :
  message err ≠ not_an_image →
  Some (or_else (Some (message err)) "Failed to edit image") ≠ Some not_an_image.
Proof.
  intros Hne H. injection H as H. cbn in H.
  destruct (String.eqb (message err) ""); [discriminate H | exact (Hne H)].
Qed.

(** Every event keeps the message for a file that is not an image off the
    screen. *)
Lemma step_quiet (st st' : Page.State) (ev : Page.Event) :
  editor_quiet st →
  match ev with
  | Page.ImageSettled _ (Rejected err) => message err ≠ not_an_image
  | _ => True
  end →
  Page.step st ev = Some st' → editor_quiet st'.
Proof.
  intros Hq Hev Hstep. destruct ev; cbn [Page.step] in Hstep.
  - destruct (App.isCheckingKey (Page.app st)); [|discriminate].
    injection Hstep as <-. apply quiet_render, Hq.
  - destruct (App.screen (Page.app st)); try discriminate.
    injection Hstep as <-. apply quiet_render, Hq.
  - destruct (App.on_main (Page.app st)); [|discriminate].
    injection Hstep as <-. apply quiet_render, Hq.
  - destruct (Page.upload st) as [u|]; [|discriminate].
    injection Hstep as <-. exact Hq.
  - destruct (Page.upload st) as [u|]; [|discriminate].
    injection Hstep as <-. exact Hq.
  - destruct (Page.upload st) as [u|]; [|discriminate].
    destruct (FileUpload.handleDrop files u) as [u' calls].
    injection Hstep as <-. apply quiet_select_files. exact Hq.
  - destruct (Page.upload st) as [u|]; [|discriminate].
    destruct (FileUpload.handleFileInput files u) as [u' calls].
    injection Hstep as <-. apply quiet_select_files. exact Hq.
  - destruct (App.renders_reset (Page.app st)); [|discriminate].
    injection Hstep as <-. apply quiet_render, Hq.
  - destruct (Page.generator st) as [[id g]|]; [|discriminate].
    injection Hstep as <-. exact Hq.
  - destruct (Page.generator st) as [[id g]|]; [|discriminate].
    injection Hstep as <-. exact Hq.
  - destruct (Page.generator st) as [[id g]|]; [|discriminate].
    destruct (ImageGenerator.button_disabled g); [discriminate|].
    destruct (ImageGenerator.handleGenerate g) as [g' [args|]];
      injection Hstep as <-; exact Hq.
  - destruct (Page.editor st) as [[id e]|] eqn:Hed; [|discriminate].
    destruct (ImageEditor.originalFile e) eqn:Hf; [discriminate|].
    injection Hstep as <-. apply quiet_with_editor.
    unfold ImageEditor.handleFileSelect. destruct files as [|f fs]; [intros _; exact Hf|].
    destruct (negb _); cbn; [intros _; exact Hf | discriminate].
  - destruct (Page.editor st) as [[id e]|] eqn:Hed; [|discriminate].
    destruct (ImageEditor.originalFile e) eqn:Hf; [|discriminate].
    injection Hstep as <-. apply quiet_with_editor. cbn. rewrite Hf.
    intros H. pose proof (Hq id e Hed H). congruence.
  - destruct (Page.editor st) as [[id e]|] eqn:Hed; [|discriminate].
    destruct (ImageEditor.originalFile e) as [f|] eqn:Hf; [|discriminate].
    destruct (ImageEditor.button_disabled e); [discriminate|].
    unfold ImageEditor.handleEdit in Hstep. rewrite Hf in Hstep.
    destruct (blank (ImageEditor.prompt e)); injection Hstep as <-.
    + apply quiet_with_editor. intros H. pose proof (Hq id e Hed H). congruence.
    + apply (quiet_with_editor (Page.start _ st)). cbn. discriminate.
  - destruct (Page.editor st) as [[id e]|] eqn:Hed; [|discriminate].
    destruct (ImageEditor.originalFile e); [|discriminate].
    injection Hstep as <-. apply quiet_with_editor. cbn. discriminate.
  - destruct (Page.in_flight st !! i) as [[s id]|]; [|discriminate].
    destruct s; try discriminate. injection Hstep as <-.
    exact (quiet_render st _ Hq).
  - destruct (Page.in_flight st !! i) as [[s id]|]; [|discriminate].
    destruct s; try discriminate; injection Hstep as <-.
    + destruct (Page.generator st) as [[id' g]|]; [|exact Hq].
      destruct (bool_decide _); exact Hq.
    + destruct (Page.editor st) as [[id' e]|] eqn:Hed; [|exact Hq].
      case_bool_decide as Hid; [|exact Hq].
      apply (quiet_with_editor (Page.finish i st)).
      destruct outcome as [result|err]; cbn.
      * apply (Hq id' e Hed).
      * intros Hmsg. exfalso. exact (edit_failure_worded_otherwise err Hev Hmsg).
Qed.

Lemma run_quiet (evs : list Page.Event) (st st' : Page.State) :
  editor_quiet st → failures_worded_otherwise evs →
  Page.run st evs = Some st' → editor_quiet st'.
Proof.
  revert st. induction evs as [|ev evs IH]; intros st Hq Hevs Hrun; cbn in Hrun.
  - injection Hrun as <-. exact Hq.
  - destruct (Page.step st ev) as [st1|] eqn:Hstep; [|discriminate].
    inversion Hevs as [|? ? Hev Hrest]; subst.
    apply (IH st1); [|exact Hrest|exact Hrun].
    eapply step_quiet; eassumption.
Qed.

(** X14. The editor's message for a file that is not an image is never on
    screen.  The handler sets it and leaves the editor without a picture,
    and the message box is drawn only once there is a picture; picking an
    image then clears it.  So, as long as no failure of an edit call carries
    that very text, no state the page can reach shows it. *)
Theorem not_an_image_message_is_never_shown
    (evs : list Page.Event) (st : Page.State) (id : nat) (e : ImageEditor.State) :
  Page.run Page.initial evs = Some st →
  failures_worded_otherwise evs →
  Page.editor st = Some (id, e) →
  editor_shown_error e ≠ Some not_an_image
  ∧ (∀ file files,
       String.prefix "image/" (file_type file) = false →
       ImageEditor.originalFile e = None →
       ImageEditor.error (ImageEditor.handleFileSelect (file :: files) e)
       = Some not_an_image
       ∧ editor_shown_error (ImageEditor.handleFileSelect (file :: files) e) = None).
Proof.
  intros Hrun Hevs Hed.
  assert (Hq : editor_quiet st).
  { apply (run_quiet evs Page.initial st); [|exact Hevs|exact Hrun].
    intros id0 e0 H0. discriminate. }
  split.
  - unfold editor_shown_error.
    destruct (ImageEditor.originalFile e) eqn:Hf; [|discriminate].
    destruct (truthy (ImageEditor.error e)); [|discriminate].
    intros H. pose proof (Hq id e Hed H). congruence.
  - intros file files Htype Hf. unfold ImageEditor.handleFileSelect, editor_shown_error.
    rewrite Htype. cbn. rewrite Hf. split; reflexivity.
Qed.

(** X14 for a text file picked in the editor. *)
Lemma not_an_image_message_is_never_shown_witness :
  ∃ st id e,
    Page.run Page.initial
      [Page.KeyChecked (Some true); Page.ClickTab App.EDITOR;
       Page.PickImage [{| file_name := "notes.txt"; file_type := "text/plain";
                          file_size := 12 |}]] = Some st
    ∧ Page.editor st = Some (id, e)
    ∧ ImageEditor.error e = Some not_an_image
    ∧ editor_shown_error e ≠ Some not_an_image.
Proof.
  eexists _, _, _. split; [reflexivity|]. split; [reflexivity|]. split; [reflexivity|].
  refine (proj1 (not_an_image_message_is_never_shown
           [Page.KeyChecked (Some true); Page.ClickTab App.EDITOR;
            Page.PickImage [{| file_name := "notes.txt"; file_type := "text/plain";
                               file_size := 12 |}]] _ _ _ eq_refl _ eq_refl)).
  repeat constructor.
Defined.

Lemma tidy_render (st : Page.State) (a : App.State) :
  (∀ id g, Page.generator st = Some (id, g) → generator_tidy g) →
  ∀ id g, Page.generator (Page.render a st) = Some (id, g) → generator_tidy g.
Proof.
  intros Ht id g. cbn [Page.render Page.generator].
  destruct (App.renders_ImageGenerator a); [|discriminate].
  destruct (Page.generator st) as [[id0 g0]|] eqn:Hgen.
  - intros H. injection H as <- <-. apply (Ht id0 g0 eq_refl).
  - intros H. injection H as <- <-. constructor; cbn; auto.
Qed.

Lemma tidy_select_files (calls : list File) (st : Page.State) :
  (∀ id g, Page.generator st = Some (id, g) → generator_tidy g) →
  ∀ id g, Page.generator (Page.select_files calls st) = Some (id, g) → generator_tidy g.
Proof.
  revert st. induction calls as [|f calls IH]; intros st Ht; [exact Ht|].
  cbn [Page.select_files fold_left]. apply IH.
  exact (tidy_render st _ Ht).
Qed.

(** Every event keeps the generator tidy. *)
Lemma step_tidy (st st' : Page.State) (ev : Page.Event) :
  Page.consistent st →
  (∀ id g, Page.generator st = Some (id, g) → generator_tidy g) →
  Page.step st ev = Some st' →
  ∀ id g, Page.generator st' = Some (id, g) → generator_tidy g.
Proof.
  intros Hc Ht Hstep. destruct ev; cbn [Page.step] in Hstep.
  - destruct (App.isCheckingKey (Page.app st)); [|discriminate].
    injection Hstep as <-. apply tidy_render, Ht.
  - destruct (App.screen (Page.app st)); try discriminate.
    injection Hstep as <-. apply tidy_render, Ht.
  - destruct (App.on_main (Page.app st)); [|discriminate].
    injection Hstep as <-. apply tidy_render, Ht.
  - destruct (Page.upload st) as [u|]; [|discriminate].
    injection Hstep as <-. exact Ht.
  - destruct (Page.upload st) as [u|]; [|discriminate].
    injection Hstep as <-. exact Ht.
  - destruct (Page.upload st) as [u|]; [|discriminate].
    destruct (FileUpload.handleDrop files u) as [u' calls].
    injection Hstep as <-. apply tidy_select_files. exact Ht.
  - destruct (Page.upload st) as [u|]; [|discriminate].
    destruct (FileUpload.handleFileInput files u) as [u' calls].
    injection Hstep as <-. apply tidy_select_files. exact Ht.
  - destruct (App.renders_reset (Page.app st)); [|discriminate].
    injection Hstep as <-. apply tidy_render, Ht.
  - destruct (Page.generator st) as [[id g]|] eqn:Hgen; [|discriminate].
    injection Hstep as <-. intros id0 g0 H0. cbn in H0. injection H0 as <- <-.
    destruct (Ht id g eq_refl) as [H1 H2]. constructor; cbn; assumption.
  - destruct (Page.generator st) as [[id g]|] eqn:Hgen; [|discriminate].
    injection Hstep as <-. intros id0 g0 H0. cbn in H0. injection H0 as <- <-.
    destruct (Ht id g eq_refl) as [H1 H2]. constructor; cbn; assumption.
  - destruct (Page.generator st) as [[id g]|] eqn:Hgen; [|discriminate].
    destruct (ImageGenerator.button_disabled g); [discriminate|].
    unfold ImageGenerator.handleGenerate in Hstep.
    destruct (blank (ImageGenerator.prompt g)); injection Hstep as <-;
      intros id0 g0 H0; cbn in H0; injection H0 as <- <-.
    + apply (Ht id g eq_refl).
    + constructor; cbn; auto.
  - destruct (Page.editor st) as [[id e]|]; [|discriminate].
    destruct (ImageEditor.originalFile e); [discriminate|].
    injection Hstep as <-. exact Ht.
  - destruct (Page.editor st) as [[id e]|]; [|discriminate].
    destruct (ImageEditor.originalFile e); [|discriminate].
    injection Hstep as <-. exact Ht.
  - destruct (Page.editor st) as [[id e]|]; [|discriminate].
    destruct (ImageEditor.originalFile e); [|discriminate].
    destruct (ImageEditor.button_disabled e); [discriminate|].
    destruct (ImageEditor.handleEdit e) as [e' [args|]];
      injection Hstep as <-; exact Ht.
  - destruct (Page.editor st) as [[id e]|]; [|discriminate].
    destruct (ImageEditor.originalFile e); [|discriminate].
    injection Hstep as <-. exact Ht.
  - destruct (Page.in_flight st !! i) as [[s id]|]; [|discriminate].
    destruct s; try discriminate. injection Hstep as <-.
    exact (tidy_render st _ Ht).
  - destruct (Page.in_flight st !! i) as [[s id]|] eqn:Hi; [|discriminate].
    destruct s; try discriminate; injection Hstep as <-.
    + assert (Hkeep : ∀ id0 g0, Page.generator (Page.finish i st) = Some (id0, g0) →
                                 generator_tidy g0) by exact Ht.
      destruct (Page.generator st) as [[id' g]|] eqn:Hgen; [|exact Hkeep].
      case_bool_decide as Hid; [|exact Hkeep]. subst id'.
      intros id0 g0 H0. cbn in H0. injection H0 as <- <-.
      assert (Hbusy : ImageGenerator.isGenerating g = true).
      { apply (Page.generation_single st Hc id g Hgen).
        pose proof (calls_of_finish Page.Generation id i _ st Hi) as Hcount.
        destruct (decide _) as [_|Hne]; [lia|congruence]. }
      destruct (Ht id g eq_refl) as [H1 _]. destruct (H1 Hbusy) as [Hpic Hmsg].
      destruct outcome as [result|err]; constructor; cbn; auto; discriminate.
    + destruct (Page.editor st) as [[id' e]|]; [|exact Ht].
      destruct (bool_decide _); exact Ht.
Qed.

Lemma run_tidy (evs : list Page.Event) (st st' : Page.State) :
  Page.consistent st →
  (∀ id g, Page.generator st = Some (id, g) → generator_tidy g) →
  Page.run st evs = Some st' →
  ∀ id g, Page.generator st' = Some (id, g) → generator_tidy g.
Proof.
  revert st. induction evs as [|ev evs IH]; intros st Hc Ht Hrun; cbn in Hrun.
  - injection Hrun as <-. exact Ht.
  - destruct (Page.step st ev) as [st1|] eqn:Hstep; [|discriminate].
    apply (IH st1); [| |exact Hrun].
    + eapply step_consistent; eassumption.
    + eapply step_tidy; eassumption.
Qed.

(** X15. The generator never shows a picture and a failure message
    together, and while its call is running it shows neither: a new request
    clears both, and the reply brings back exactly one of them.  When the
    call of the mounted generator settles with a picture, that picture is
    shown and no message; when it settles with a failure, the message of the
    failure is shown (or "Failed to generate image" when it has none) and
    no picture. *)
Theorem generator_shows_picture_or_message
    (evs : list Page.Event) (st : Page.State) (id : nat) (g : ImageGenerator.State) :
  Page.run Page.initial evs = Some st →
  Page.generator st = Some (id, g) →
  (ImageGenerator.generatedImage g = None ∨ generator_shown_error g = None)
  ∧ ((1 ≤ Page.calls_of Page.Generation id st)%nat →
     ImageGenerator.generatedImage g = None ∧ generator_shown_error g = None)
  ∧ (∀ i outcome st',
       Page.in_flight st !! i
       = Some {| Page.surface := Page.Generation; Page.instance := id |} →
       Page.step st (Page.ImageSettled i outcome) = Some st' →
       ∃ g', Page.generator st' = Some (id, g')
             ∧ match outcome with
               | Fulfilled picture =>
                   ImageGenerator.generatedImage g' = Some picture
                   ∧ generator_shown_error g' = None
               | Rejected err =>
                   ImageGenerator.generatedImage g' = None
                   ∧ generator_shown_error g'
                     = Some (or_else (Some (message err)) "Failed to generate image")
               end).
Proof.
  intros Hrun Hgen.
  pose proof (run_consistent evs _ _ initial_consistent Hrun) as Hc.
  assert (Ht : generator_tidy g).
  { apply (run_tidy evs Page.initial st initial_consistent) with (id := id);
      [|exact Hrun|exact Hgen].
    intros id0 g0 H0. discriminate. }
  destruct Ht as [H1 H2]. unfold generator_shown_error.
  split; [|split].
  - destruct H2 as [H2|H2]; [left; exact H2 | right; rewrite H2; reflexivity].
  - intros Hbusy.
    destruct (H1 (proj2 (Page.generation_single st Hc id g Hgen) Hbusy)) as [Hp Hm].
    rewrite Hm. split; [exact Hp | reflexivity].
  - intros i outcome st' Hi Hstep.
    assert (Hbusy : ImageGenerator.isGenerating g = true).
    { apply (Page.generation_single st Hc id g Hgen).
      pose proof (calls_of_finish Page.Generation id i _ st Hi) as Hcount.
      destruct (decide _) as [_|Hne]; [lia|congruence]. }
    destruct (H1 Hbusy) as [Hp Hm].
    cbn [Page.step] in Hstep. rewrite Hi, Hgen in Hstep.
    rewrite bool_decide_eq_true_2 in Hstep by reflexivity.
    injection Hstep as <-.
    exists (ImageGenerator.handleGenerate_resume outcome g).
    split; [reflexivity|].
    destruct outcome as [picture|err]; cbn [ImageGenerator.handleGenerate_resume
      ImageGenerator.generatedImage ImageGenerator.error].
    + rewrite Hm. split; reflexivity.
    + split; [exact Hp|].
      rewrite (failure_message_truthy (message err) "Failed to generate image")
        by discriminate.
      reflexivity.
Qed.

(** X15 after a generation that failed. *)
Lemma generator_shows_picture_or_message_witness :
  ∃ st id g,
    Page.run Page.initial
      [Page.KeyChecked (Some true); Page.ClickTab App.GENERATOR;
       Page.TypePrompt "a poster"; Page.ClickGenerate;
       Page.ImageSettled 0 (Rejected (Error "No image generated in response."))]
    = Some st
    ∧ Page.generator st = Some (id, g)
    ∧ generator_shown_error g = Some "No image generated in response."
    ∧ (ImageGenerator.generatedImage g = None ∨ generator_shown_error g = None).
Proof.
  eexists _, _, _. split; [reflexivity|]. split; [reflexivity|]. split; [reflexivity|].
  exact (proj1 (generator_shows_picture_or_message
           [Page.KeyChecked (Some true); Page.ClickTab App.GENERATOR;
            Page.TypePrompt "a poster"; Page.ClickGenerate;
            Page.ImageSettled 0 (Rejected (Error "No image generated in response."))]
           _ _ _ eq_refl eq_refl)).
Defined.

(* ===================================================================== *)
(** * Properties of the page: instances that have been unmounted *)
(* ===================================================================== *)

Lemma unmounted_render (id : nat) (st : Page.State) (a : App.State) :
  unmounted id st → unmounted id (Page.render a st).
Proof.
  intros (Hid & Hg & He). split; [|split].
  - cbn. repeat (destruct (_ && _)); lia.
  - intros g. cbn [Page.render Page.generator].
    destruct (App.renders_ImageGenerator a); [|discriminate].
    destruct (Page.generator st) as [[id0 g0]|] eqn:Hgen.
    + intros H. injection H as -> ->. exact (Hg g eq_refl).
    + intros H. injection H as H _. lia.
  - intros e. cbn [Page.render Page.editor].
    destruct (App.renders_ImageEditor a); [|discriminate].
    destruct (Page.editor st) as [[id0 e0]|] eqn:Hed.
    + intros H. injection H as -> ->. exact (He e eq_refl).
    + intros H. injection H as H _. destruct (_ && _); lia.
Qed.

Lemma unmounted_select_files (id : nat) (calls : list File) (st : Page.State) :
  unmounted id st → unmounted id (Page.select_files calls st).
Proof.
  revert st. induction calls as [|f calls IH]; intros st Hu; [exact Hu|].
  cbn [Page.select_files fold_left]. apply IH.
  exact (unmounted_render id st _ Hu).
Qed.

Lemma unmounted_with_generator (id id' : nat) (g g' : ImageGenerator.State)
    (st : Page.State) :
  unmounted id st → Page.generator st = Some (id', g) →
  unmounted id (Page.with_generator (id', g') st).
Proof.
  intros (Hid & Hg & He) Hgen. split; [exact Hid|]. split; [|exact He].
  intros g0 H. cbn in H. injection H as -> _. exact (Hg g Hgen).
Qed.

Lemma unmounted_with_editor (id id' : nat) (e e' : ImageEditor.State)
    (st : Page.State) :
  unmounted id st → Page.editor st = Some (id', e) →
  unmounted id (Page.with_editor (id', e') st).
Proof.
  intros (Hid & Hg & He) Hed. split; [exact Hid|]. split; [exact Hg|].
  intros e0 H. cbn in H. injection H as -> _. exact (He e Hed).
Qed.

(** No event mounts an instance a second time. *)
Lemma step_unmounted (id : nat) (st st' : Page.State) (ev : Page.Event) :
  unmounted id st → Page.step st ev = Some st' → unmounted id st'.
Proof.
  intros Hu Hstep. destruct ev; cbn [Page.step] in Hstep.
  - destruct (App.isCheckingKey (Page.app st)); [|discriminate].
    injection Hstep as <-. apply unmounted_render, Hu.
  - destruct (App.screen (Page.app st)); try discriminate.
    injection Hstep as <-. apply unmounted_render, Hu.
  - destruct (App.on_main (Page.app st)); [|discriminate].
    injection Hstep as <-. apply unmounted_render, Hu.
  - destruct (Page.upload st) as [u|]; [|discriminate].
    injection Hstep as <-. exact Hu.
  - destruct (Page.upload st) as [u|]; [|discriminate].
    injection Hstep as <-. exact Hu.
  - destruct (Page.upload st) as [u|]; [|discriminate].
    destruct (FileUpload.handleDrop files u) as [u' calls].
    injection Hstep as <-. apply unmounted_select_files. exact Hu.
  - destruct (Page.upload st) as [u|]; [|discriminate].
    destruct (FileUpload.handleFileInput files u) as [u' calls].
    injection Hstep as <-. apply unmounted_select_files. exact Hu.
  - destruct (App.renders_reset (Page.app st)); [|discriminate].
    injection Hstep as <-. apply unmounted_render, Hu.
  - destruct (Page.generator st) as [[id' g]|] eqn:Hgen; [|discriminate].
    injection Hstep as <-. eapply unmounted_with_generator; eassumption.
  - destruct (Page.generator st) as [[id' g]|] eqn:Hgen; [|discriminate].
    injection Hstep as <-. eapply unmounted_with_generator; eassumption.
  - destruct (Page.generator st) as [[id' g]|] eqn:Hgen; [|discriminate].
    destruct (ImageGenerator.button_disabled g); [discriminate|].
    destruct (ImageGenerator.handleGenerate g) as [g' [args|]];
      injection Hstep as <-.
    + exact (unmounted_with_generator id id' g g' st Hu Hgen).
    + exact (unmounted_with_generator id id' g g' st Hu Hgen).
  - destruct (Page.editor st) as [[id' e]|] eqn:Hed; [|discriminate].
    destruct (ImageEditor.originalFile e); [discriminate|].
    injection Hstep as <-. eapply unmounted_with_editor; eassumption.
  - destruct (Page.editor st) as [[id' e]|] eqn:Hed; [|discriminate].
    destruct (ImageEditor.originalFile e); [|discriminate].
    injection Hstep as <-. eapply unmounted_with_editor; eassumption.
  - destruct (Page.editor st) as [[id' e]|] eqn:Hed; [|discriminate].
    destruct (ImageEditor.originalFile e); [|discriminate].
    destruct (ImageEditor.button_disabled e); [discriminate|].
    destruct (ImageEditor.handleEdit e) as [e' [args|]];
      injection Hstep as <-.
    + exact (unmounted_with_editor id id' e e' st Hu Hed).
    + exact (unmounted_with_editor id id' e e' st Hu Hed).
  - destruct (Page.editor st) as [[id' e]|] eqn:Hed; [|discriminate].
    destruct (ImageEditor.originalFile e); [|discriminate].
    injection Hstep as <-. eapply unmounted_with_editor; eassumption.
  - destruct (Page.in_flight st !! i) as [[s id']|]; [|discriminate].
    destruct s; try discriminate. injection Hstep as <-.
    exact (unmounted_render id st _ Hu).
  - destruct (Page.in_flight st !! i) as [[s id']|]; [|discriminate].
    destruct s; try discriminate; injection Hstep as <-.
    + destruct (Page.generator st) as [[id'' g]|] eqn:Hgen; [|exact Hu].
      destruct (bool_decide _); [|exact Hu].
      exact (unmounted_with_generator id id'' g _ st Hu Hgen).
    + destruct (Page.editor st) as [[id'' e]|] eqn:Hed; [|exact Hu].
      destruct (bool_decide _); [|exact Hu].
      exact (unmounted_with_editor id id'' e _ st Hu Hed).
Qed.

Lemma run_unmounted (id : nat) (evs : list Page.Event) (st st' : Page.State) :
  unmounted id st → Page.run st evs = Some st' → unmounted id st'.
Proof.
  revert st. induction evs as [|ev evs IH]; intros st Hu Hrun; cbn in Hrun.
  - injection Hrun as <-. exact Hu.
  - destruct (Page.step st ev) as [st1|] eqn:Hstep; [|discriminate].
    apply (IH st1); [|exact Hrun]. eapply step_unmounted; eassumption.
Qed.

Lemma rendered_render (st : Page.State) (a : App.State) :
  children_rendered (Page.render a st).
Proof.
  split; cbn [Page.render Page.generator Page.editor Page.app].
  - destruct (App.renders_ImageGenerator a); [reflexivity | congruence].
  - destruct (App.renders_ImageEditor a); [reflexivity | congruence].
Qed.

Lemma rendered_select_files (calls : list File) (st : Page.State) :
  children_rendered st → children_rendered (Page.select_files calls st).
Proof.
  revert st. induction calls as [|f calls IH]; intros st Hr; [exact Hr|].
  cbn [Page.select_files fold_left]. apply IH.
  exact (rendered_render st _).
Qed.

(** Every event keeps the mounted children among those [App] renders. *)
Lemma step_rendered (st st' : Page.State) (ev : Page.Event) :
  children_rendered st → Page.step st ev = Some st' → children_rendered st'.
Proof.
  intros Hr Hstep. destruct ev; cbn [Page.step] in Hstep.
  - destruct (App.isCheckingKey (Page.app st)); [|discriminate].
    injection Hstep as <-. apply rendered_render.
  - destruct (App.screen (Page.app st)); try discriminate.
    injection Hstep as <-. apply rendered_render.
  - destruct (App.on_main (Page.app st)); [|discriminate].
    injection Hstep as <-. apply rendered_render.
  - destruct (Page.upload st) as [u|]; [|discriminate].
    injection Hstep as <-. exact Hr.
  - destruct (Page.upload st) as [u|]; [|discriminate].
    injection Hstep as <-. exact Hr.
  - destruct (Page.upload st) as [u|]; [|discriminate].
    destruct (FileUpload.handleDrop files u) as [u' calls].
    injection Hstep as <-. apply rendered_select_files. exact Hr.
  - destruct (Page.upload st) as [u|]; [|discriminate].
    destruct (FileUpload.handleFileInput files u) as [u' calls].
    injection Hstep as <-. apply rendered_select_files. exact Hr.
  - destruct (App.renders_reset (Page.app st)); [|discriminate].
    injection Hstep as <-. apply rendered_render.
  - destruct (Page.generator st) as [[id g]|] eqn:Hgen; [|discriminate].
    injection Hstep as <-. destruct Hr as [Hg He].
    split; [intros _; apply Hg; congruence | exact He].
  - destruct (Page.generator st) as [[id g]|] eqn:Hgen; [|discriminate].
    injection Hstep as <-. destruct Hr as [Hg He].
    split; [intros _; apply Hg; congruence | exact He].
  - destruct (Page.generator st) as [[id g]|] eqn:Hgen; [|discriminate].
    destruct (ImageGenerator.button_disabled g); [discriminate|].
    destruct Hr as [Hg He].
    destruct (ImageGenerator.handleGenerate g) as [g' [args|]];
      injection Hstep as <-;
      (split; [intros _; apply Hg; congruence | exact He]).
  - destruct (Page.editor st) as [[id e]|] eqn:Hed; [|discriminate].
    destruct (ImageEditor.originalFile e); [discriminate|].
    injection Hstep as <-. destruct Hr as [Hg He].
    split; [exact Hg | intros _; apply He; congruence].
  - destruct (Page.editor st) as [[id e]|] eqn:Hed; [|discriminate].
    destruct (ImageEditor.originalFile e); [|discriminate].
    injection Hstep as <-. destruct Hr as [Hg He].
    split; [exact Hg | intros _; apply He; congruence].
  - destruct (Page.editor st) as [[id e]|] eqn:Hed; [|discriminate].
    destruct (ImageEditor.originalFile e); [|discriminate].
    destruct (ImageEditor.button_disabled e); [discriminate|].
    destruct Hr as [Hg He].
    destruct (ImageEditor.handleEdit e) as [e' [args|]];
      injection Hstep as <-;
      (split; [exact Hg | intros _; apply He; congruence]).
  - destruct (Page.editor st) as [[id e]|] eqn:Hed; [|discriminate].
    destruct (ImageEditor.originalFile e); [|discriminate].
    injection Hstep as <-. destruct Hr as [Hg He].
    split; [exact Hg | intros _; apply He; congruence].
  - destruct (Page.in_flight st !! i) as [[s id]|]; [|discriminate].
    destruct s; try discriminate. injection Hstep as <-.
    exact (rendered_render st _).
  - destruct (Page.in_flight st !! i) as [[s id]|]; [|discriminate].
    destruct s; try discriminate; injection Hstep as <-.
    + destruct (Page.generator st) as [[id' g]|] eqn:Hgen; [|exact Hr].
      destruct (bool_decide _); [|exact Hr]. destruct Hr as [Hg He].
      split; [intros _; apply Hg; congruence | exact He].
    + destruct (Page.editor st) as [[id' e]|] eqn:Hed; [|exact Hr].
      destruct (bool_decide _); [|exact Hr]. destruct Hr as [Hg He].
      split; [exact Hg | intros _; apply He; congruence].
Qed.

Lemma run_rendered (evs : list Page.Event) (st st' : Page.State) :
  children_rendered st → Page.run st evs = Some st' → children_rendered st'.
Proof.
  revert st. induction evs as [|ev evs IH]; intros st Hr Hrun; cbn in Hrun.
  - injection Hrun as <-. exact Hr.
  - destruct (Page.step st ev) as [st1|] eqn:Hstep; [|discriminate].
    apply (IH st1); [|exact Hrun]. eapply step_rendered; eassumption.
Qed.

Lemma initial_rendered : children_rendered Page.initial.
Proof. split; intros H; exfalso; apply H; reflexivity. Qed.

(** The generator and the editor are never mounted together. *)
Lemma not_both_mounted (st : Page.State) :
  children_rendered st →
  Page.generator st = None ∨ Page.editor st = None.
Proof.
  intros [Hg He].
  destruct (Page.generator st) as [g|] eqn:Hgen; [|left; reflexivity].
  destruct (Page.editor st) as [e|] eqn:Hed; [|right; reflexivity].
  exfalso.
  lapply Hg; [clear Hg; intros Hg | discriminate].
  lapply He; [clear He; intros He | discriminate].
  unfold App.renders_ImageGenerator, App.renders_ImageEditor in Hg, He.
  apply andb_true_iff in Hg as [_ Hg]. apply andb_true_iff in He as [_ He].
  apply bool_decide_eq_true_1 in Hg. apply bool_decide_eq_true_1 in He.
  congruence.
Qed.

Lemma render_mounts (st : Page.State) (a : App.State) :
  (Page.mounts st ≤ Page.mounts (Page.render a st))%nat.
Proof. cbn. repeat (destruct (_ && _)); lia. Qed.

(** A tab that is left takes its component off the page. *)
Lemma leaving_unmounts_generator (st : Page.State) (t : App.Tab) (id : nat)
    (g : ImageGenerator.State) :
  Page.consistent st → children_rendered st →
  Page.generator st = Some (id, g) → t ≠ App.GENERATOR →
  Page.generator (Page.render (App.setActiveTab t (Page.app st)) st) = None
  ∧ unmounted id (Page.render (App.setActiveTab t (Page.app st)) st).
Proof.
  intros Hc Hr Hgen Ht.
  assert (Hoff : App.renders_ImageGenerator (App.setActiveTab t (Page.app st)) = false).
  { unfold App.renders_ImageGenerator. cbn [App.setActiveTab App.activeTab].
    rewrite bool_decide_eq_false_2 by exact Ht. apply andb_false_r. }
  assert (Hnone : Page.generator (Page.render (App.setActiveTab t (Page.app st)) st)
                  = None).
  { cbn [Page.render Page.generator]. rewrite Hoff. reflexivity. }
  split; [exact Hnone|].
  pose proof (Page.generator_known st Hc id g Hgen) as Hid.
  split; [|split].
  - pose proof (render_mounts st (App.setActiveTab t (Page.app st))). lia.
  - intros g'. rewrite Hnone. discriminate.
  - intros e'. cbn [Page.render Page.editor].
    destruct (not_both_mounted st Hr) as [Hcontra|Hed]; [congruence|].
    rewrite Hed. destruct (App.renders_ImageEditor _); [|discriminate].
    intros H. injection H as H _. destruct (_ && _); lia.
Qed.

Lemma leaving_unmounts_editor (st : Page.State) (t : App.Tab) (id : nat)
    (e : ImageEditor.State) :
  Page.consistent st → children_rendered st →
  Page.editor st = Some (id, e) → t ≠ App.EDITOR →
  Page.editor (Page.render (App.setActiveTab t (Page.app st)) st) = None
  ∧ unmounted id (Page.render (App.setActiveTab t (Page.app st)) st).
Proof.
  intros Hc Hr Hed Ht.
  assert (Hoff : App.renders_ImageEditor (App.setActiveTab t (Page.app st)) = false).
  { unfold App.renders_ImageEditor. cbn [App.setActiveTab App.activeTab].
    rewrite bool_decide_eq_false_2 by exact Ht. apply andb_false_r. }
  assert (Hnone : Page.editor (Page.render (App.setActiveTab t (Page.app st)) st)
                  = None).
  { cbn [Page.render Page.editor]. rewrite Hoff. reflexivity. }
  split; [exact Hnone|].
  pose proof (Page.editor_known st Hc id e Hed) as Hid.
  split; [|split].
  - pose proof (render_mounts st (App.setActiveTab t (Page.app st))). lia.
  - intros g'. cbn [Page.render Page.generator].
    destruct (not_both_mounted st Hr) as [Hgen|Hcontra]; [|congruence].
    rewrite Hgen. destruct (App.renders_ImageGenerator _); [|discriminate].
    intros H. injection H as H _. lia.
  - intros e'. rewrite Hnone. discriminate.
Qed.

(** The reply to a call of an instance that is not mounted is dropped. *)
Lemma reply_to_unmounted_dropped (id : nat) (st st' : Page.State) (i : nat)
    (s : Page.Surface) (outcome : Promise string) :
  unmounted id st →
  Page.in_flight st !! i = Some {| Page.surface := s; Page.instance := id |} →
  Page.step st (Page.ImageSettled i outcome) = Some st' →
  dropped i st st'.
Proof.
  intros (_ & Hg & He) Hi Hstep.
  assert (Hdrop : dropped i st (Page.finish i st)) by (repeat split).
  cbn [Page.step] in Hstep. rewrite Hi in Hstep.
  destruct s; try discriminate; injection Hstep as <-.
  - destruct (Page.generator st) as [[id' g]|] eqn:Hgen; [|exact Hdrop].
    case_bool_decide as Hid; [|exact Hdrop].
    subst id'. destruct (Hg g eq_refl).
  - destruct (Page.editor st) as [[id' e]|] eqn:Hed; [|exact Hdrop].
    case_bool_decide as Hid; [|exact Hdrop].
    subst id'. destruct (He e eq_refl).
Qed.

(** X16. Leaving its tab unmounts the generator or the editor, and the
    instance that was mounted never comes back: opening the tab again mounts
    a new one.  Had the user stayed, the picture of a running call would
    have been shown when it arrived; once the tab has been left, the reply
    to a call that the old instance started is dropped: it changes nothing
    of what is on the page, at any later time, so the picture that was being
    made is lost. *)
Theorem unmounted_instance_never_returns
    (evs evs' : list Page.Event) (st left later : Page.State) (t : App.Tab) :
  Page.run Page.initial evs = Some st →
  Page.step st (Page.ClickTab t) = Some left →
  Page.run left evs' = Some later →
  (∀ id g,
     Page.generator st = Some (id, g) → t ≠ App.GENERATOR →
     (∀ i picture stayed,
        Page.in_flight st !! i
        = Some {| Page.surface := Page.Generation; Page.instance := id |} →
        Page.step st (Page.ImageSettled i (Fulfilled picture)) = Some stayed →
        ∃ g', Page.generator stayed = Some (id, g')
              ∧ ImageGenerator.generatedImage g' = Some picture)
     ∧ Page.generator left = None
     ∧ (∀ g', Page.generator later ≠ Some (id, g'))
     ∧ (∀ i outcome after,
          Page.in_flight later !! i
          = Some {| Page.surface := Page.Generation; Page.instance := id |} →
          Page.step later (Page.ImageSettled i outcome) = Some after →
          dropped i later after))
  ∧ (∀ id e,
       Page.editor st = Some (id, e) → t ≠ App.EDITOR →
       (∀ i picture stayed,
          Page.in_flight st !! i
          = Some {| Page.surface := Page.Editing; Page.instance := id |} →
          Page.step st (Page.ImageSettled i (Fulfilled picture)) = Some stayed →
          ∃ e', Page.editor stayed = Some (id, e')
                ∧ ImageEditor.editedImage e' = Some picture)
       ∧ Page.editor left = None
       ∧ (∀ e', Page.editor later ≠ Some (id, e'))
       ∧ (∀ i outcome after,
            Page.in_flight later !! i
            = Some {| Page.surface := Page.Editing; Page.instance := id |} →
            Page.step later (Page.ImageSettled i outcome) = Some after →
            dropped i later after)).
Proof.
  intros Hrun Hstep Hlater.
  pose proof (run_consistent evs _ _ initial_consistent Hrun) as Hc.
  pose proof (run_rendered evs _ _ initial_rendered Hrun) as Hr.
  cbn [Page.step] in Hstep.
  destruct (App.on_main (Page.app st)); [|discriminate].
  injection Hstep as <-.
  split.
  - intros id g Hgen Ht.
    destruct (leaving_unmounts_generator st t id g Hc Hr Hgen Ht) as [Hnone Hun].
    pose proof (run_unmounted id evs' _ _ Hun Hlater) as Hun'.
    split; [|split; [exact Hnone|split]].
    + intros i picture stayed Hi Hs. cbn [Page.step] in Hs.
      rewrite Hi, Hgen in Hs. rewrite bool_decide_eq_true_2 in Hs by reflexivity.
      injection Hs as <-. eexists. split; reflexivity.
    + apply Hun'.
    + intros i outcome after Hi Hs.
      exact (reply_to_unmounted_dropped id later after i _ outcome Hun' Hi Hs).
  - intros id e Hed Ht.
    destruct (leaving_unmounts_editor st t id e Hc Hr Hed Ht) as [Hnone Hun].
    pose proof (run_unmounted id evs' _ _ Hun Hlater) as Hun'.
    split; [|split; [exact Hnone|split]].
    + intros i picture stayed Hi Hs. cbn [Page.step] in Hs.
      rewrite Hi, Hed in Hs. rewrite bool_decide_eq_true_2 in Hs by reflexivity.
      injection Hs as <-. eexists. split; reflexivity.
    + apply Hun'.
    + intros i outcome after Hi Hs.
      exact (reply_to_unmounted_dropped id later after i _ outcome Hun' Hi Hs).
Qed.

(** X16 for a generation that is running when the tab is left: the
    generator that is mounted on return is another one, and the reply
    leaves it as it is. *)
Lemma unmounted_instance_never_returns_witness :
  ∃ st left later after,
    Page.run Page.initial
      [Page.KeyChecked (Some true); Page.ClickTab App.GENERATOR;
       Page.TypePrompt "a poster"; Page.ClickGenerate] = Some st
    ∧ Page.step st (Page.ClickTab App.PREFLIGHT) = Some left
    ∧ Page.run left [Page.ClickTab App.GENERATOR] = Some later
    ∧ Page.step later (Page.ImageSettled 0 (Fulfilled "data:image/png;base64,AAAA"))
      = Some after
    ∧ Page.generator later = Some (2%nat, ImageGenerator.initial)
    ∧ dropped 0 later after.
Proof.
  eexists _, _, _, _. split; [reflexivity|]. split; [reflexivity|].
  split; [reflexivity|]. split; [reflexivity|]. split; [reflexivity|].
  refine (proj2 (proj2 (proj2 (proj1 (unmounted_instance_never_returns
            [Page.KeyChecked (Some true); Page.ClickTab App.GENERATOR;
             Page.TypePrompt "a poster"; Page.ClickGenerate]
            [Page.ClickTab App.GENERATOR] _ _ _ App.PREFLIGHT
            eq_refl eq_refl eq_refl)
          1%nat _ eq_refl _)))
          0%nat (Fulfilled "data:image/png;base64,AAAA") _ eq_refl eq_refl).
  discriminate.
Defined.
